(** * Pyzard: conflict resolution, folder merge, batch journal and undo

    A shallow embedding of [Pyzard.py].  Python [str] values are Rocq
    [string]s (byte strings: the separators ['/'] and ['.'] are ASCII, so
    cutting a UTF-8 encoded path at them agrees with cutting the text).
    The [os.path] functions are the POSIX ones.  The operating system is an
    interface ([Platform]); the functions of the program are written
    against it in a small state-and-exception monad.

    What is left out: [print] (the console is no part of the state);
    [os.walk] is taken as the list of its triples at the time of the call;
    a journal file that holds a list is taken to hold record objects (the
    program writes lists of records only), while a file that is missing,
    does not parse, or parses to a value that is not a list is modelled;
    and no manifest names the journal file itself. *)

From Stdlib Require Import String Ascii List Bool Arith ZArith Lia DecimalString
  DecimalNat.
From stdpp Require Import base tactics list.

Open Scope string_scope.

(** ** Python strings *)

Module PyStr.

(** [c in s] *)
Fixpoint contains (c : ascii) (s : string) : bool :=
  match s with
  | EmptyString => false
  | String x r => Ascii.eqb x c || contains c r
  end.

(** [s == c * len(s)] *)
Fixpoint all_char (c : ascii) (s : string) : bool :=
  match s with
  | EmptyString => true
  | String x r => Ascii.eqb x c && all_char c r
  end.

(** [(p[:i], p[i:])] with [i = p.rfind(c) + 1] *)
Fixpoint cut_after_last (c : ascii) (p : string) : string * string :=
  match p with
  | EmptyString => (EmptyString, EmptyString)
  | String x r =>
      match cut_after_last c r with
      | (EmptyString, _) =>
          if Ascii.eqb x c then (String x EmptyString, r)
          else (EmptyString, String x r)
      | (h, t) => (String x h, t)
      end
  end.

(** [(t[:i], t[i:])] with [i = t.rfind(c)], when [c] occurs in [t] *)
Fixpoint cut_before_last (c : ascii) (t : string) : option (string * string) :=
  match t with
  | EmptyString => None
  | String x r =>
      match cut_before_last c r with
      | Some (a, b) => Some (String x a, b)
      | None => if Ascii.eqb x c then Some (EmptyString, String x r) else None
      end
  end.

(** [s.rstrip(c)] *)
Fixpoint rstrip (c : ascii) (s : string) : string :=
  match s with
  | EmptyString => EmptyString
  | String x r =>
      match rstrip c r with
      | EmptyString => if Ascii.eqb x c then EmptyString else String x EmptyString
      | r' => String x r'
      end
  end.

(** [s.startswith(c)] and [s.endswith(c)] for a one-character [c] *)
Definition startswith (c : ascii) (s : string) : bool :=
  match s with
  | EmptyString => false
  | String x _ => Ascii.eqb x c
  end.

Fixpoint endswith (c : ascii) (s : string) : bool :=
  match s with
  | EmptyString => false
  | String x EmptyString => Ascii.eqb x c
  | String _ r => endswith c r
  end.

(** [str(n)] for a non-negative integer, as in [f"{counter}"] *)
Definition str (n : nat) : string := NilEmpty.string_of_uint (Nat.to_uint n).

(** A byte [10xxxxxx] continues the UTF-8 sequence of a character. *)
Definition is_continuation (c : ascii) : bool :=
  Nat.leb 128 (nat_of_ascii c) && Nat.ltb (nat_of_ascii c) 192.

(** [len(s)]: the characters of the text, not the bytes of its encoding *)
Fixpoint code_points (s : string) : nat :=
  match s with
  | EmptyString => 0
  | String c r => if is_continuation c then code_points r else S (code_points r)
  end.

Fixpoint drop_continuation (s : string) : string :=
  match s with
  | EmptyString => EmptyString
  | String c r => if is_continuation c then drop_continuation r else s
  end.

(** [s[n:]] *)
Fixpoint drop_code_points (n : nat) (s : string) : string :=
  match n, s with
  | 0, _ => s
  | S _, EmptyString => EmptyString
  | S n', String _ r => drop_code_points n' (drop_continuation r)
  end.

(** [s[-k:]] for [k >= 0] ([s[-0:]] is [s]) *)
Definition last_code_points (k : nat) (s : string) : string :=
  match k with
  | 0 => s
  | S _ => drop_code_points (code_points s - k) s
  end.

End PyStr.

(** ** [os.path] (posixpath) *)

Module OsPath.
Import PyStr.

Definition sep : ascii := "/"%char.
Definition extsep : ascii := "."%char.

(** [os.path.basename(p)]: [p[i:]] with [i = p.rfind('/') + 1] *)
Definition basename (p : string) : string := snd (cut_after_last sep p).

(** [os.path.dirname(p)]: [head = p[:i]]; a head that is not only slashes
    loses its trailing slashes *)
Definition dirname (p : string) : string :=
  let head := fst (cut_after_last sep p) in
  if negb (String.eqb head EmptyString) && negb (all_char sep head)
  then rstrip sep head
  else head.

(** [os.path.splitext(p)]: the extension starts at the last dot of the last
    component, unless only dots precede it there *)
Definition splitext (p : string) : string * string :=
  let (h, t) := cut_after_last sep p in
  match cut_before_last extsep t with
  | Some (a, b) =>
      if all_char extsep a then (p, EmptyString) else (h ++ a, b)
  | None => (p, EmptyString)
  end.

(** [os.path.join(a, b)] *)
Definition join (a b : string) : string :=
  if startswith sep b then b
  else if String.eqb a EmptyString || endswith sep a then a ++ b
  else a ++ String sep b.

End OsPath.

(** ** Outcomes, and a state monad with exceptions *)

Definition path : Type := string.

(** An exception is its message ([str(e)]). *)
Definition exn : Type := string.

Inductive Res (A : Type) : Type :=
| Ok (a : A)
| Raise (e : exn).
Arguments Ok {A} a.
Arguments Raise {A} e.

(** A computation over a state [S]: the state it leaves is kept also when it
    raises (a failed call does not roll back what was done before). *)
Definition M (S A : Type) : Type := S -> Res A * S.

Definition ret {S A} (a : A) : M S A := fun s => (Ok a, s).

Definition raise {S A} (e : exn) : M S A := fun s => (Raise e, s).

Definition bind {S A B} (m : M S A) (k : A -> M S B) : M S B :=
  fun s =>
    match m s with
    | (Ok a, s') => k a s'
    | (Raise e, s') => (Raise e, s')
    end.

(** [try: m  except Exception as e: h e] *)
Definition try_catch {S A} (m : M S A) (h : exn -> M S A) : M S A :=
  fun s =>
    match m s with
    | (Ok a, s') => (Ok a, s')
    | (Raise e, s') => h e s'
    end.

(** [try: m  finally: f] *)
Definition try_finally {S A} (m : M S A) (f : M S unit) : M S A :=
  fun s =>
    match m s with
    | (r, s') =>
        match f s' with
        | (Ok _, s'') => (r, s'')
        | (Raise e, s'') => (Raise e, s'')
        end
    end.

Definition get {S} : M S S := fun s => (Ok s, s).

Definition modify {S} (f : S -> S) : M S unit := fun s => (Ok tt, f s).

Notation "x <- m ;; k" := (bind m (fun x => k))
  (at level 100, m at next level, right associativity).
Notation "m ;;; k" := (bind m (fun _ => k))
  (at level 100, right associativity).

(** [for x in l: body x] *)
Fixpoint for_each {S A} (l : list A) (body : A -> M S unit) : M S unit :=
  match l with
  | [] => ret tt
  | x :: rest => body x ;;; for_each rest body
  end.

(** ** The platform: file system, clock and randomness

    The calls the program makes into [os], [shutil], [uuid] and [datetime],
    over an abstract world [W].  Reads leave the world as it is by their
    type; a mutating call returns the world it left, also when it raises. *)

(** One row of the manifest, as [read_csv_with_encoding_detection] returns
    it in ["data"]. *)
Record ManifestEntry : Type := {
  source_name : string;
  target_name : string;
  row_number : nat
}.

Class Platform (W : Type) : Type := {
  os_path_exists : path -> W -> bool;
  os_path_isfile : path -> W -> bool;
  os_path_isdir : path -> W -> bool;
  os_listdir : path -> W -> Res (list string);
  (** [os.walk(top)], top-down, as the list of its [(root, dirs, files)] *)
  os_walk : path -> W -> list (path * list string * list string);
  (** the result of reading and decoding the manifest: [inl error] stands
      for [{"success": False, "error": error}] *)
  read_csv_with_encoding_detection : path -> W -> string + list ManifestEntry;
  (** [os.makedirs(p, exist_ok=True)] *)
  os_makedirs : path -> M W unit;
  os_remove : path -> M W unit;
  shutil_copy2 : path -> path -> M W unit;
  shutil_copytree : path -> path -> M W unit;
  shutil_move : path -> path -> M W unit;
  shutil_rmtree : path -> M W unit;
  (** [os.urandom(4).hex()], [str(uuid.uuid4())], [datetime.now().isoformat()] *)
  os_urandom_hex : W -> string * W;
  uuid4 : W -> string * W;
  datetime_now : W -> string * W;
  (** [str.lower] and [str.strip] *)
  str_lower : string -> string;
  str_strip : string -> string;
  (** frames left before Python raises [RecursionError] *)
  recursion_limit : nat;
  (** a number of probes within which a free copy name is met (see
      [FiniteProbe]) *)
  probe_bound : path -> W -> nat
}.

(** ** Copy names and the conflict resolver *)

(** The constants of the module. *)
Definition DEFAULT_CONFLICT_MODE : string := "copy".

(** [new_path] of [generate_copy_name] for a given [counter]:
    [f"{name}_副本{counter}{ext}"] beside the original. *)
Definition copy_candidate (original_path : path) (counter : nat) : path :=
  let directory := OsPath.dirname original_path in
  let filename := OsPath.basename original_path in
  let (name, ext) := OsPath.splitext filename in
  let new_name := name ++ "_副本" ++ PyStr.str counter ++ ext in
  OsPath.join directory new_name.

(** A directory holds finitely many entries: among the copy names of a path
    one is free, within [probe_bound] probes. *)
Class FiniteProbe (W : Type) `{Platform W} : Prop :=
  probe_bound_free : forall (p : path) (w : W),
    exists k, 1 <= k <= probe_bound p w /\
              os_path_exists (copy_candidate p k) w = false.

Section Program.
Context {W : Type} `{Platform W}.

Definition path_exists (p : path) : M W bool :=
  fun w => (Ok (os_path_exists p w), w).

Definition path_isfile (p : path) : M W bool :=
  fun w => (Ok (os_path_isfile p w), w).

Definition path_isdir (p : path) : M W bool :=
  fun w => (Ok (os_path_isdir p w), w).

Definition listdir (p : path) : M W (list string) :=
  fun w => (os_listdir p w, w).

(** The [while True] loop of [generate_copy_name], for at most [fuel]
    probes from [counter] on. *)
Fixpoint generate_copy_name_loop (original_path : path) (fuel counter : nat)
  : M W (option path) :=
  match fuel with
  | 0 => ret None
  | S fuel' =>
      let new_path := copy_candidate original_path counter in
      found <- path_exists new_path ;;
      if negb found then ret (Some new_path)
      else generate_copy_name_loop original_path fuel' (S counter)
  end.

(** [generate_copy_name]: the loop is run for [probe_bound] probes, which
    is enough on a platform with [FiniteProbe] ([generate_copy_name_total]);
    the last branch is not reached there. *)
Definition generate_copy_name (original_path : path) : M W path :=
  fun w =>
    match generate_copy_name_loop original_path (probe_bound original_path w) 1 w with
    | (Ok (Some new_path), w') => (Ok new_path, w')
    | (_, w') => (Ok original_path, w')
    end.

(** [resolve_conflict]: [None] is Python's [None] (skip). *)
Definition resolve_conflict (source_path target_path : path)
    (conflict_mode : string) (is_folder : bool) : M W (option path) :=
  found <- path_exists target_path ;;
  if negb found then ret (Some target_path)
  else if String.eqb conflict_mode "skip" then ret None
  else if String.eqb conflict_mode "overwrite" then ret (Some target_path)
  else if String.eqb conflict_mode "copy" then
    new_path <- generate_copy_name target_path ;;
    ret (Some new_path)
  else if String.eqb conflict_mode "merge" && is_folder then
    ret (Some target_path)
  else
    new_path <- generate_copy_name target_path ;;
    ret (Some new_path).

(** ** The folder merger *)

(** The body of the [for] loop of [merge_folders]; [merge] is the
    recursive call. *)
Definition merge_item (merge : path -> path -> M W unit)
    (source_folder target_folder : path) (item : string) : M W unit :=
  let source_item := OsPath.join source_folder item in
  let target_item := OsPath.join target_folder item in
  is_dir <- path_isdir source_item ;;
  if is_dir then
    found <- path_exists target_item ;;
    if negb found then shutil_copytree source_item target_item
    else merge source_item target_item
  else
    found <- path_exists target_item ;;
    if negb found then shutil_copy2 source_item target_item
    else
      new_path <- generate_copy_name target_item ;;
      shutil_copy2 source_item new_path.

(** [merge_folders] with [depth] frames left: Python raises
    [RecursionError] when none is. *)
Fixpoint merge_folders (depth : nat) (source_folder target_folder : path)
  : M W unit :=
  match depth with
  | 0 => raise "RecursionError: maximum recursion depth exceeded"
  | S depth' =>
      try_catch
        (items <- listdir source_folder ;;
         for_each items
           (merge_item (merge_folders depth') source_folder target_folder))
        (fun e => raise e)
  end.

End Program.

(** ** The operation journal *)

(** One record of [.operation_history.json]; the fields are the keys of the
    JSON object ([rec_undo_timestamp] is absent until the record is undone). *)
Record OperationRecord : Type := {
  rec_id : string;
  rec_type : string;
  rec_source_paths : list path;
  rec_target_paths : list path;
  rec_backup_paths : list path;
  rec_timestamp : string;
  rec_status : string;
  rec_success : bool;
  rec_error_message : option string;
  rec_undo_timestamp : option string
}.

(** A JSON value as [json.load] returns it: [None], a [bool], an [int], a
    [float] (the decimal [mantissa * 10 ** exponent]), a [str], a [list],
    a [dict]. *)
#[local] Unset Elimination Schemes.
Inductive Json : Type :=
| JsNull
| JsBool (b : bool)
| JsInt (n : Z)
| JsFloat (mantissa exponent : Z)
| JsString (s : string)
| JsArray (items : list Json)
| JsObject (fields : list (string * Json)).
#[local] Set Elimination Schemes.

(** A JSON value that is not a list. *)
Inductive NonList : Type :=
| NlNull
| NlBool (b : bool)
| NlInt (n : Z)
| NlFloat (mantissa exponent : Z)
| NlString (s : string)
| NlObject (fields : list (string * Json)).

(** [bool(v)] *)
Definition truthy (v : NonList) : bool :=
  match v with
  | NlNull => false
  | NlBool b => b
  | NlInt n => negb (Z.eqb n 0)
  | NlFloat mantissa _ => negb (Z.eqb mantissa 0)
  | NlString s => negb (String.eqb s "")
  | NlObject fields => match fields with [] => false | _ :: _ => true end
  end.

(** [type(v).__name__] *)
Definition type_name (v : NonList) : string :=
  match v with
  | NlNull => "NoneType"
  | NlBool _ => "bool"
  | NlInt _ => "int"
  | NlFloat _ _ => "float"
  | NlString _ => "str"
  | NlObject _ => "dict"
  end.

(** What [.operation_history.json] holds: no file; a file [json.load]
    fails on; a list of records; or a value that is not a list. *)
Inductive JournalFile : Type :=
| JMissing
| JMalformed
| JLoaded (history : list OperationRecord)
| JNotList (v : NonList).

(** The world and the journal file.  The journal is kept apart from the
    paths the batches work on: no manifest names the journal file. *)
Record State (W : Type) : Type := {
  fs : W;
  journal : JournalFile
}.
Arguments fs {W} s.
Arguments journal {W} s.

(** The values of [operation_type]. *)
Definition CUT : string := "剪切".
Definition COPY : string := "复制".
Definition RENAME : string := "重命名".

(** The local variables of a batch driver that its [finally] clause and
    the statements after it read ([copied_files] is [copied_folders] in
    [extract_entire_folder]; [found_folders] is a local of that driver
    alone, [None] until it is assigned). *)
Record Locals (R : Type) : Type := {
  copied_files : list path;
  renamed_files : list R;
  backup_paths : list path;
  source_paths : list path;
  operation_success : bool;
  error_message : option string;
  found_folders : option (list (path * (string * string * path)))
}.
Arguments found_folders {R} l.
Arguments copied_files {R} l.
Arguments renamed_files {R} l.
Arguments backup_paths {R} l.
Arguments source_paths {R} l.
Arguments operation_success {R} l.
Arguments error_message {R} l.

Definition init_locals {R} : Locals R :=
  {| copied_files := []; renamed_files := []; backup_paths := [];
     source_paths := []; operation_success := false; error_message := None;
     found_folders := None |}.

(** [copied_files.append(p)] and the like. *)
Definition copied_files_append {R} (p : path) (l : Locals R) : Locals R :=
  {| copied_files := copied_files l ++ [p]; renamed_files := renamed_files l;
     backup_paths := backup_paths l; source_paths := source_paths l;
     operation_success := operation_success l; error_message := error_message l;
     found_folders := found_folders l |}.

Definition renamed_files_append {R} (x : R) (l : Locals R) : Locals R :=
  {| copied_files := copied_files l; renamed_files := renamed_files l ++ [x];
     backup_paths := backup_paths l; source_paths := source_paths l;
     operation_success := operation_success l; error_message := error_message l;
     found_folders := found_folders l |}.

Definition backup_paths_append {R} (p : path) (l : Locals R) : Locals R :=
  {| copied_files := copied_files l; renamed_files := renamed_files l;
     backup_paths := backup_paths l ++ [p]; source_paths := source_paths l;
     operation_success := operation_success l; error_message := error_message l;
     found_folders := found_folders l |}.

Definition source_paths_append {R} (p : path) (l : Locals R) : Locals R :=
  {| copied_files := copied_files l; renamed_files := renamed_files l;
     backup_paths := backup_paths l; source_paths := source_paths l ++ [p];
     operation_success := operation_success l; error_message := error_message l;
     found_folders := found_folders l |}.

(** [operation_success = True] *)
Definition set_success {R} (l : Locals R) : Locals R :=
  {| copied_files := copied_files l; renamed_files := renamed_files l;
     backup_paths := backup_paths l; source_paths := source_paths l;
     operation_success := true; error_message := error_message l;
     found_folders := found_folders l |}.

(** [error_message = str(e); operation_success = False] *)
Definition set_failure {R} (e : exn) (l : Locals R) : Locals R :=
  {| copied_files := copied_files l; renamed_files := renamed_files l;
     backup_paths := backup_paths l; source_paths := source_paths l;
     operation_success := false; error_message := Some e;
     found_folders := found_folders l |}.

(** [found_folders = {...}] *)
Definition set_found_folders {R} (found : list (path * (string * string * path)))
    (l : Locals R) : Locals R :=
  {| copied_files := copied_files l; renamed_files := renamed_files l;
     backup_paths := backup_paths l; source_paths := source_paths l;
     operation_success := operation_success l; error_message := error_message l;
     found_folders := Some found |}.

(** How the statement after a [try] block is reached: by [continue], or by
    falling through. *)
Inductive Ctl : Type :=
| Continue
| Proceed.

Definition temp_backup_dir : path := ".temp_backup".

Section Journal.
Context {W : Type} `{Platform W}.

(** [save_operation_history]: the file is read before the record is
    built, and written after [history.append]. *)
Definition save_operation_history (operation_type : string)
    (source_paths target_paths : list path) (backup_paths : option (list path))
    (operation_id : option string) (success : bool)
    (error_message : option string) : M (State W) string :=
  fun st =>
    let '(operation_id, w1) :=
      match operation_id with
      | Some i => (i, fs st)
      | None => uuid4 (fs st)
      end in
    let '(now, w2) := datetime_now w1 in
    let operation_record :=
      {| rec_id := operation_id;
         rec_type := operation_type;
         rec_source_paths := source_paths;
         rec_target_paths := target_paths;
         rec_backup_paths := match backup_paths with Some b => b | None => [] end;
         rec_timestamp := now;
         rec_status := if success then "completed" else "failed";
         rec_success := success;
         rec_error_message := error_message;
         rec_undo_timestamp := None |} in
    match journal st with
    | JLoaded history =>
        (Ok operation_id,
         {| fs := w2; journal := JLoaded (history ++ [operation_record]) |})
    | JMissing | JMalformed =>
        (Ok operation_id, {| fs := w2; journal := JLoaded [operation_record] |})
    | JNotList v =>
        (* [history.append] on what is not a list; nothing is written *)
        (Raise ("'" ++ type_name v ++ "' object has no attribute 'append'"),
         {| fs := w2; journal := JNotList v |})
    end.

(** A call into the platform from a driver: the locals stay. *)
Definition liftW {L A} (m : M W A) : M (L * W) A :=
  fun s => let '(r, w') := m (snd s) in (r, (fst s, w')).

Definition draw {L} (g : W -> string * W) : M (L * W) string :=
  fun s => let '(x, w') := g (snd s) in (Ok x, (fst s, w')).

Definition read {L A} (g : W -> A) : M (L * W) A :=
  fun s => (Ok (g (snd s)), s).

(** An assignment to the locals. *)
Definition update {L V} (f : L -> L) : M (L * V) unit :=
  fun s => (Ok tt, (f (fst s), snd s)).

(** The body of a driver's [try] runs on the file system alone. *)
Definition on_fs {L A} (m : M (L * W) A) : M (L * State W) A :=
  fun s =>
    let '(r, (l, w')) := m (fst s, fs (snd s)) in
    (r, (l, {| fs := w'; journal := journal (snd s) |})).

(** A call of [save_operation_history] from a [finally] clause. *)
Definition on_state {L A} (m : M (State W) A) : M (L * State W) A :=
  fun s => let '(r, st') := m (snd s) in (r, (fst s, st')).

(** The restore of a cut or rename that raised [e]:
    the backup is moved back when it is there, and [e] is raised again. *)
Definition restore_and_reraise {L A} (temp_backup source_file : path) (e : exn)
  : M (L * W) A :=
  found <- liftW (path_exists temp_backup) ;;
  (if found
   then try_catch (liftW (shutil_move temp_backup source_file)) (fun _ => ret tt)
   else ret tt) ;;;
  raise e.

(** The transfer of one file to its resolved path, as
    [search_and_copy_files] and [copy_files_from_csv_paths] both write it:
    in cut mode a backup, then the move; otherwise the copy.  (What follows
    the move only prints.) *)
Definition transfer_file {R} (cut_mode : bool)
    (source_file dest_file resolved_path : path) : M (Locals R * W) Ctl :=
  if cut_mode then
    suffix <- draw os_urandom_hex ;;
    let temp_backup :=
      OsPath.join temp_backup_dir
        ("backup_" ++ OsPath.basename source_file ++ "_" ++ suffix) in
    try_catch
      (found <- liftW (path_exists source_file) ;;
       if negb found then ret Continue
       else
         liftW (shutil_copy2 source_file temp_backup) ;;;
         update (backup_paths_append temp_backup) ;;;
         update (source_paths_append source_file) ;;;
         liftW (shutil_move source_file resolved_path) ;;;
         update (copied_files_append resolved_path) ;;;
         ret Proceed)
      (restore_and_reraise temp_backup source_file)
  else
    try_catch
      ((if negb (String.eqb resolved_path dest_file)
        then liftW (os_makedirs (OsPath.dirname resolved_path))
        else ret tt) ;;;
       liftW (shutil_copy2 source_file resolved_path) ;;;
       update (copied_files_append resolved_path) ;;;
       update (source_paths_append source_file) ;;;
       ret Proceed)
      (fun e => raise e).

(** *** [search_and_copy_files] *)

(** The statements run for a file whose name matches: [true] is
    [found = True; break], [false] is [continue]. *)
Definition search_match (target : path) (cut_mode : bool)
    (conflict_mode file_name target_name : string) (root file : string)
  : M (Locals (string * string) * W) bool :=
  let source_file := OsPath.join root file in
  let dest_file := OsPath.join target target_name in
  liftW (os_makedirs (OsPath.dirname dest_file)) ;;;
  resolved <- liftW (resolve_conflict source_file dest_file conflict_mode false) ;;
  match resolved with
  | None => ret false
  | Some resolved_path =>
      ctl <- transfer_file cut_mode source_file dest_file resolved_path ;;
      match ctl with
      | Continue => ret false
      | Proceed =>
          (if negb (String.eqb target_name file_name)
           then update (renamed_files_append (file_name, target_name))
           else ret tt) ;;;
          ret true
      end
  end.

(** [for file in files: ...], up to the [break]. *)
Fixpoint search_files (target : path) (cut_mode : bool)
    (conflict_mode file_name target_name : string) (root : string)
    (files : list string) : M (Locals (string * string) * W) bool :=
  match files with
  | [] => ret false
  | file :: rest =>
      if String.eqb (str_lower file) (str_lower file_name) then
        found <- search_match target cut_mode conflict_mode file_name
                   target_name root file ;;
        if found then ret true
        else search_files target cut_mode conflict_mode file_name target_name
               root rest
      else search_files target cut_mode conflict_mode file_name target_name
             root rest
  end.

(** [for root, dirs, files in os.walk(source): ...], up to the [break]. *)
Fixpoint search_walk (target : path) (cut_mode : bool)
    (conflict_mode file_name target_name : string)
    (walk : list (path * list string * list string))
  : M (Locals (string * string) * W) bool :=
  match walk with
  | [] => ret false
  | (root, _, files) :: rest =>
      found <- search_files target cut_mode conflict_mode file_name
                 target_name root files ;;
      if found then ret true
      else search_walk target cut_mode conflict_mode file_name target_name rest
  end.

(** The [try] block of [search_and_copy_files]. *)
Definition search_and_copy_files_try (source target csv_file : path)
    (cut_mode : bool) (conflict_mode : string)
  : M (Locals (string * string) * W) unit :=
  found <- liftW (path_exists source) ;;
  (if negb found then raise ("源目录不存在: " ++ source) else ret tt) ;;;
  found <- liftW (path_exists target) ;;
  (if negb found then liftW (os_makedirs target) else ret tt) ;;;
  found <- liftW (path_exists csv_file) ;;
  (if negb found then raise ("CSV文件不存在: " ++ csv_file) else ret tt) ;;;
  csv_result <- read (read_csv_with_encoding_detection csv_file) ;;
  match csv_result with
  | inl error => raise ("读取CSV文件失败: " ++ error)
  | inr data =>
      liftW (os_makedirs temp_backup_dir) ;;;
      for_each data
        (fun item =>
           walk <- read (os_walk source) ;;
           search_walk target cut_mode conflict_mode (source_name item)
             (target_name item) walk ;;;
           ret tt) ;;;
      update set_success
  end.

(** The frame all four drivers share: [try: body] [except Exception as e:]
    the failure is noted; [finally:] the record is saved; then the result
    is returned. *)
Definition run_batch {R A} (body : M (Locals R * W) unit)
    (save : Locals R -> M (State W) string) (result : Locals R -> A)
  : M (Locals R * State W) A :=
  try_finally
    (try_catch (on_fs body) (fun e => update (set_failure e)))
    (s <- get ;; on_state (save (fst s)) ;;; ret tt) ;;;
  s <- get ;;
  ret (result (fst s)).

Definition conflict_mode_or_default (conflict_mode : option string) : string :=
  match conflict_mode with
  | Some m => m
  | None => DEFAULT_CONFLICT_MODE
  end.

(** [search_and_copy_files] *)
Definition search_and_copy_files (source target csv_file : path)
    (cut_mode : bool) (conflict_mode : option string)
  : M (State W) (list path) :=
  fun st =>
    let conflict_mode := conflict_mode_or_default conflict_mode in
    let '(operation_id, w0) := uuid4 (fs st) in
    let operation_type := if cut_mode then CUT else COPY in
    let '(r, (_, st')) :=
      run_batch
        (search_and_copy_files_try source target csv_file cut_mode conflict_mode)
        (fun l =>
           save_operation_history operation_type (source_paths l)
             (copied_files l)
             (if cut_mode then Some (backup_paths l) else None)
             (Some operation_id) (operation_success l) (error_message l))
        copied_files
        (init_locals, {| fs := w0; journal := journal st |}) in
    (r, st').

(** *** [rename_files_in_place] *)

(** [source_path_counts[source_path]] *)
Definition source_path_counts (data : list ManifestEntry) (source_path : path)
  : list path :=
  map (fun item => str_strip (target_name item))
    (filter (fun item => String.eqb (str_strip (source_name item)) source_path)
       data).

Definition mem (p : path) (l : list path) : bool :=
  existsb (String.eqb p) l.

(** One turn of the loop over the manifest; the result is
    [processed_files] after it. *)
Definition rename_item (conflict_mode : string) (data : list ManifestEntry)
    (processed_files : list path) (item : ManifestEntry)
  : M (Locals (string * string * path * path) * W) (list path) :=
  let source_path := str_strip (source_name item) in
  let target_path := str_strip (target_name item) in
  if mem source_path processed_files then ret processed_files
  else
    let target_paths := source_path_counts data source_path in
    if Nat.ltb 1 (List.length target_paths) &&
       Nat.ltb 1 (List.length (nodup string_dec target_paths))
    then ret (source_path :: processed_files)
    else
      found <- liftW (path_exists source_path) ;;
      if negb found then ret processed_files
      else
        is_file <- liftW (path_isfile source_path) ;;
        if negb is_file then ret processed_files
        else
          liftW (os_makedirs (OsPath.dirname target_path)) ;;;
          resolved <- liftW (resolve_conflict source_path target_path
                               conflict_mode false) ;;
          match resolved with
          | None => ret (source_path :: processed_files)
          | Some resolved_path =>
              suffix <- draw os_urandom_hex ;;
              let temp_backup :=
                OsPath.join temp_backup_dir
                  ("backup_" ++ OsPath.basename source_path ++ "_" ++ suffix) in
              try_catch
                (liftW (shutil_copy2 source_path temp_backup) ;;;
                 update (backup_paths_append temp_backup) ;;;
                 update (source_paths_append source_path) ;;;
                 liftW (shutil_move source_path resolved_path))
                (restore_and_reraise temp_backup source_path) ;;;
              update (renamed_files_append
                        (OsPath.basename source_path,
                         OsPath.basename resolved_path,
                         source_path, resolved_path)) ;;;
              ret (source_path :: processed_files)
          end.

Fixpoint rename_loop (conflict_mode : string) (data : list ManifestEntry)
    (processed_files : list path) (items : list ManifestEntry)
  : M (Locals (string * string * path * path) * W) unit :=
  match items with
  | [] => ret tt
  | item :: rest =>
      processed_files' <- rename_item conflict_mode data processed_files item ;;
      rename_loop conflict_mode data processed_files' rest
  end.

Definition rename_files_in_place_try (csv_file : path) (conflict_mode : string)
  : M (Locals (string * string * path * path) * W) unit :=
  found <- liftW (path_exists csv_file) ;;
  (if negb found then raise ("CSV文件不存在: " ++ csv_file) else ret tt) ;;;
  csv_result <- read (read_csv_with_encoding_detection csv_file) ;;
  match csv_result with
  | inl error => raise ("读取CSV文件失败: " ++ error)
  | inr data =>
      liftW (os_makedirs temp_backup_dir) ;;;
      rename_loop conflict_mode data [] data ;;;
      update set_success
  end.

(** [target_paths = [target for _, _, _, target in renamed_files]] *)
Definition renamed_targets (renamed_files : list (string * string * path * path))
  : list path :=
  map snd renamed_files.

(** [rename_files_in_place] ([source] is not used by the function). *)
Definition rename_files_in_place (source csv_file : path)
    (conflict_mode : option string)
  : M (State W) (list (string * string * path * path)) :=
  fun st =>
    let conflict_mode := conflict_mode_or_default conflict_mode in
    let '(operation_id, w0) := uuid4 (fs st) in
    let operation_type := RENAME in
    let '(r, (_, st')) :=
      run_batch
        (rename_files_in_place_try csv_file conflict_mode)
        (fun l =>
           save_operation_history operation_type (source_paths l)
             (renamed_targets (renamed_files l))
             (Some (backup_paths l))
             (Some operation_id) (operation_success l) (error_message l))
        renamed_files
        (init_locals, {| fs := w0; journal := journal st |}) in
    (r, st').

(** *** [extract_entire_folder] *)

(** [found_folders[key] = value]: a key already in the dict keeps its
    place. *)
Fixpoint dict_set {V} (key : path) (value : V) (d : list (path * V))
  : list (path * V) :=
  match d with
  | [] => [(key, value)]
  | (k, v) :: rest =>
      if String.eqb k key then (k, value) :: rest
      else (k, v) :: dict_set key value rest
  end.

(** [for folder_name, target_name in folder_targets: ...], up to the
    [break]. *)
Definition match_folder (folder_targets : list (string * string))
    (dir_name : string) : option (string * string) :=
  find (fun ft => String.eqb (str_lower dir_name) (str_lower (fst ft)))
    folder_targets.

Definition collect_dirs (target : path) (folder_targets : list (string * string))
    (root : path) (dirs : list string)
    (found_folders : list (path * (string * string * path)))
  : list (path * (string * string * path)) :=
  fold_left
    (fun found dir_name =>
       match match_folder folder_targets dir_name with
       | Some (folder_name, target_name) =>
           dict_set (OsPath.join root dir_name)
             (folder_name, target_name, OsPath.join target target_name) found
       | None => found
       end)
    dirs found_folders.

(** [found_folders] after the walk of [source]. *)
Definition collect_folders (target : path) (folder_targets : list (string * string))
    (walk : list (path * list string * list string))
  : list (path * (string * string * path)) :=
  fold_left
    (fun found entry =>
       let '(root, dirs, _) := entry in
       collect_dirs target folder_targets root dirs found)
    walk [].

(** One turn of the loop over [found_folders.items()]. *)
Definition extract_folder (cut_mode : bool) (conflict_mode : string)
    (found : path * (string * string * path))
  : M (Locals (string * string) * W) unit :=
  let '(source_folder, (folder_name, target_name, dest_path)) := found in
  liftW (os_makedirs (OsPath.dirname dest_path)) ;;;
  resolved <- liftW (resolve_conflict source_folder dest_path conflict_mode true) ;;
  match resolved with
  | None => ret tt
  | Some resolved_path =>
      (if cut_mode then
         suffix <- draw os_urandom_hex ;;
         let temp_backup :=
           OsPath.join temp_backup_dir
             ("backup_" ++ OsPath.basename source_folder ++ "_" ++ suffix) in
         try_catch
           (liftW (shutil_copytree source_folder temp_backup) ;;;
            update (backup_paths_append temp_backup) ;;;
            update (source_paths_append source_folder) ;;;
            liftW (shutil_move source_folder resolved_path) ;;;
            update (copied_files_append resolved_path))
           (restore_and_reraise temp_backup source_folder)
       else
         try_catch
           (found <- liftW (path_exists resolved_path) ;;
            (if String.eqb conflict_mode "merge" && found then
               liftW (merge_folders recursion_limit source_folder resolved_path)
             else
               (if found && String.eqb conflict_mode "overwrite"
                then liftW (shutil_rmtree resolved_path)
                else ret tt) ;;;
               liftW (shutil_copytree source_folder resolved_path)) ;;;
            update (copied_files_append resolved_path) ;;;
            update (source_paths_append source_folder))
           (fun e => raise e)) ;;;
      (if negb (String.eqb target_name folder_name)
       then update (renamed_files_append (folder_name, target_name))
       else ret tt)
  end.

Definition extract_entire_folder_try (source target csv_file : path)
    (cut_mode : bool) (conflict_mode : string)
  : M (Locals (string * string) * W) unit :=
  found <- liftW (path_exists source) ;;
  (if negb found then raise ("源目录不存在: " ++ source) else ret tt) ;;;
  found <- liftW (path_exists target) ;;
  (if negb found then liftW (os_makedirs target) else ret tt) ;;;
  found <- liftW (path_exists csv_file) ;;
  (if negb found then raise ("CSV文件不存在: " ++ csv_file) else ret tt) ;;;
  csv_result <- read (read_csv_with_encoding_detection csv_file) ;;
  match csv_result with
  | inl error => raise ("读取CSV文件失败: " ++ error)
  | inr data =>
      liftW (os_makedirs temp_backup_dir) ;;;
      let folder_targets :=
        map (fun item => (source_name item, target_name item)) data in
      walk <- read (os_walk source) ;;
      let found := collect_folders target folder_targets walk in
      update (set_found_folders found) ;;;
      for_each found (extract_folder cut_mode conflict_mode) ;;;
      update set_success
  end.

(** [extract_entire_folder].  After the [finally] clause the function
    evaluates [found_folders.values()]: when the [try] block raised before
    the assignment of [found_folders], this raises [UnboundLocalError]
    (the message is the one of Python 3.11 and later) and nothing is
    returned. *)
Definition extract_entire_folder (source target csv_file : path)
    (cut_mode : bool) (conflict_mode : option string)
  : M (State W) (list path) :=
  fun st =>
    let conflict_mode := conflict_mode_or_default conflict_mode in
    let '(operation_id, w0) := uuid4 (fs st) in
    let operation_type := if cut_mode then CUT else COPY in
    let '(r, (l, st')) :=
      run_batch
        (extract_entire_folder_try source target csv_file cut_mode conflict_mode)
        (fun l =>
           save_operation_history operation_type (source_paths l)
             (copied_files l)
             (if cut_mode then Some (backup_paths l) else None)
             (Some operation_id) (operation_success l) (error_message l))
        copied_files
        (init_locals, {| fs := w0; journal := journal st |}) in
    match r with
    | Raise e => (Raise e, st')
    | Ok copied_folders =>
        match found_folders l with
        | Some _ => (Ok copied_folders, st')
        | None =>
            (Raise ("cannot access local variable 'found_folders' where it is"
                    ++ " not associated with a value"),
             st')
        end
    end.

(** *** [copy_files_from_csv_paths] *)

(** One turn of the loop over the manifest. *)
Definition csv_paths_item (cut_mode : bool) (conflict_mode : string)
    (item : ManifestEntry) : M (Locals (string * string) * W) unit :=
  let source_path := source_name item in
  let target_folder := target_name item in
  found <- liftW (path_exists source_path) ;;
  if negb found then ret tt
  else
    is_file <- liftW (path_isfile source_path) ;;
    if negb is_file then ret tt
    else
      let file_name := OsPath.basename source_path in
      let dest_path := OsPath.join target_folder file_name in
      liftW (os_makedirs target_folder) ;;;
      resolved <- liftW (resolve_conflict source_path dest_path conflict_mode
                           false) ;;
      match resolved with
      | None => ret tt
      | Some resolved_path =>
          transfer_file cut_mode source_path dest_path resolved_path ;;;
          ret tt
      end.

Definition copy_files_from_csv_paths_try (csv_file : path) (cut_mode : bool)
    (conflict_mode : string) : M (Locals (string * string) * W) unit :=
  found <- liftW (path_exists csv_file) ;;
  (if negb found then raise ("CSV文件不存在: " ++ csv_file) else ret tt) ;;;
  csv_result <- read (read_csv_with_encoding_detection csv_file) ;;
  match csv_result with
  | inl error => raise ("读取CSV文件失败: " ++ error)
  | inr data =>
      liftW (os_makedirs temp_backup_dir) ;;;
      for_each data (csv_paths_item cut_mode conflict_mode) ;;;
      update set_success
  end.

(** [copy_files_from_csv_paths] *)
Definition copy_files_from_csv_paths (csv_file : path) (cut_mode : bool)
    (conflict_mode : option string) : M (State W) (list path) :=
  fun st =>
    let conflict_mode := conflict_mode_or_default conflict_mode in
    let '(operation_id, w0) := uuid4 (fs st) in
    let operation_type := if cut_mode then CUT else COPY in
    let '(r, (_, st')) :=
      run_batch
        (copy_files_from_csv_paths_try csv_file cut_mode conflict_mode)
        (fun l =>
           save_operation_history operation_type (source_paths l)
             (copied_files l)
             (if cut_mode then Some (backup_paths l) else None)
             (Some operation_id) (operation_success l) (error_message l))
        copied_files
        (init_locals, {| fs := w0; journal := journal st |}) in
    (r, st').

(** *** The four batch operations *)

(** A call of one of the batch drivers, with its arguments. *)
Inductive BatchCall : Type :=
| SearchAndCopyFiles (source target csv_file : path) (cut_mode : bool)
    (conflict_mode : option string)
| RenameFilesInPlace (source csv_file : path) (conflict_mode : option string)
| ExtractEntireFolder (source target csv_file : path) (cut_mode : bool)
    (conflict_mode : option string)
| CopyFilesFromCsvPaths (csv_file : path) (cut_mode : bool)
    (conflict_mode : option string).

(** The state a call leaves, whether it returns or raises (its [except]
    clause catches what the [try] block raises; what is raised after it is
    raised with the journal written, or left). *)
Definition run_call (c : BatchCall) (st : State W) : State W :=
  match c with
  | SearchAndCopyFiles source target csv_file cut_mode conflict_mode =>
      snd (search_and_copy_files source target csv_file cut_mode conflict_mode st)
  | RenameFilesInPlace source csv_file conflict_mode =>
      snd (rename_files_in_place source csv_file conflict_mode st)
  | ExtractEntireFolder source target csv_file cut_mode conflict_mode =>
      snd (extract_entire_folder source target csv_file cut_mode conflict_mode st)
  | CopyFilesFromCsvPaths csv_file cut_mode conflict_mode =>
      snd (copy_files_from_csv_paths csv_file cut_mode conflict_mode st)
  end.

(** ** Undo *)

(** [for op in reversed(history): if op.get("status") == "completed": ...
    break]: the record found, with its place in [history] (the dict the
    loop variable refers to is the one in the list). *)
Definition last_completed (history : list OperationRecord)
  : option (nat * OperationRecord) :=
  find (fun entry => String.eqb (rec_status (snd entry)) "completed")
    (rev (combine (seq 0 (List.length history)) history)).

(** [if os.path.isfile(p): remove(p) elif os.path.isdir(p): rmtree(p)] *)
Definition delete_path (p : path) : M W unit :=
  is_file <- path_isfile p ;;
  if is_file then os_remove p
  else
    is_dir <- path_isdir p ;;
    if is_dir then shutil_rmtree p else ret tt.

(** One turn of the loop that undoes a cut or a rename: [true] when
    [success_count] is incremented. *)
Definition undo_restore_item (last_operation : OperationRecord) (i : nat)
    (backup_path target_path : path) : M W bool :=
  try_catch
    (found <- path_exists backup_path ;;
     if found then
       match rec_source_paths last_operation !! i with
       | None => raise "IndexError: list index out of range"
       | Some source_path =>
           os_makedirs (OsPath.dirname source_path) ;;;
           is_file <- path_isfile backup_path ;;
           (if is_file then shutil_move backup_path source_path
            else
              is_dir <- path_isdir backup_path ;;
              if is_dir then shutil_move backup_path source_path else ret tt) ;;;
           found <- path_exists target_path ;;
           (if found && negb (String.eqb target_path source_path)
            then delete_path target_path
            else ret tt) ;;;
           ret true
       end
     else ret false)
    (fun _ => ret false).

(** [for i, (backup_path, target_path) in enumerate(zip(...)): ...] *)
Fixpoint undo_restore_loop (last_operation : OperationRecord) (i : nat)
    (pairs : list (path * path)) (success_count : nat) : M W nat :=
  match pairs with
  | [] => ret success_count
  | (backup_path, target_path) :: rest =>
      ok <- undo_restore_item last_operation i backup_path target_path ;;
      undo_restore_loop last_operation (S i) rest
        (if ok then S success_count else success_count)
  end.

(** One turn of the loop that undoes a copy. *)
Definition undo_delete_item (target_path : path) : M W bool :=
  try_catch
    (found <- path_exists target_path ;;
     if found then delete_path target_path ;;; ret true
     else ret false)
    (fun _ => ret false).

Fixpoint undo_delete_loop (targets : list path) (success_count : nat)
  : M W nat :=
  match targets with
  | [] => ret success_count
  | target_path :: rest =>
      ok <- undo_delete_item target_path ;;
      undo_delete_loop rest (if ok then S success_count else success_count)
  end.

(** The branch on [last_operation["type"]]: [Some success_count] for the
    three known types, [None] for any other (no branch is taken). *)
Definition undo_paths (last_operation : OperationRecord) : M W (option nat) :=
  if String.eqb (rec_type last_operation) CUT then
    n <- undo_restore_loop last_operation 0
           (combine (rec_backup_paths last_operation)
              (rec_target_paths last_operation)) 0 ;;
    ret (Some n)
  else if String.eqb (rec_type last_operation) COPY then
    n <- undo_delete_loop (rec_target_paths last_operation) 0 ;;
    ret (Some n)
  else if String.eqb (rec_type last_operation) RENAME then
    n <- undo_restore_loop last_operation 0
           (combine (rec_backup_paths last_operation)
              (rec_target_paths last_operation)) 0 ;;
    ret (Some n)
  else ret None.

(** [last_operation["status"] = "undone"] and
    [last_operation["undo_timestamp"] = now] *)
Definition mark_undone (now : string) (op : OperationRecord) : OperationRecord :=
  {| rec_id := rec_id op;
     rec_type := rec_type op;
     rec_source_paths := rec_source_paths op;
     rec_target_paths := rec_target_paths op;
     rec_backup_paths := rec_backup_paths op;
     rec_timestamp := rec_timestamp op;
     rec_status := "undone";
     rec_success := rec_success op;
     rec_error_message := rec_error_message op;
     rec_undo_timestamp := Some now |}.

(** The second [try] block of [undo_last_operation], for the record found
    at place [i] of [history]. *)
Definition undo_found (history : list OperationRecord) (i : nat)
    (last_operation : OperationRecord) : M (State W) bool :=
  fun st =>
    match undo_paths last_operation (fs st) with
    | (Raise e, w1) => (Raise e, {| fs := w1; journal := journal st |})
    | (Ok (Some 0), w1) => (Ok false, {| fs := w1; journal := journal st |})
    | (Ok _, w1) =>
        let '(now, w2) := datetime_now w1 in
        (Ok true,
         {| fs := w2; journal := JLoaded (alter (mark_undone now) i history) |})
    end.

(** [undo_last_operation] *)
Definition undo_last_operation : M (State W) bool :=
  fun st =>
    match journal st with
    | JMissing => (Ok false, st)
    | JMalformed => (Ok false, st)
    | JLoaded history =>
        match history with
        | [] => (Ok false, st)
        | _ =>
            match last_completed history with
            | None => (Ok false, st)
            | Some (i, last_operation) =>
                try_catch (undo_found history i last_operation)
                  (fun _ => ret false) st
            end
        end
    | JNotList v =>
        (* [if not history: return False]; then [reversed(history)] and
           [op.get], outside any [try] *)
        if negb (truthy v) then (Ok false, st)
        else
          match v with
          | NlString _ | NlObject _ =>
              (Raise "'str' object has no attribute 'get'", st)
          | NlNull | NlBool _ | NlInt _ | NlFloat _ _ =>
              (Raise ("'" ++ type_name v ++ "' object is not reversible"), st)
          end
    end.

(** ** What the claims speak of *)

(** The records [save_operation_history] reads before it appends. *)
Definition loaded_history (j : JournalFile) : list OperationRecord :=
  match j with
  | JLoaded history => history
  | JMissing | JMalformed | JNotList _ => []
  end.

(** [history.append] works: the journal file is missing or does not parse
    ([history = []]), or it holds a list. *)
Definition appendable (j : JournalFile) : Prop :=
  match j with
  | JNotList _ => False
  | JMissing | JMalformed | JLoaded _ => True
  end.

(** How the [try] block of a call ends when started in the world [w]:
    [Ok] when it runs to its end, [Raise e] when it raises [e]. *)
Definition try_outcome (c : BatchCall) (w : W) : Res unit :=
  match c with
  | SearchAndCopyFiles source target csv_file cut_mode conflict_mode =>
      fst (search_and_copy_files_try source target csv_file cut_mode
             (conflict_mode_or_default conflict_mode) (init_locals, w))
  | RenameFilesInPlace source csv_file conflict_mode =>
      fst (rename_files_in_place_try csv_file
             (conflict_mode_or_default conflict_mode) (init_locals, w))
  | ExtractEntireFolder source target csv_file cut_mode conflict_mode =>
      fst (extract_entire_folder_try source target csv_file cut_mode
             (conflict_mode_or_default conflict_mode) (init_locals, w))
  | CopyFilesFromCsvPaths csv_file cut_mode conflict_mode =>
      fst (copy_files_from_csv_paths_try csv_file cut_mode
             (conflict_mode_or_default conflict_mode) (init_locals, w))
  end.

(** The [operation_type] of a call. *)
Definition call_type (c : BatchCall) : string :=
  match c with
  | SearchAndCopyFiles _ _ _ cut_mode _
  | ExtractEntireFolder _ _ _ cut_mode _
  | CopyFilesFromCsvPaths _ cut_mode _ => if cut_mode then CUT else COPY
  | RenameFilesInPlace _ _ _ => RENAME
  end.

(** The world in which a call reads its manifest: the one it starts its
    [try] block in, after the target directory was made in the two drivers
    that make it. *)
Definition manifest_world (c : BatchCall) (w0 : W) : W :=
  match c with
  | SearchAndCopyFiles _ target _ _ _
  | ExtractEntireFolder _ target _ _ _ =>
      if os_path_exists target w0 then w0 else snd (os_makedirs target w0)
  | RenameFilesInPlace _ _ _
  | CopyFilesFromCsvPaths _ _ _ => w0
  end.

(** The rows of the manifest of a call, as it reads them (none when the
    manifest cannot be read). *)
Definition manifest_data (c : BatchCall) (w0 : W) : list ManifestEntry :=
  let csv_file :=
    match c with
    | SearchAndCopyFiles _ _ csv_file _ _
    | RenameFilesInPlace _ csv_file _
    | ExtractEntireFolder _ _ csv_file _ _
    | CopyFilesFromCsvPaths csv_file _ _ => csv_file
    end in
  match read_csv_with_encoding_detection csv_file (manifest_world c w0) with
  | inr data => data
  | inl _ => []
  end.

(** What [resolve_conflict] can answer for the destination [dest_path]:
    the destination itself, or one of its copy names. *)
Definition resolved_from (dest_path resolved_path : path) : Prop :=
  resolved_path = dest_path \/
  exists N : nat, resolved_path = copy_candidate dest_path N.

(** [source_path] and [target_path] belong to one transfer of the call
    [c] on the manifest [data]: a row of the manifest names the source (by
    its file or folder name, whatever the case of the letters, in the two
    drivers that search a tree; by its path in the other two), and the
    target is the destination that row asks for, as [resolve_conflict]
    resolved it. *)
Definition transferred (c : BatchCall) (data : list ManifestEntry)
    (source_path target_path : path) : Prop :=
  match c with
  | SearchAndCopyFiles _ target _ _ _
  | ExtractEntireFolder _ target _ _ _ =>
      exists (item : ManifestEntry) (root name : string),
        In item data /\
        str_lower name = str_lower (source_name item) /\
        source_path = OsPath.join root name /\
        resolved_from (OsPath.join target (target_name item)) target_path
  | RenameFilesInPlace _ _ _ =>
      exists item : ManifestEntry,
        In item data /\
        source_path = str_strip (source_name item) /\
        resolved_from (str_strip (target_name item)) target_path
  | CopyFilesFromCsvPaths _ _ _ =>
      exists item : ManifestEntry,
        In item data /\
        source_path = source_name item /\
        resolved_from
          (OsPath.join (target_name item) (OsPath.basename source_path))
          target_path
  end.

End Journal.

(** ** A platform in memory

    A small file system on which the functions above run: the files and the
    directories are the paths listed, a path in [locked] refuses what would
    write to it (a read-only place or a full disk), the manifests are the
    decoded rows of the CSV files, and [ticks] feeds the clock, [uuid4] and
    [os.urandom]. *)

Module MemFS.

Record world : Type := {
  files : list path;
  dirs : list path;
  locked : list path;
  manifests : list (path * list ManifestEntry);
  ticks : nat
}.

Definition with_files_dirs (fl dl : list path) (w : world) : world :=
  {| files := fl; dirs := dl; locked := locked w; manifests := manifests w;
     ticks := ticks w |}.

Definition tick (w : world) : world :=
  {| files := files w; dirs := dirs w; locked := locked w;
     manifests := manifests w; ticks := S (ticks w) |}.

Definition member (p : path) (l : list path) : bool := existsb (String.eqb p) l.

Definition without (p : path) (l : list path) : list path :=
  filter (fun q => negb (String.eqb q p)) l.

Definition insert_path (p : path) (l : list path) : list path :=
  if member p l then l else (l ++ [p])%list.

(** [q] lies below the directory [d] *)
Definition under (d q : path) : bool := String.prefix (d ++ "/") q.

(** [q], below [src], seen below [dst] *)
Definition rebase (src dst q : path) : path :=
  dst ++ String.substring (String.length src) (String.length q - String.length src) q.

Definition exists_ (p : path) (w : world) : bool :=
  member p (files w) || member p (dirs w).

Definition children (d : path) (l : list path) : list string :=
  map OsPath.basename (filter (fun q => String.eqb (OsPath.dirname q) d) l).

Definition listdir (p : path) (w : world) : Res (list string) :=
  if member p (dirs w) then Ok (children p (dirs w) ++ children p (files w))%list
  else Raise ("FileNotFoundError: " ++ p).

Definition walk (top : path) (w : world)
  : list (path * list string * list string) :=
  if member top (dirs w) then
    map (fun d => (d, children d (dirs w), children d (files w)))
      (top :: filter (under top) (dirs w))
  else [].

Definition read_csv (p : path) (w : world) : string + list ManifestEntry :=
  match find (fun entry => String.eqb (fst entry) p) (manifests w) with
  | Some (_, data) => inr data
  | None => inl ("cannot read " ++ p)
  end.

Definition makedirs (p : path) : M world unit :=
  fun w =>
    if String.eqb p "" then (Raise "FileNotFoundError: ''", w)
    else if member p (files w) then (Raise ("FileExistsError: " ++ p), w)
    else if member p (dirs w) then (Ok tt, w)
    else if member p (locked w) then (Raise ("PermissionError: " ++ p), w)
    else (Ok tt, with_files_dirs (files w) (dirs w ++ [p])%list w).

Definition remove (p : path) : M world unit :=
  fun w =>
    if negb (member p (files w)) then (Raise ("FileNotFoundError: " ++ p), w)
    else if member p (locked w) then (Raise ("PermissionError: " ++ p), w)
    else (Ok tt, with_files_dirs (without p (files w)) (dirs w) w).

(** where [copy2] and [move] put [src] when asked for [dst] *)
Definition real_dst (src dst : path) (w : world) : path :=
  if member dst (dirs w) then OsPath.join dst (OsPath.basename src) else dst.

Definition copy2 (src dst : path) : M world unit :=
  fun w =>
    let real := real_dst src dst w in
    if negb (member src (files w)) then (Raise ("FileNotFoundError: " ++ src), w)
    else if member real (locked w) then (Raise ("PermissionError: " ++ real), w)
    else (Ok tt, with_files_dirs (insert_path real (files w)) (dirs w) w).

Definition copytree (src dst : path) : M world unit :=
  fun w =>
    if negb (member src (dirs w)) then (Raise ("FileNotFoundError: " ++ src), w)
    else if exists_ dst w then (Raise ("FileExistsError: " ++ dst), w)
    else if member dst (locked w) then (Raise ("PermissionError: " ++ dst), w)
    else
      (Ok tt,
       with_files_dirs
         (files w ++ map (rebase src dst) (filter (under src) (files w)))%list
         (dirs w ++ dst :: map (rebase src dst) (filter (under src) (dirs w)))%list
         w).

Definition moved (src real q : path) : path :=
  if String.eqb q src then real
  else if under src q then rebase src real q
  else q.

Definition move (src dst : path) : M world unit :=
  fun w =>
    let real := real_dst src dst w in
    if negb (exists_ src w) then (Raise ("FileNotFoundError: " ++ src), w)
    else if member dst (dirs w) && exists_ real w
    then (Raise ("Error: Destination path already exists: " ++ real), w)
    else if member real (locked w) then (Raise ("PermissionError: " ++ real), w)
    else
      (Ok tt,
       with_files_dirs
         (map (moved src real) (without real (files w)))
         (map (moved src real) (dirs w))
         w).

Definition rmtree (p : path) : M world unit :=
  fun w =>
    if negb (member p (dirs w)) then (Raise ("NotADirectoryError: " ++ p), w)
    else if member p (locked w) then (Raise ("PermissionError: " ++ p), w)
    else
      (Ok tt,
       with_files_dirs
         (filter (fun q => negb (under p q)) (files w))
         (filter (fun q => negb (under p q)) (without p (dirs w)))
         w).

Definition urandom_hex (w : world) : string * world :=
  (PyStr.str (ticks w), tick w).

Definition uuid (w : world) : string * world :=
  ("uuid-" ++ PyStr.str (ticks w), tick w).

Definition now (w : world) : string * world :=
  ("T" ++ PyStr.str (ticks w), tick w).

(** [str.lower] and [str.strip] on ASCII text *)
Definition lower_char (c : ascii) : ascii :=
  let n := nat_of_ascii c in
  if Nat.leb 65 n && Nat.leb n 90 then ascii_of_nat (n + 32) else c.

Fixpoint lower (s : string) : string :=
  match s with
  | EmptyString => EmptyString
  | String c r => String (lower_char c) (lower r)
  end.

Fixpoint lstrip (s : string) : string :=
  match s with
  | String c r => if Ascii.eqb c " " then lstrip r else s
  | EmptyString => EmptyString
  end.

Definition strip (s : string) : string := PyStr.rstrip " " (lstrip s).

#[global] Instance platform : Platform world := {|
  os_path_exists := exists_;
  os_path_isfile := fun p w => member p (files w);
  os_path_isdir := fun p w => member p (dirs w);
  os_listdir := listdir;
  os_walk := walk;
  read_csv_with_encoding_detection := read_csv;
  os_makedirs := makedirs;
  os_remove := remove;
  shutil_copy2 := copy2;
  shutil_copytree := copytree;
  shutil_move := move;
  shutil_rmtree := rmtree;
  os_urandom_hex := urandom_hex;
  uuid4 := uuid;
  datetime_now := now;
  str_lower := lower;
  str_strip := strip;
  recursion_limit := 1000;
  probe_bound := fun _ w => S (List.length (files w) + List.length (dirs w))
|}.

End MemFS.

(** ** Alignment of the path lists *)

(** [backup] is a backup slot made for [source]:
    [.temp_backup/backup_<basename>_<suffix>]. *)
Definition backup_of (source backup : path) : Prop :=
  exists suffix : string,
    backup = OsPath.join temp_backup_dir
               ("backup_" ++ OsPath.basename source ++ "_" ++ suffix).

(** The backups recorded so far: one per source, in order, when the
    operation takes backups; none otherwise. *)
Definition backups_match {R} (takes_backups : bool) (l : Locals R) : Prop :=
  if takes_backups then Forall2 backup_of (source_paths l) (backup_paths l)
  else backup_paths l = [].

(** The number of target paths a driver will save: [copied_files], or
    the targets of [renamed_files] in [rename_files_in_place]. *)
Definition copied_count {R} (l : Locals R) : nat :=
  List.length (copied_files l).

Definition renamed_count {R} (l : Locals R) : nat :=
  List.length (renamed_files l).

(** The lists as they stand between two items: as many sources as
    targets. *)
Definition aligned {R} (takes_backups : bool) (targets : Locals R -> nat)
    (l : Locals R) : Prop :=
  List.length (source_paths l) = targets l /\ backups_match takes_backups l.

(** The lists after a backup was recorded and before its move is: one
    source more than targets. *)
Definition ahead {R} (takes_backups : bool) (targets : Locals R -> nat)
    (l : Locals R) : Prop :=
  List.length (source_paths l) = S (targets l) /\ backups_match takes_backups l.

(** The lists as they stand between two items, pair by pair: the target
    at an index is the one [rel] gives the source at that index. *)
Definition paired {R} (rel : path -> path -> Prop)
    (targets : Locals R -> list path) (l : Locals R) : Prop :=
  Forall2 rel (source_paths l) (targets l).

(** The same with one source more, the last. *)
Definition paired_ahead {R} (rel : path -> path -> Prop)
    (targets : Locals R -> list path) (l : Locals R) : Prop :=
  exists (sources : list path) (source : path),
    source_paths l = (sources ++ [source])%list /\
    Forall2 rel sources (targets l).

(** A triple on the locals of a driver: started in [s], the computation
    ends with [post] on the locals when it returns and with [epost] on
    them when it raises. *)
Definition lwp {L V A} (m : M (L * V) A) (post : A -> L -> Prop)
    (epost : L -> Prop) (s : L * V) : Prop :=
  match m s with
  | (Ok a, s') => post a (fst s')
  | (Raise _, s') => epost (fst s')
  end.

(** ** Sample worlds and journals

    A source folder with two files, a destination that already holds
    [a.txt], and a manifest that names [b.txt]. *)

Module Sample.
Import MemFS.

Definition manifest_b : list ManifestEntry :=
  [{| source_name := "b.txt"; target_name := "b.txt"; row_number := 1 |}].

Definition world0 : world :=
  {| files := ["src/a.txt"; "src/b.txt"; "dst/a.txt"; "m.csv"];
     dirs := ["src"; "dst"];
     locked := [];
     manifests := [("m.csv", manifest_b)];
     ticks := 0 |}.


(** The destination after [a.txt] and [b.txt] were copied into an empty
    one. *)
Definition world_copied : world :=
  {| files := ["src/a.txt"; "src/b.txt"; "dst/a.txt"; "dst/b.txt"];
     dirs := ["src"; "dst"];
     locked := [];
     manifests := [];
     ticks := 7 |}.

(** A copy record of one file. *)
Definition copy_record (id source target status : string) : OperationRecord :=
  {| rec_id := id;
     rec_type := COPY;
     rec_source_paths := [source];
     rec_target_paths := [target];
     rec_backup_paths := [];
     rec_timestamp := "T0";
     rec_status := status;
     rec_success := String.eqb status "completed";
     rec_error_message := None;
     rec_undo_timestamp := None |}.

Definition record_a : OperationRecord :=
  copy_record "id-a" "src/a.txt" "dst/a.txt" "completed".

Definition record_b : OperationRecord :=
  copy_record "id-b" "src/b.txt" "dst/b.txt" "completed".

Definition record_failed : OperationRecord :=
  copy_record "id-c" "src/c.txt" "dst/c.txt" "failed".

(** A completed copy whose target is no longer there. *)
Definition record_gone : OperationRecord :=
  copy_record "id-d" "src/d.txt" "dst/d.txt" "completed".

End Sample.

(** ** The manifest rows, the mode prompt, and the clean-ups *)

(** The keys of [CONFLICT_MODES], with their descriptions. *)
Definition CONFLICT_MODES : list (string * string) :=
  [("skip", "跳过冲突文件"); ("overwrite", "覆盖现有文件");
   ("copy", "创建副本"); ("merge", "合并文件夹内容")].

Section Maintenance.
Context {W : Type} `{Platform W}.

(** The entry [read_csv_with_encoding_detection] makes of the non-empty
    row number [i]; [row[1]] raises [IndexError] on a row of one field. *)
Definition read_csv_row (expected_columns i : nat) (row : list string)
  : Res ManifestEntry :=
  match row with
  | [] => Raise "list index out of range"
  | first :: _ =>
      if Nat.ltb (List.length row) expected_columns then
        let source_name := str_strip first in
        if Nat.eqb (List.length row) 1 then
          Ok {| source_name := source_name; target_name := source_name;
                row_number := i |}
        else
          match row !! 1 with
          | Some second =>
              Ok {| source_name := source_name; target_name := str_strip second;
                    row_number := i |}
          | None =>
              Ok {| source_name := source_name; target_name := source_name;
                    row_number := i |}
          end
      else
        match row !! 1 with
        | Some second =>
            Ok {| source_name := str_strip first; target_name := str_strip second;
                  row_number := i |}
        | None => Raise "list index out of range"
        end
  end.

(** [for i, row in enumerate(reader, i): ...]: empty rows are passed over,
    and the first exception ends the loop. *)
Fixpoint read_csv_rows_from (expected_columns i : nat) (rows : list (list string))
  : Res (list ManifestEntry) :=
  match rows with
  | [] => Ok []
  | row :: rest =>
      match row with
      | [] => read_csv_rows_from expected_columns (S i) rest
      | _ :: _ =>
          match read_csv_row expected_columns i row with
          | Raise e => Raise e
          | Ok entry =>
              match read_csv_rows_from expected_columns (S i) rest with
              | Raise e => Raise e
              | Ok entries => Ok (entry :: entries)
              end
          end
      end
  end.

(** What [read_csv_with_encoding_detection] returns for the rows the
    reader yields under the encoding that decodes the file: the data, or
    the error of the [except Exception] clause. *)
Definition read_csv_rows (expected_columns : nat) (rows : list (list string))
  : string + list ManifestEntry :=
  match read_csv_rows_from expected_columns 1 rows with
  | Ok data => inr data
  | Raise e => inl ("读取文件时发生错误: " ++ e)
  end.

(** [select_conflict_mode], on the lines left on the standard input:
    [input] raises [EOFError] when none is left. *)
Fixpoint select_conflict_mode (lines : list string) : Res string * list string :=
  match lines with
  | [] => (Raise "EOF when reading a line", [])
  | line :: rest =>
      let mode := str_lower (str_strip line) in
      if String.eqb mode "" then (Ok DEFAULT_CONFLICT_MODE, rest)
      else if existsb (String.eqb mode) (map fst CONFLICT_MODES)
      then (Ok mode, rest)
      else select_conflict_mode rest
  end.

(** [history[-max_entries:]] for [max_entries >= 0] *)
Definition last_entries {A} (max_entries : nat) (history : list A) : list A :=
  match max_entries with
  | 0 => history
  | S _ => skipn (List.length history - max_entries) history
  end.

(** [cleanup_old_history]: a journal that does not parse is left alone
    (the [except] clause only prints); so is a value [len] or the slice
    raises on, but a [str] is cut like a list. *)
Definition cleanup_old_history (max_entries : nat) : M (State W) unit :=
  fun st =>
    match journal st with
    | JMissing => (Ok tt, st)
    | JMalformed => (Ok tt, st)
    | JLoaded history =>
        if Nat.ltb max_entries (List.length history) then
          (Ok tt,
           {| fs := fs st;
              journal := JLoaded (last_entries max_entries history) |})
        else (Ok tt, st)
    | JNotList (NlString s) =>
        if Nat.ltb max_entries (PyStr.code_points s) then
          (Ok tt,
           {| fs := fs st;
              journal :=
                JNotList (NlString (PyStr.last_code_points max_entries s)) |})
        else (Ok tt, st)
    | JNotList _ => (Ok tt, st)
    end.

(** [recent_backups] of [cleanup_backup_files]: the backup paths of the
    newest completed record, when the journal can be read (on a value that
    is not a list the scan adds nothing, or raises into [except: pass]). *)
Definition recent_backups (j : JournalFile) : list path :=
  match j with
  | JLoaded history =>
      match last_completed history with
      | Some (_, op) => rec_backup_paths op
      | None => []
      end
  | JMissing | JMalformed | JNotList _ => []
  end.

(** One turn of the loop over [os.listdir(temp_backup_dir)]. *)
Definition cleanup_item (recent : list path) (item : string) : M W unit :=
  let item_path := OsPath.join temp_backup_dir item in
  if negb (mem item_path recent) then delete_path item_path else ret tt.

(** [cleanup_backup_files] *)
Definition cleanup_backup_files (keep_recent : bool) : M (State W) unit :=
  fun st =>
    if negb (os_path_exists temp_backup_dir (fs st)) then (Ok tt, st)
    else
      let '(_, w') :=
        try_catch
          (if keep_recent then
             let recent := recent_backups (journal st) in
             items <- listdir temp_backup_dir ;;
             for_each items (cleanup_item recent)
           else shutil_rmtree temp_backup_dir)
          (fun _ => ret tt) (fs st) in
      (Ok tt, {| fs := w'; journal := journal st |}).

(** What [found_folders] holds during the walk. *)
Definition folders_found (target : path) (folder_targets : list (string * string))
    (seen : path -> string -> Prop)
    (found : list (path * (string * string * path))) : Prop :=
  List.NoDup (map fst found) /\
  (forall source_folder folder_name target_name dest_path,
     In (source_folder, (folder_name, target_name, dest_path)) found ->
     exists root dir_name,
       seen root dir_name /\
       source_folder = OsPath.join root dir_name /\
       match_folder folder_targets dir_name = Some (folder_name, target_name) /\
       dest_path = OsPath.join target target_name) /\
  (forall root dir_name,
     seen root dir_name ->
     match_folder folder_targets dir_name <> None ->
     In (OsPath.join root dir_name) (map fst found)).

End Maintenance.

(** ** More sample worlds and records *)

Module Cases.
Import MemFS.

(** A backup area with the backups of two cuts, the second of which moved
    [b.txt] to [dst]. *)
Definition world_backups : world :=
  {| files := [".temp_backup/backup_a.txt_0"; ".temp_backup/backup_b.txt_1";
               "dst/b.txt"];
     dirs := [".temp_backup"; "src"; "dst"];
     locked := [];
     manifests := [];
     ticks := 2 |}.

(** The record of the cut of [b.txt]. *)
Definition cut_record : OperationRecord :=
  {| rec_id := "id-cut";
     rec_type := CUT;
     rec_source_paths := ["src/b.txt"];
     rec_target_paths := ["dst/b.txt"];
     rec_backup_paths := [".temp_backup/backup_b.txt_1"];
     rec_timestamp := "T1";
     rec_status := "completed";
     rec_success := true;
     rec_error_message := None;
     rec_undo_timestamp := None |}.

(** A completed record of the given type that names no path. *)
Definition empty_record (operation_type : string) : OperationRecord :=
  {| rec_id := "id-e";
     rec_type := operation_type;
     rec_source_paths := [];
     rec_target_paths := [];
     rec_backup_paths := [];
     rec_timestamp := "T0";
     rec_status := "completed";
     rec_success := true;
     rec_error_message := None;
     rec_undo_timestamp := None |}.

(** A source folder that does not hold the [b.txt] the manifest names. *)
Definition world_no_match : world :=
  {| files := ["src/a.txt"; "m.csv"];
     dirs := ["src"; "dst"];
     locked := [];
     manifests := [("m.csv", Sample.manifest_b)];
     ticks := 0 |}.

(** A manifest without rows. *)
Definition world_empty_manifest : world :=
  {| files := ["e.csv"];
     dirs := [];
     locked := [];
     manifests := [("e.csv", [])];
     ticks := 0 |}.

(** Two rows that give [a.txt] two different new names. *)
Definition manifest_twice : list ManifestEntry :=
  [{| source_name := "src/a.txt"; target_name := "src/x.txt"; row_number := 1 |};
   {| source_name := "src/a.txt"; target_name := "src/y.txt"; row_number := 2 |}].

End Cases.

(** * Properties *)

(** ** The path functions on some paths *)

Example basename_ex : OsPath.basename "out/dir/a.txt" = "a.txt".
Proof. reflexivity. Qed.

Example dirname_ex :
  OsPath.dirname "out//dir//a.txt" = "out//dir" /\ OsPath.dirname "/a" = "/" /\
  OsPath.dirname "a" = "" /\ OsPath.dirname "//a" = "//".
Proof. repeat split; reflexivity. Qed.

Example splitext_ex :
  OsPath.splitext "archive.tar.gz" = ("archive.tar", ".gz") /\
  OsPath.splitext ".bashrc" = (".bashrc", "") /\
  OsPath.splitext "..x" = ("..x", "") /\
  OsPath.splitext "a.d/b" = ("a.d/b", "") /\
  OsPath.splitext "a.d/b.c" = ("a.d/b", ".c").
Proof. repeat split; reflexivity. Qed.

Example join_ex :
  OsPath.join "a" "b" = "a/b" /\ OsPath.join "a/" "b" = "a/b" /\
  OsPath.join "" "b" = "b" /\ OsPath.join "a" "/b" = "/b".
Proof. repeat split; reflexivity. Qed.

(** ** Strings and paths *)

Module PyStrFacts.
Import PyStr.

Lemma append_assoc (a b c : string) : (a ++ b) ++ c = a ++ (b ++ c).
Proof. induction a as [|x a IH]; simpl; congruence. Qed.

Lemma append_empty_r (a : string) : a ++ "" = a.
Proof. induction a as [|x a IH]; simpl; congruence. Qed.

Lemma length_append (a b : string) :
  String.length (a ++ b) = String.length a + String.length b.
Proof. induction a as [|x a IH]; simpl; congruence. Qed.

Lemma append_inv_head (a b c : string) : a ++ b = a ++ c -> b = c.
Proof.
  induction a as [|x a IH]; simpl; intros Heq; [assumption|].
  injection Heq as Heq. auto.
Qed.

Lemma append_inv_tail (a b c : string) : a ++ c = b ++ c -> a = b.
Proof.
  revert b. induction a as [|x a IH]; intros [|y b] Heq; simpl in Heq.
  - reflexivity.
  - apply (f_equal String.length) in Heq. simpl in Heq.
    rewrite length_append in Heq. lia.
  - apply (f_equal String.length) in Heq. simpl in Heq.
    rewrite length_append in Heq. lia.
  - injection Heq as -> Heq. f_equal. auto.
Qed.

Lemma contains_append (c : ascii) (a b : string) :
  contains c (a ++ b) = contains c a || contains c b.
Proof.
  induction a as [|x a IH]; simpl; [reflexivity|].
  rewrite IH. apply orb_assoc.
Qed.

Lemma startswith_free (c : ascii) (s : string) :
  contains c s = false -> startswith c s = false.
Proof.
  destruct s as [|x s]; simpl; [reflexivity|].
  intros Hc. apply orb_false_iff in Hc. tauto.
Qed.

Lemma all_char_append (c : ascii) (a b : string) :
  all_char c (a ++ b) = all_char c a && all_char c b.
Proof.
  induction a as [|x a IH]; simpl; [reflexivity|].
  rewrite IH. apply andb_assoc.
Qed.

Lemma endswith_cons (c x : ascii) (s : string) :
  s <> "" -> endswith c (String x s) = endswith c s.
Proof. destruct s; [congruence | reflexivity]. Qed.

Lemma endswith_append (c : ascii) (a b : string) :
  b <> "" -> endswith c (a ++ b) = endswith c b.
Proof.
  intros Hb. induction a as [|x a IH]; simpl; [reflexivity|].
  destruct (a ++ b) eqn:E.
  - destruct a; simpl in E; [congruence | discriminate].
  - rewrite <- IH. reflexivity.
Qed.

Lemma all_char_endswith (c : ascii) (s : string) :
  s <> "" -> all_char c s = true -> endswith c s = true.
Proof.
  induction s as [|x s IH]; [congruence|]. intros _ Hall. simpl in Hall.
  apply andb_true_iff in Hall as [Hx Hs].
  destruct s as [|y s]; [exact Hx|].
  rewrite endswith_cons by discriminate. apply IH; [discriminate | exact Hs].
Qed.

(** The two parts of a cut make up the string, the tail holds no [c], and
    the head is empty or ends with [c]. *)
Lemma cut_after_last_spec (c : ascii) (p : string) :
  fst (cut_after_last c p) ++ snd (cut_after_last c p) = p /\
  contains c (snd (cut_after_last c p)) = false /\
  (fst (cut_after_last c p) = "" \/ endswith c (fst (cut_after_last c p)) = true).
Proof.
  induction p as [|x p IH]; simpl; [auto|].
  destruct (cut_after_last c p) as [h t]. cbn [fst snd] in IH.
  destruct IH as (Happ & Hfree & Hhead).
  destruct h as [|y h].
  - simpl in Happ. subst t. destruct (Ascii.eqb x c) eqn:Ex; simpl.
    + auto.
    + rewrite Ex, Hfree. auto.
  - cbn [fst snd]. split; [simpl; f_equal; exact Happ|]. split; [exact Hfree|].
    right. destruct Hhead as [Hhead|Hhead]; [discriminate|].
    rewrite endswith_cons by discriminate. exact Hhead.
Qed.

Lemma cut_after_last_free (c : ascii) (n : string) :
  contains c n = false -> cut_after_last c n = ("", n).
Proof.
  induction n as [|x n IH]; simpl; [reflexivity|].
  intros Hc. apply orb_false_iff in Hc as [Hx Hn].
  rewrite (IH Hn), Hx. reflexivity.
Qed.

Lemma cut_after_last_append (c : ascii) (h n : string) :
  endswith c h = true -> contains c n = false ->
  cut_after_last c (h ++ n) = (h, n).
Proof.
  intros Hend Hfree. induction h as [|x h IH]; [discriminate|].
  destruct h as [|y h].
  - simpl in Hend. simpl. rewrite (cut_after_last_free c n Hfree), Hend.
    reflexivity.
  - rewrite endswith_cons in Hend by discriminate.
    change (String x (String y h) ++ n) with (String x (String y h ++ n)).
    cbn [cut_after_last]. rewrite (IH Hend). reflexivity.
Qed.

Lemma cut_before_last_app (c : ascii) (t a b : string) :
  cut_before_last c t = Some (a, b) -> a ++ b = t.
Proof.
  revert a b. induction t as [|x t IH]; simpl; intros a b Hcut; [discriminate|].
  destruct (cut_before_last c t) as [[a' b']|].
  - injection Hcut as <- <-. simpl. f_equal. auto.
  - destruct (Ascii.eqb x c); [|discriminate].
    injection Hcut as <- <-. reflexivity.
Qed.

Lemma rstrip_not_endswith (c : ascii) (s : string) :
  endswith c (rstrip c s) = false.
Proof.
  induction s as [|x s IH]; simpl; [reflexivity|].
  destruct (rstrip c s) as [|y r] eqn:E.
  - destruct (Ascii.eqb x c) eqn:Ex; simpl; [reflexivity | exact Ex].
  - rewrite endswith_cons by discriminate. exact IH.
Qed.

Lemma rstrip_fixed (c : ascii) (s : string) :
  endswith c s = false -> rstrip c s = s.
Proof.
  induction s as [|x s IH]; simpl; [reflexivity|].
  destruct s as [|y s].
  - intros ->. reflexivity.
  - intros Hend. rewrite (IH Hend). reflexivity.
Qed.

Lemma rstrip_snoc (c : ascii) (s : string) :
  rstrip c (s ++ String c "") = rstrip c s.
Proof.
  induction s as [|x s IH]; simpl.
  - rewrite Ascii.eqb_refl. reflexivity.
  - rewrite IH. reflexivity.
Qed.

Lemma not_endswith_not_all (c : ascii) (s : string) :
  s <> "" -> endswith c s = false -> all_char c s = false.
Proof.
  intros Hs Hend. destruct (all_char c s) eqn:Hall; [|reflexivity].
  rewrite (all_char_endswith c s Hs Hall) in Hend. discriminate.
Qed.

Lemma string_of_uint_free (d : Decimal.uint) :
  contains "/" (NilEmpty.string_of_uint d) = false.
Proof. induction d; simpl; auto. Qed.

Lemma str_free (n : nat) : contains "/" (str n) = false.
Proof. apply string_of_uint_free. Qed.

Lemma str_inj (a b : nat) : str a = str b -> a = b.
Proof.
  unfold str. intros Heq.
  apply (f_equal NilEmpty.uint_of_string) in Heq.
  rewrite !NilEmpty.usu in Heq. injection Heq as Heq.
  apply (f_equal Nat.of_uint) in Heq.
  rewrite !Unsigned.of_to in Heq. exact Heq.
Qed.

End PyStrFacts.

Module OsPathFacts.
Import PyStr PyStrFacts OsPath.

Lemma basename_free (p : string) : contains sep (basename p) = false.
Proof. apply cut_after_last_spec. Qed.

(** [root + ext == p], as the documentation of [splitext] says. *)
Lemma splitext_app (f name ext : string) :
  splitext f = (name, ext) -> name ++ ext = f.
Proof.
  unfold splitext. pose proof (cut_after_last_spec sep f) as (Happ & _ & _).
  destruct (cut_after_last sep f) as [h t]. cbn [fst snd] in Happ.
  destruct (cut_before_last extsep t) as [[a b]|] eqn:Hcut.
  - apply cut_before_last_app in Hcut.
    destruct (all_char extsep a); intros [= <- <-].
    + apply append_empty_r.
    + rewrite append_assoc, Hcut. exact Happ.
  - intros [= <- <-]. apply append_empty_r.
Qed.

(** A directory name that ends with a slash is made of slashes. *)
Lemma dirname_shape (p : string) :
  endswith sep (dirname p) = true -> all_char sep (dirname p) = true.
Proof.
  unfold dirname. destruct (cut_after_last sep p) as [h t]. cbn [fst].
  destruct (negb (h =? "")) eqn:Hne; cbn [andb].
  - destruct (all_char sep h) eqn:Hall; cbn [negb]; [auto|].
    rewrite rstrip_not_endswith. discriminate.
  - apply negb_false_iff, String.eqb_eq in Hne. subst h. discriminate.
Qed.

Lemma join_free (d n : string) :
  contains sep n = false ->
  join d n = (if (d =? "") || endswith sep d then d else d ++ String sep "") ++ n.
Proof.
  intros Hfree. unfold join. rewrite (startswith_free _ _ Hfree).
  destruct ((d =? "") || endswith sep d); [reflexivity|].
  rewrite append_assoc. reflexivity.
Qed.

Lemma dirname_join (d n : string) :
  (endswith sep d = true -> all_char sep d = true) ->
  contains sep n = false ->
  dirname (join d n) = d.
Proof.
  intros Hshape Hfree. rewrite (join_free d n Hfree).
  destruct (d =? "") eqn:Hd; cbn [orb].
  - apply String.eqb_eq in Hd. subst d. cbn [append]. unfold dirname.
    rewrite (cut_after_last_free sep n Hfree). reflexivity.
  - apply String.eqb_neq in Hd. destruct (endswith sep d) eqn:Hend.
    + unfold dirname. rewrite (cut_after_last_append sep d n Hend Hfree).
      cbn [fst]. rewrite (Hshape eq_refl). cbn [negb andb].
      rewrite andb_false_r. reflexivity.
    + unfold dirname.
      rewrite (cut_after_last_append sep (d ++ String sep "") n);
        [|rewrite endswith_append by discriminate; reflexivity | exact Hfree].
      cbn [fst].
      assert (Hne : (d ++ String sep "" =? "") = false).
      { apply String.eqb_neq. destruct d; discriminate. }
      rewrite Hne, all_char_append, (not_endswith_not_all sep d Hd Hend).
      cbn [negb andb]. rewrite rstrip_snoc. apply rstrip_fixed, Hend.
Qed.

End OsPathFacts.

(** ** Copy names *)

Module CopyNameFacts.
Import PyStr PyStrFacts OsPath OsPathFacts.

(** The name of a copy holds no slash. *)
Lemma new_name_free (f name ext : string) (k : nat) :
  contains sep f = false -> splitext f = (name, ext) ->
  contains sep (name ++ "_副本" ++ str k ++ ext) = false.
Proof.
  intros Hfree Hsplit. apply splitext_app in Hsplit. subst f.
  rewrite contains_append in Hfree. apply orb_false_iff in Hfree as [Hn He].
  rewrite !contains_append, Hn, He. unfold sep. rewrite str_free. reflexivity.
Qed.

Lemma copy_candidate_unfold (p : path) (k : nat) :
  copy_candidate p k =
  (if (dirname p =? "") || endswith sep (dirname p)
   then dirname p else dirname p ++ String sep "")
  ++ fst (splitext (basename p)) ++ "_副本" ++ str k
  ++ snd (splitext (basename p)).
Proof.
  unfold copy_candidate. destruct (splitext (basename p)) as [name ext] eqn:Hs.
  cbn [fst snd]. apply join_free.
  exact (new_name_free _ _ _ k (basename_free p) Hs).
Qed.

(** Different counters give different copy names. *)
Lemma copy_candidate_inj (p : path) (a b : nat) :
  copy_candidate p a = copy_candidate p b -> a = b.
Proof.
  rewrite !copy_candidate_unfold. intros Heq.
  do 3 apply append_inv_head in Heq.
  apply append_inv_tail in Heq. apply str_inj, Heq.
Qed.

(** A copy name lies in the directory of the original. *)
Lemma copy_candidate_sibling (p : path) (k : nat) :
  dirname (copy_candidate p k) = dirname p.
Proof.
  unfold copy_candidate. destruct (splitext (basename p)) as [name ext] eqn:Hs.
  apply dirname_join; [apply dirname_shape|].
  exact (new_name_free _ _ _ k (basename_free p) Hs).
Qed.

End CopyNameFacts.

(** ** The copy-name probe and the conflict resolver *)

Ltac unfold_monad :=
  unfold bind, ret, raise, try_catch, try_finally, get, modify,
    path_exists, path_isfile, path_isdir, listdir in *.

Section ResolverFacts.
Context {W : Type} {P : Platform W}.

(** The least number from [c] on at which [free] holds, below a number at
    which it does. *)
Lemma first_free (free : nat -> bool) (k c : nat) :
  c <= k -> free k = true ->
  exists N, c <= N <= k /\ free N = true /\
            forall j, c <= j < N -> free j = false.
Proof.
  intros Hck Hk. remember (k - c) as d eqn:Hd. revert c Hck Hd.
  induction d as [|d IH]; intros c Hck Hd.
  - assert (c = k) as -> by lia. exists k. repeat split; [lia | lia | exact Hk | ].
    intros j Hj. lia.
  - destruct (free c) eqn:Hc.
    + exists c. repeat split; [lia | lia | exact Hc |]. intros j Hj. lia.
    + destruct (IH (S c)) as (N & HN & HfN & Hmin); [lia | lia |].
      exists N. repeat split; [lia | lia | exact HfN |].
      intros j Hj. destruct (Nat.eq_dec j c) as [->|Hne]; [exact Hc|].
      apply Hmin. lia.
Qed.

Lemma generate_copy_name_loop_frame (p : path) (fuel counter : nat) (w : W) :
  snd (generate_copy_name_loop p fuel counter w) = w.
Proof.
  revert counter. induction fuel as [|fuel IH]; intros counter; simpl;
    [reflexivity|].
  unfold_monad. destruct (os_path_exists (copy_candidate p counter) w);
    simpl; [apply IH | reflexivity].
Qed.

(** The loop stops at the first free copy name, when its fuel reaches it. *)
Lemma generate_copy_name_loop_found (p : path) (fuel counter N : nat) (w : W) :
  counter <= N < counter + fuel ->
  os_path_exists (copy_candidate p N) w = false ->
  (forall j, counter <= j < N -> os_path_exists (copy_candidate p j) w = true) ->
  generate_copy_name_loop p fuel counter w = (Ok (Some (copy_candidate p N)), w).
Proof.
  revert counter. induction fuel as [|fuel IH]; intros counter HN Hfree Hmin;
    [lia|].
  simpl. unfold_monad.
  destruct (Nat.eq_dec counter N) as [->|Hne].
  - rewrite Hfree. reflexivity.
  - rewrite (Hmin counter) by lia. simpl.
    apply IH; [lia | exact Hfree |]. intros j Hj. apply Hmin. lia.
Qed.

Lemma generate_copy_name_frame (p : path) (w : W) :
  snd (generate_copy_name p w) = w.
Proof.
  unfold generate_copy_name.
  pose proof (generate_copy_name_loop_frame p (probe_bound p w) 1 w) as Hf.
  destruct (generate_copy_name_loop p (probe_bound p w) 1 w) as [[[q|]|e] w'];
    exact Hf.
Qed.

(** [resolve_conflict], branch by branch. *)
Lemma resolve_conflict_unfold (source_path target_path : path)
    (conflict_mode : string) (is_folder : bool) (w : W) :
  resolve_conflict source_path target_path conflict_mode is_folder w =
  if os_path_exists target_path w then
    if conflict_mode =? "skip" then (Ok None, w)
    else if conflict_mode =? "overwrite" then (Ok (Some target_path), w)
    else if (conflict_mode =? "copy")
            || negb ((conflict_mode =? "merge") && is_folder)
    then
      match generate_copy_name target_path w with
      | (Ok new_path, w') => (Ok (Some new_path), w')
      | (Raise e, w') => (Raise e, w')
      end
    else (Ok (Some target_path), w)
  else (Ok (Some target_path), w).
Proof.
  unfold resolve_conflict. unfold_monad.
  destruct (os_path_exists target_path w); cbn; [|reflexivity].
  destruct (conflict_mode =? "skip"); [reflexivity|].
  destruct (conflict_mode =? "overwrite"); [reflexivity|].
  destruct (conflict_mode =? "copy"); cbn; [reflexivity|].
  destruct ((conflict_mode =? "merge") && is_folder); reflexivity.
Qed.

Lemma resolve_conflict_frame (source_path target_path : path)
    (conflict_mode : string) (is_folder : bool) (w : W) :
  snd (resolve_conflict source_path target_path conflict_mode is_folder w) = w.
Proof.
  rewrite resolve_conflict_unfold.
  pose proof (generate_copy_name_frame target_path w) as Hf.
  destruct (generate_copy_name target_path w) as [[q|e] w'];
    repeat (match goal with |- context [if ?b then _ else _] => destruct b end;
            try reflexivity); exact Hf.
Qed.

Context {FP : FiniteProbe W}.

(** On a platform with finite directories [generate_copy_name] returns the
    first free copy name. *)
Lemma generate_copy_name_total (p : path) (w : W) :
  exists N, 1 <= N /\
    generate_copy_name p w = (Ok (copy_candidate p N), w) /\
    os_path_exists (copy_candidate p N) w = false /\
    forall k, 1 <= k < N -> os_path_exists (copy_candidate p k) w = true.
Proof.
  destruct (probe_bound_free p w) as (k & Hk & Hfree).
  destruct (first_free (fun j => negb (os_path_exists (copy_candidate p j) w))
              k 1) as (N & HN & HfN & Hmin); [lia | rewrite Hfree; reflexivity |].
  apply negb_true_iff in HfN.
  assert (Hmin' : forall j, 1 <= j < N ->
                    os_path_exists (copy_candidate p j) w = true).
  { intros j Hj. apply negb_false_iff, Hmin, Hj. }
  exists N. repeat split; [lia | | exact HfN | exact Hmin'].
  unfold generate_copy_name.
  rewrite (generate_copy_name_loop_found p (probe_bound p w) 1 N w);
    [reflexivity | lia | exact HfN | exact Hmin'].
Qed.

End ResolverFacts.

(** ** The platform in memory has finite directories *)

Module MemFSFacts.
Import MemFS.

Lemma member_In (p : path) (l : list path) : member p l = true <-> In p l.
Proof.
  unfold member. rewrite existsb_exists. split.
  - intros (q & Hq & Heq). apply String.eqb_eq in Heq. subst q. exact Hq.
  - intros Hp. exists p. split; [exact Hp | apply String.eqb_refl].
Qed.

Lemma exists_In (p : path) (w : world) :
  exists_ p w = true -> In p (files w ++ dirs w)%list.
Proof.
  unfold exists_. intros Hex. apply orb_true_iff in Hex. apply in_or_app.
  destruct Hex as [Hex|Hex]; apply member_In in Hex; auto.
Qed.

Lemma forallb_false {A} (f : A -> bool) (l : list A) :
  forallb f l = false -> exists x, In x l /\ f x = false.
Proof.
  induction l as [|x l IH]; simpl; [discriminate|].
  destruct (f x) eqn:Hx; simpl.
  - intros Hl. destruct (IH Hl) as (y & Hy & Hfy). eauto.
  - intros _. eauto.
Qed.

(** Among more copy names than there are paths, one is free. *)
Lemma finite_probe : FiniteProbe world.
Proof.
  intros p w. cbn [probe_bound platform os_path_exists].
  set (n := List.length (files w) + List.length (dirs w)).
  destruct (forallb (fun k => exists_ (copy_candidate p k) w) (seq 1 (S n)))
    eqn:Hall.
  - exfalso. rewrite forallb_forall in Hall.
    assert (Hincl : incl (map (copy_candidate p) (seq 1 (S n)))
                      (files w ++ dirs w)%list).
    { intros q Hq. apply in_map_iff in Hq as (k & <- & Hk).
      apply exists_In, Hall, Hk. }
    apply NoDup_incl_length in Hincl.
    + rewrite length_map, length_seq, length_app in Hincl. unfold n in Hincl.
      lia.
    + apply Finite.Injective_map_NoDup; [|apply seq_NoDup].
      intros a b. apply CopyNameFacts.copy_candidate_inj.
  - apply forallb_false in Hall as (k & Hk & Hfree).
    apply in_seq in Hk. exists k. split; [lia | exact Hfree].
Qed.

End MemFSFacts.

(** ** C1: the copy policy *)

(** C1, as the code has it.  When the target exists, [resolve_conflict]
    under ["copy"] returns [join(dirname, stem + "_副本" + str(N) + ext)]
    for the stem and extension [os.path.splitext] gives of the target's
    base name, for a file and for a folder alike; the path lies in the
    target's directory; [N >= 1] is the least number whose copy name does
    not exist; nothing in the world changes.  Resolving again once that
    path has been created returns the next free copy name: the second when
    the first was returned and the second is free. *)
Theorem resolve_conflict_copy_first_free {W : Type} {P : Platform W}
    {FP : FiniteProbe W} (source_path target_path : path) (is_folder : bool)
    (w : W) :
  os_path_exists target_path w = true ->
  exists N : nat,
    1 <= N /\
    resolve_conflict source_path target_path "copy" is_folder w
      = (Ok (Some (copy_candidate target_path N)), w) /\
    (forall stem ext : string,
       OsPath.splitext (OsPath.basename target_path) = (stem, ext) ->
       copy_candidate target_path N
         = OsPath.join (OsPath.dirname target_path)
             (stem ++ "_副本" ++ PyStr.str N ++ ext)) /\
    OsPath.dirname (copy_candidate target_path N) = OsPath.dirname target_path /\
    os_path_exists (copy_candidate target_path N) w = false /\
    (forall k, 1 <= k < N ->
       os_path_exists (copy_candidate target_path k) w = true) /\
    (forall w' : W,
       (forall q : path,
          os_path_exists q w'
            = String.eqb q (copy_candidate target_path N) || os_path_exists q w) ->
       exists N' : nat,
         N < N' /\
         resolve_conflict source_path target_path "copy" is_folder w'
           = (Ok (Some (copy_candidate target_path N')), w') /\
         os_path_exists (copy_candidate target_path N') w = false /\
         (forall k, N < k < N' ->
            os_path_exists (copy_candidate target_path k) w = true) /\
         (N = 1 -> os_path_exists (copy_candidate target_path 2) w = false ->
          N' = 2)).
Proof.
  intros Htarget.
  assert (Hresolve : forall w0 N0,
            os_path_exists target_path w0 = true ->
            generate_copy_name target_path w0
              = (Ok (copy_candidate target_path N0), w0) ->
            resolve_conflict source_path target_path "copy" is_folder w0
              = (Ok (Some (copy_candidate target_path N0)), w0)).
  { intros w0 N0 Hex Hgen. rewrite resolve_conflict_unfold, Hex, Hgen.
    reflexivity. }
  destruct (generate_copy_name_total target_path w)
    as (N & HN & Hgen & Hfree & Hmin).
  exists N. split; [exact HN|]. split; [apply Hresolve; assumption|].
  split.
  { intros stem ext Hsplit. unfold copy_candidate. rewrite Hsplit.
    reflexivity. }
  split; [apply CopyNameFacts.copy_candidate_sibling|].
  split; [exact Hfree|]. split; [exact Hmin|].
  intros w' Hw'.
  destruct (generate_copy_name_total target_path w')
    as (N' & HN' & Hgen' & Hfree' & Hmin').
  assert (Hsame : forall k, k <> N ->
            os_path_exists (copy_candidate target_path k) w'
              = os_path_exists (copy_candidate target_path k) w).
  { intros k Hk. rewrite Hw'.
    replace (copy_candidate target_path k =? copy_candidate target_path N)
      with false; [reflexivity|].
    symmetry. apply String.eqb_neq. intros Heq.
    apply CopyNameFacts.copy_candidate_inj in Heq. contradiction. }
  assert (Hnew : os_path_exists (copy_candidate target_path N) w' = true).
  { rewrite Hw', String.eqb_refl. reflexivity. }
  assert (HNN' : N < N').
  { destruct (Nat.lt_trichotomy N N') as [Hlt|[Heq|Hgt]]; [exact Hlt | |].
    - subst N'. congruence.
    - pose proof (Hmin N' ltac:(lia)) as Hold.
      rewrite <- (Hsame N') in Hold by lia. congruence. }
  exists N'. split; [exact HNN'|]. split.
  { apply Hresolve; [|exact Hgen']. rewrite Hw', Htarget. apply orb_true_r. }
  split; [rewrite <- Hsame by lia; exact Hfree'|]. split.
  { intros k Hk. rewrite <- Hsame by lia. apply Hmin'. lia. }
  intros -> Hsecond.
  destruct (Nat.eq_dec N' 2) as [Heq|Hne]; [exact Heq|].
  rewrite <- (Hsame 2) in Hsecond by lia.
  rewrite (Hmin' 2) in Hsecond by lia. discriminate.
Qed.

(** The theorem at a target [dst/a.txt] that exists. *)
Lemma resolve_conflict_copy_first_free_witness :
  exists N : nat,
    1 <= N /\
    resolve_conflict "src/a.txt" "dst/a.txt" "copy" false
      {| MemFS.files := ["src/a.txt"; "dst/a.txt"]; MemFS.dirs := ["src"; "dst"];
         MemFS.locked := []; MemFS.manifests := []; MemFS.ticks := 0 |}
    = (Ok (Some (copy_candidate "dst/a.txt" N)),
       {| MemFS.files := ["src/a.txt"; "dst/a.txt"]; MemFS.dirs := ["src"; "dst"];
          MemFS.locked := []; MemFS.manifests := []; MemFS.ticks := 0 |}).
Proof.
  destruct (@resolve_conflict_copy_first_free MemFS.world MemFS.platform
              MemFSFacts.finite_probe "src/a.txt" "dst/a.txt" false
              {| MemFS.files := ["src/a.txt"; "dst/a.txt"];
                 MemFS.dirs := ["src"; "dst"]; MemFS.locked := [];
                 MemFS.manifests := []; MemFS.ticks := 0 |} eq_refl)
    as (N & HN & Hres & _).
  exists N. split; [exact HN | exact Hres].
Defined.

(** C1 as stated fails: the copy marker is ["_副本"], and a folder name is
    split at its last dot like a file name.  For the folder [out/v1.2] the
    resolver returns [out/v1_副本1.2], which is not [out/v1.2] followed by a
    marker and a number; for the file [out/a.txt] it returns
    [out/a_副本1.txt]. *)
Lemma copy_name_of_dotted_folder :
  let w := {| MemFS.files := ["out/a.txt"]; MemFS.dirs := ["out"; "out/v1.2"];
              MemFS.locked := []; MemFS.manifests := []; MemFS.ticks := 0 |} in
  fst (resolve_conflict "src/v1.2" "out/v1.2" "copy" true w)
    = Ok (Some "out/v1_副本1.2") /\
  (forall (marker : string) (n : nat),
     "out/v1_副本1.2" <> "out/v1.2" ++ marker ++ PyStr.str n) /\
  fst (resolve_conflict "src/a.txt" "out/a.txt" "copy" false w)
    = Ok (Some "out/a_副本1.txt") /\
  "out/a_副本1.txt" <> "out/a_copy1.txt".
Proof.
  cbv zeta. split; [vm_compute; reflexivity|]. split.
  { intros marker n Heq. cbn in Heq. discriminate. }
  split; [vm_compute; reflexivity | discriminate].
Qed.

(** ** C8 and C9: what the resolver reads, and merge on a file *)

Section ResolverClaims.
Context {W : Type} {P : Platform W} {FP : FiniteProbe W}.

(** The copy name depends on the world only through which copy names
    exist. *)
Lemma generate_copy_name_ext (p : path) (w1 w2 : W) :
  (forall k, os_path_exists (copy_candidate p k) w1
             = os_path_exists (copy_candidate p k) w2) ->
  fst (generate_copy_name p w1) = fst (generate_copy_name p w2).
Proof.
  intros Hsame.
  destruct (generate_copy_name_total p w1) as (N1 & HN1 & -> & Hf1 & Hm1).
  destruct (generate_copy_name_total p w2) as (N2 & HN2 & -> & Hf2 & Hm2).
  cbn [fst]. do 2 f_equal.
  destruct (Nat.lt_trichotomy N1 N2) as [Hlt|[Heq|Hgt]]; [|exact Heq|].
  - pose proof (Hm2 N1 ltac:(lia)) as Hold. rewrite <- Hsame in Hold. congruence.
  - pose proof (Hm1 N2 ltac:(lia)) as Hold. rewrite Hsame in Hold. congruence.
Qed.

(** C8.  For every source, target, policy and kind, [resolve_conflict]
    leaves the world as it found it and does not raise, and its answer is
    fixed by the existence of the target and of the target's copy names:
    two worlds that agree on those get the same answer. *)
Theorem resolve_conflict_reads_only (source_path target_path : path)
    (conflict_mode : string) (is_folder : bool) (w : W) :
  snd (resolve_conflict source_path target_path conflict_mode is_folder w) = w /\
  (exists r : option path,
     fst (resolve_conflict source_path target_path conflict_mode is_folder w)
       = Ok r) /\
  (forall w2 : W,
     os_path_exists target_path w2 = os_path_exists target_path w ->
     (forall k, os_path_exists (copy_candidate target_path k) w2
                = os_path_exists (copy_candidate target_path k) w) ->
     fst (resolve_conflict source_path target_path conflict_mode is_folder w2)
       = fst (resolve_conflict source_path target_path conflict_mode is_folder w)).
Proof.
  split; [apply resolve_conflict_frame|].
  assert (Hgen : forall w0, exists q,
            generate_copy_name target_path w0 = (Ok q, w0)).
  { intros w0. destruct (generate_copy_name_total target_path w0)
      as (N & _ & Hgen & _). eauto. }
  split.
  - rewrite resolve_conflict_unfold. destruct (Hgen w) as (q & ->).
    repeat (match goal with |- context [if ?b then _ else _] => destruct b end;
            cbn; eauto).
  - intros w2 Htarget Hnames.
    pose proof (generate_copy_name_ext target_path w2 w Hnames) as Hext.
    rewrite !resolve_conflict_unfold, Htarget.
    destruct (Hgen w) as (q & Hq). destruct (Hgen w2) as (q2 & Hq2).
    rewrite Hq, Hq2 in *. cbn in Hext. injection Hext as ->.
    repeat (match goal with |- context [if ?b then _ else _] => destruct b end;
            cbn; try reflexivity).
Qed.

(** C9.  On a file ([is_folder] false) whose target exists, the policy
    ["merge"] answers as ["copy"] does: neither a skip nor the target, but
    the first free copy name of the target, which does not exist. *)
Theorem resolve_conflict_merge_on_file (source_path target_path : path) (w : W) :
  os_path_exists target_path w = true ->
  resolve_conflict source_path target_path "merge" false w
    = resolve_conflict source_path target_path "copy" false w /\
  exists N : nat,
    1 <= N /\
    resolve_conflict source_path target_path "merge" false w
      = (Ok (Some (copy_candidate target_path N)), w) /\
    copy_candidate target_path N <> target_path /\
    os_path_exists (copy_candidate target_path N) w = false /\
    (forall k, 1 <= k < N ->
       os_path_exists (copy_candidate target_path k) w = true).
Proof.
  intros Htarget.
  assert (Heq : resolve_conflict source_path target_path "merge" false w
                = resolve_conflict source_path target_path "copy" false w).
  { rewrite !resolve_conflict_unfold, Htarget. reflexivity. }
  split; [exact Heq|].
  destruct (generate_copy_name_total target_path w)
    as (N & HN & Hgen & Hfree & Hmin).
  exists N. split; [exact HN|]. split.
  { rewrite resolve_conflict_unfold, Htarget, Hgen. reflexivity. }
  split; [congruence|]. split; [exact Hfree | exact Hmin].
Qed.

End ResolverClaims.

(** ** C6: the folder merger *)

Section MonadFacts.
Context {S : Type}.

(** [except Exception as e: raise e] changes nothing. *)
Lemma try_catch_reraise {A} (m : M S A) (s : S) :
  try_catch m (fun e => raise e) s = m s.
Proof. unfold try_catch, raise. destruct (m s) as [[a|e] s']; reflexivity. Qed.

(** A loop that raises in one turn raises then, in the state that turn
    left: the turns after it are not run. *)
Lemma for_each_raise {A} (done rest : list A) (x : A) (body : A -> M S unit)
    (s s1 s2 : S) (e : exn) :
  for_each done body s = (Ok tt, s1) ->
  body x s1 = (Raise e, s2) ->
  for_each (done ++ x :: rest)%list body s = (Raise e, s2).
Proof.
  revert s. induction done as [|y done IH]; intros s Hdone Hx; cbn in *.
  - injection Hdone as <-. unfold bind. rewrite Hx. reflexivity.
  - unfold bind in *. destruct (body y s) as [[[]|e'] s'];
      [apply IH; assumption | discriminate].
Qed.

(** A loop whose first turns end well goes on with the others, from the
    state those turns left. *)
Lemma for_each_app {A} (done rest : list A) (body : A -> M S unit) (s s1 : S) :
  for_each done body s = (Ok tt, s1) ->
  for_each (done ++ rest)%list body s = for_each rest body s1.
Proof.
  revert s. induction done as [|y done IH]; intros s Hdone; cbn in *.
  - injection Hdone as <-. reflexivity.
  - unfold bind in *. destruct (body y s) as [[[]|e'] s'];
      [apply IH; assumption | discriminate].
Qed.

End MonadFacts.

Section MergerClaims.
Context {W : Type} {P : Platform W} {FP : FiniteProbe W}.

Lemma merge_folders_unfold (depth : nat) (source_folder target_folder : path)
    (w : W) :
  merge_folders (S depth) source_folder target_folder w =
  match os_listdir source_folder w with
  | Ok items =>
      for_each items
        (merge_item (merge_folders depth) source_folder target_folder) w
  | Raise e => (Raise e, w)
  end.
Proof.
  cbn [merge_folders]. rewrite try_catch_reraise. unfold bind, listdir.
  destruct (os_listdir source_folder w); reflexivity.
Qed.

(** C6.  [merge_folders] takes no policy.  The merge is the loop over the
    listing of the source, each entry given to [merge_item] with the
    merger one frame deeper, and what the loop returns and leaves is what
    the merge returns and leaves.  In the loop, a file whose counterpart
    exists in the target is copied to the first free copy name of the
    counterpart, the path the resolver gives under ["copy"], and the loop
    goes on from the world that copy left; a folder whose counterpart
    exists is merged by the recursive call; an entry without counterpart
    is copied under its own name.  A failure of the listing, or of any turn
    of the loop (a nested merge included), is the failure of the whole
    merge: the exception is the same and the world is the one the failing
    call left, with nothing undone and the remaining entries not visited. *)
Theorem merge_folders_conflicts_and_failures (depth : nat)
    (source_folder target_folder : path) :
  (forall (merge : path -> path -> M W unit) (item : string) (w : W),
     os_path_isdir (OsPath.join source_folder item) w = false ->
     os_path_exists (OsPath.join target_folder item) w = true ->
     exists N : nat,
       1 <= N /\
       merge_item merge source_folder target_folder item w
         = shutil_copy2 (OsPath.join source_folder item)
             (copy_candidate (OsPath.join target_folder item) N) w /\
       os_path_exists (copy_candidate (OsPath.join target_folder item) N) w
         = false /\
       (forall k, 1 <= k < N ->
          os_path_exists (copy_candidate (OsPath.join target_folder item) k) w
            = true) /\
       resolve_conflict (OsPath.join source_folder item)
         (OsPath.join target_folder item) "copy" false w
         = (Ok (Some (copy_candidate (OsPath.join target_folder item) N)), w)) /\
  (forall (merge : path -> path -> M W unit) (item : string) (w : W),
     os_path_isdir (OsPath.join source_folder item) w = true ->
     os_path_exists (OsPath.join target_folder item) w = true ->
     merge_item merge source_folder target_folder item w
       = merge (OsPath.join source_folder item)
           (OsPath.join target_folder item) w) /\
  (forall (w : W) (e : exn),
     os_listdir source_folder w = Raise e ->
     merge_folders (S depth) source_folder target_folder w = (Raise e, w)) /\
  (forall (w w1 w2 : W) (done rest : list string) (item : string) (e : exn),
     os_listdir source_folder w = Ok (done ++ item :: rest)%list ->
     for_each done
       (merge_item (merge_folders depth) source_folder target_folder) w
       = (Ok tt, w1) ->
     merge_item (merge_folders depth) source_folder target_folder item w1
       = (Raise e, w2) ->
     merge_folders (S depth) source_folder target_folder w = (Raise e, w2)) /\
  (forall (w : W) (items : list string),
     os_listdir source_folder w = Ok items ->
     merge_folders (S depth) source_folder target_folder w
     = for_each items
         (merge_item (merge_folders depth) source_folder target_folder) w) /\
  (forall (w w1 : W) (done rest : list string) (item : string),
     os_listdir source_folder w = Ok (done ++ item :: rest)%list ->
     for_each done
       (merge_item (merge_folders depth) source_folder target_folder) w
       = (Ok tt, w1) ->
     os_path_isdir (OsPath.join source_folder item) w1 = false ->
     os_path_exists (OsPath.join target_folder item) w1 = true ->
     exists N : nat,
       1 <= N /\
       os_path_exists (copy_candidate (OsPath.join target_folder item) N) w1
         = false /\
       (forall k, 1 <= k < N ->
          os_path_exists (copy_candidate (OsPath.join target_folder item) k) w1
            = true) /\
       merge_folders (S depth) source_folder target_folder w
       = match shutil_copy2 (OsPath.join source_folder item)
                 (copy_candidate (OsPath.join target_folder item) N) w1 with
         | (Ok _, w2) =>
             for_each rest
               (merge_item (merge_folders depth) source_folder target_folder)
               w2
         | (Raise e, w2) => (Raise e, w2)
         end) /\
  (forall (merge : path -> path -> M W unit) (item : string) (w : W),
     os_path_exists (OsPath.join target_folder item) w = false ->
     merge_item merge source_folder target_folder item w
     = if os_path_isdir (OsPath.join source_folder item) w
       then shutil_copytree (OsPath.join source_folder item)
              (OsPath.join target_folder item) w
       else shutil_copy2 (OsPath.join source_folder item)
              (OsPath.join target_folder item) w) /\
  (forall w : W,
     merge_folders 0 source_folder target_folder w
     = (Raise "RecursionError: maximum recursion depth exceeded", w)).
Proof.
  assert (Hfile : forall (merge : path -> path -> M W unit) (item : string)
                         (w : W),
            os_path_isdir (OsPath.join source_folder item) w = false ->
            os_path_exists (OsPath.join target_folder item) w = true ->
            exists N : nat,
              1 <= N /\
              merge_item merge source_folder target_folder item w
              = shutil_copy2 (OsPath.join source_folder item)
                  (copy_candidate (OsPath.join target_folder item) N) w /\
              os_path_exists
                (copy_candidate (OsPath.join target_folder item) N) w = false /\
              (forall k, 1 <= k < N ->
                 os_path_exists
                   (copy_candidate (OsPath.join target_folder item) k) w
                 = true) /\
              generate_copy_name (OsPath.join target_folder item) w
              = (Ok (copy_candidate (OsPath.join target_folder item) N), w)).
  { intros merge item w Hdir Hex.
    destruct (generate_copy_name_total (OsPath.join target_folder item) w)
      as (N & HN & Hgen & Hfree & Hmin).
    exists N. split; [exact HN|]. split.
    { unfold merge_item. unfold_monad. rewrite Hdir, Hex. cbn.
      rewrite Hgen. reflexivity. }
    auto. }
  split; [|split; [|split; [|split; [|split; [|split; [|split]]]]]].
  - intros merge item w Hdir Hex.
    destruct (Hfile merge item w Hdir Hex) as (N & HN & Hitem & Hfree & Hmin & Hgen).
    exists N. split; [exact HN|]. split; [exact Hitem|].
    split; [exact Hfree|]. split; [exact Hmin|].
    rewrite resolve_conflict_unfold, Hex, Hgen. reflexivity.
  - intros merge item w Hdir Hex. unfold merge_item. unfold_monad.
    rewrite Hdir, Hex. reflexivity.
  - intros w e Hlist. rewrite merge_folders_unfold, Hlist. reflexivity.
  - intros w w1 w2 done rest item e Hlist Hdone Hitem.
    rewrite merge_folders_unfold, Hlist.
    exact (for_each_raise done rest item _ w w1 w2 e Hdone Hitem).
  - intros w items Hlist. rewrite merge_folders_unfold, Hlist. reflexivity.
  - intros w w1 done rest item Hlist Hdone Hdir Hex.
    destruct (Hfile (merge_folders depth) item w1 Hdir Hex)
      as (N & HN & Hitem & Hfree & Hmin & _).
    exists N. split; [exact HN|]. split; [exact Hfree|]. split; [exact Hmin|].
    rewrite merge_folders_unfold, Hlist, (for_each_app done _ _ w w1 Hdone).
    cbn [for_each]. unfold bind at 1. rewrite Hitem.
    destruct (shutil_copy2 (OsPath.join source_folder item)
                (copy_candidate (OsPath.join target_folder item) N) w1)
      as [[[]|e] w2]; reflexivity.
  - intros merge item w Hfree. unfold merge_item. unfold_monad.
    destruct (os_path_isdir (OsPath.join source_folder item) w); cbn;
      rewrite Hfree; reflexivity.
  - intros w. reflexivity.
Qed.

End MergerClaims.

(** ** Undo: the record found *)

Section JournalFacts.

Lemma combine_seq_snoc {A} (n : nat) (h : list A) (x : A) :
  combine (seq n (List.length (h ++ [x]))) (h ++ [x])
  = (combine (seq n (List.length h)) h ++ [(n + List.length h, x)])%list.
Proof.
  revert n. induction h as [|y h IH]; intros n; cbn.
  - rewrite Nat.add_0_r. reflexivity.
  - rewrite IH. do 4 f_equal. lia.
Qed.

(** The scan from the newest record looks at the last record first. *)
Lemma last_completed_snoc (h : list OperationRecord) (x : OperationRecord) :
  last_completed (h ++ [x]) =
  if rec_status x =? "completed" then Some (List.length h, x)
  else last_completed h.
Proof.
  unfold last_completed. rewrite combine_seq_snoc, rev_app_distr. cbn.
  destruct (rec_status x =? "completed"); reflexivity.
Qed.

Lemma last_completed_none (h : list OperationRecord) :
  Forall (fun x => rec_status x <> "completed") h ->
  last_completed h = None.
Proof.
  induction h as [|x h IH] using rev_ind; intros Hall; [reflexivity|].
  apply Forall_app in Hall as [Hh Hx]. inversion Hx as [|? ? Hne _]; subst.
  rewrite last_completed_snoc. apply String.eqb_neq in Hne. rewrite Hne.
  apply IH, Hh.
Qed.

Lemma last_completed_app (older newer : list OperationRecord)
    (r : OperationRecord) :
  rec_status r = "completed" ->
  Forall (fun x => rec_status x <> "completed") newer ->
  last_completed (older ++ r :: newer) = Some (List.length older, r).
Proof.
  intros Hr. induction newer as [|x newer IH] using rev_ind; intros Hall.
  - rewrite last_completed_snoc, Hr. reflexivity.
  - apply Forall_app in Hall as [Hn Hx]. inversion Hx as [|? ? Hne _]; subst.
    change (older ++ r :: newer ++ [x])%list
      with (older ++ (r :: newer) ++ [x])%list.
    rewrite app_assoc, last_completed_snoc.
    apply String.eqb_neq in Hne. rewrite Hne. apply IH, Hn.
Qed.

(** What the scan finds is the newest record whose status is
    ["completed"]. *)
Lemma last_completed_inv (h : list OperationRecord) (i : nat)
    (r : OperationRecord) :
  last_completed h = Some (i, r) ->
  exists older newer,
    h = (older ++ r :: newer)%list /\ List.length older = i /\
    rec_status r = "completed" /\
    Forall (fun x => rec_status x <> "completed") newer.
Proof.
  induction h as [|x h IH] using rev_ind; [discriminate|].
  rewrite last_completed_snoc.
  destruct (rec_status x =? "completed") eqn:Hx.
  - intros [= <- <-]. apply String.eqb_eq in Hx.
    exists h, []. repeat split; auto.
  - intros Hfind. destruct (IH Hfind) as (older & newer & -> & <- & Hr & Hall).
    exists older, (newer ++ [x])%list. rewrite <- app_assoc. cbn.
    repeat split; [exact Hr|]. apply Forall_app. split; [exact Hall|].
    constructor; [|constructor]. apply String.eqb_neq, Hx.
Qed.

End JournalFacts.

Section UndoFacts.
Context {W : Type} {P : Platform W}.

(** The loops of undo catch what their turns raise. *)
Lemma undo_restore_item_ok (op : OperationRecord) (i : nat)
    (backup_path target_path : path) (w : W) :
  exists b w', undo_restore_item op i backup_path target_path w = (Ok b, w').
Proof.
  unfold undo_restore_item, try_catch, ret.
  match goal with |- context [match ?m w with _ => _ end] =>
    destruct (m w) as [[b|e] w'] end; eauto.
Qed.

Lemma undo_restore_loop_ok (op : OperationRecord) (pairs : list (path * path))
    (i n : nat) (w : W) :
  exists n' w', undo_restore_loop op i pairs n w = (Ok n', w').
Proof.
  revert i n w. induction pairs as [|[bp tp] pairs IH]; intros i n w; cbn.
  - unfold ret. eauto.
  - unfold bind. destruct (undo_restore_item_ok op i bp tp w) as (b & w' & ->).
    apply IH.
Qed.

Lemma undo_delete_item_ok (target_path : path) (w : W) :
  exists b w', undo_delete_item target_path w = (Ok b, w').
Proof.
  unfold undo_delete_item, try_catch, ret.
  match goal with |- context [match ?m w with _ => _ end] =>
    destruct (m w) as [[b|e] w'] end; eauto.
Qed.

Lemma undo_delete_loop_ok (targets : list path) (n : nat) (w : W) :
  exists n' w', undo_delete_loop targets n w = (Ok n', w').
Proof.
  revert n w. induction targets as [|tp targets IH]; intros n w; cbn.
  - unfold ret. eauto.
  - unfold bind. destruct (undo_delete_item_ok tp w) as (b & w' & ->).
    apply IH.
Qed.

Lemma undo_paths_ok (op : OperationRecord) (w : W) :
  exists n w', undo_paths op w = (Ok n, w').
Proof.
  unfold undo_paths, bind, ret.
  destruct (rec_type op =? CUT);
    [destruct (undo_restore_loop_ok op
                 (combine (rec_backup_paths op) (rec_target_paths op)) 0 0 w)
       as (n & w' & ->); eauto|].
  destruct (rec_type op =? COPY);
    [destruct (undo_delete_loop_ok (rec_target_paths op) 0 w)
       as (n & w' & ->); eauto|].
  destruct (rec_type op =? RENAME);
    [destruct (undo_restore_loop_ok op
                 (combine (rec_backup_paths op) (rec_target_paths op)) 0 0 w)
       as (n & w' & ->); eauto|].
  eauto.
Qed.

(** Undo with nothing to undo: the answer is [False] and the state is the
    one given. *)
Lemma undo_last_operation_none (st : State W) :
  (forall h, journal st = JLoaded h ->
             Forall (fun x => rec_status x <> "completed") h) ->
  (forall v, journal st = JNotList v -> truthy v = false) ->
  undo_last_operation st = (Ok false, st).
Proof.
  intros Hnone Hfalsy. unfold undo_last_operation.
  destruct (journal st) as [| |h|v] eqn:Hj; [reflexivity | reflexivity | |].
  - rewrite (last_completed_none h (Hnone h eq_refl)).
    destruct h; reflexivity.
  - rewrite (Hfalsy v eq_refl). reflexivity.
Qed.

(** Undo on a journal that holds a value that is not a list and is not
    empty or zero: [reversed], or [get] on what it yields, raises, outside
    any [try]. *)
Lemma undo_last_operation_not_list (w : W) (v : NonList) :
  truthy v = true ->
  undo_last_operation {| fs := w; journal := JNotList v |}
  = (Raise (match v with
            | NlString _ | NlObject _ => "'str' object has no attribute 'get'"
            | _ => "'" ++ type_name v ++ "' object is not reversible"
            end),
     {| fs := w; journal := JNotList v |}).
Proof.
  intros Htrue. unfold undo_last_operation. cbn [journal]. rewrite Htrue.
  destruct v; reflexivity.
Qed.

(** Undo on a journal whose newest completed record is [r]. *)
Lemma undo_last_operation_found (older newer : list OperationRecord)
    (r : OperationRecord) (w : W) :
  rec_status r = "completed" ->
  Forall (fun x => rec_status x <> "completed") newer ->
  exists (n : option nat) (w1 : W),
    undo_paths r w = (Ok n, w1) /\
    undo_last_operation {| fs := w; journal := JLoaded (older ++ r :: newer) |}
    = match n with
      | Some 0 =>
          (Ok false, {| fs := w1; journal := JLoaded (older ++ r :: newer) |})
      | _ =>
          (Ok true,
           {| fs := snd (datetime_now w1);
              journal :=
                JLoaded (older ++ mark_undone (fst (datetime_now w1)) r :: newer) |})
      end.
Proof.
  intros Hr Hnewer. destruct (undo_paths_ok r w) as (n & w1 & Hpaths).
  exists n, w1. split; [exact Hpaths|].
  unfold undo_last_operation. cbn [journal fs].
  assert (Hcons : forall (T : Type) (x y : T),
            match (older ++ r :: newer)%list with [] => x | _ :: _ => y end = y).
  { intros T x y. destruct older; reflexivity. }
  rewrite Hcons, (last_completed_app older newer r Hr Hnewer).
  assert (Halter : forall now,
            alter (mark_undone now) (List.length older) (older ++ r :: newer)%list
            = (older ++ mark_undone now r :: newer)%list).
  { intros now. rewrite <- (Nat.add_0_r (List.length older)).
    rewrite alter_app_r. reflexivity. }
  unfold try_catch, undo_found, ret. cbn [journal fs]. rewrite Hpaths.
  destruct n as [[|n]|]; [reflexivity | |];
    destruct (datetime_now w1) as [now w2]; rewrite Halter; reflexivity.
Qed.

End UndoFacts.

(** ** C3, C4, C7 and C10: undo *)

Section UndoClaims.
Context {W : Type} {P : Platform W}.

(** C3.  In a journal [older ++ r :: newer] where [r] is completed and no
    record of [newer] is, the scan from the newest record passes the
    failed and undone records of [newer] and finds [r], at its place; undo
    then does to the file system what [undo_paths r] does, which is given
    [r] alone, and rewrites no record but [r]: the records of [older] are
    left as they are, completed or not. *)
Theorem undo_acts_on_newest_completed (older newer : list OperationRecord)
    (r : OperationRecord) (w : W) :
  rec_status r = "completed" ->
  Forall (fun x => rec_status x <> "completed") newer ->
  last_completed (older ++ r :: newer) = Some (List.length older, r) /\
  exists (n : option nat) (w1 : W),
    undo_paths r w = (Ok n, w1) /\
    undo_last_operation {| fs := w; journal := JLoaded (older ++ r :: newer) |}
    = match n with
      | Some 0 =>
          (Ok false, {| fs := w1; journal := JLoaded (older ++ r :: newer) |})
      | _ =>
          (Ok true,
           {| fs := snd (datetime_now w1);
              journal :=
                JLoaded (older ++ mark_undone (fst (datetime_now w1)) r :: newer) |})
      end.
Proof.
  intros Hr Hnewer. split; [apply last_completed_app; assumption|].
  apply undo_last_operation_found; assumption.
Qed.

(** C4, as the code has it.  When undo acts on the record [r] and at least
    one of its steps succeeds ([success_count] is [S k]), undo returns
    [True], the status of [r] becomes ["undone"], its [undo_timestamp] is
    set, the journal is rewritten with that record in place, and the scan
    of the rewritten journal does not find that place again.  When no step
    succeeds ([success_count] is [0]), undo returns [False] before the
    update: the journal is left as it was. *)
Theorem undo_marks_record_undone (older newer : list OperationRecord)
    (r : OperationRecord) (w w1 : W) (success_count : nat) :
  rec_status r = "completed" ->
  Forall (fun x => rec_status x <> "completed") newer ->
  undo_paths r w = (Ok (Some success_count), w1) ->
  match success_count with
  | S k =>
      let now := fst (datetime_now w1) in
      let history' := (older ++ mark_undone now r :: newer)%list in
      undo_last_operation {| fs := w; journal := JLoaded (older ++ r :: newer) |}
        = (Ok true, {| fs := snd (datetime_now w1); journal := JLoaded history' |}) /\
      history' !! List.length older = Some (mark_undone now r) /\
      rec_status (mark_undone now r) = "undone" /\
      rec_undo_timestamp (mark_undone now r) = Some now /\
      (forall i r', last_completed history' = Some (i, r') ->
                    i < List.length older)
  | 0 =>
      undo_last_operation {| fs := w; journal := JLoaded (older ++ r :: newer) |}
        = (Ok false, {| fs := w1; journal := JLoaded (older ++ r :: newer) |})
  end.
Proof.
  intros Hr Hnewer Hpaths.
  destruct (undo_last_operation_found older newer r w Hr Hnewer)
    as (n & w1' & Hpaths' & Hundo).
  rewrite Hpaths in Hpaths'. injection Hpaths' as <- <-.
  destruct success_count as [|k]; [exact Hundo|].
  cbv zeta. split; [exact Hundo|]. split.
  { rewrite lookup_app_r by lia. rewrite Nat.sub_diag. reflexivity. }
  split; [reflexivity|]. split; [reflexivity|].
  intros i r' Hfind.
  apply last_completed_inv in Hfind
    as (older' & newer' & Heq & <- & Hr' & Hnewer').
  destruct (Nat.lt_trichotomy (List.length older') (List.length older))
    as [Hlt|[Hlen|Hgt]]; [exact Hlt | exfalso | exfalso].
  - apply app_inj_1 in Heq as [_ Heq]; [|symmetry; exact Hlen].
    injection Heq as Heq _. rewrite <- Heq in Hr'. discriminate.
  - assert (Hin : r' ∈ newer).
    { apply (f_equal (fun l => l !! List.length older')) in Heq.
      rewrite (lookup_app_r older') in Heq by lia.
      rewrite Nat.sub_diag in Heq. cbn in Heq.
      rewrite lookup_app_r in Heq by lia.
      destruct (List.length older' - List.length older) as [|j] eqn:Hj; [lia|].
      cbn in Heq. apply (list_elem_of_lookup_2 _ j). exact Heq. }
    rewrite Forall_forall in Hnewer. exact (Hnewer r' Hin Hr').
Qed.

(** C10, as the code has it.  When the journal file is missing, or
    [json.load] fails on it, or it holds a list with no record or with no
    record whose status is ["completed"], or it holds a value that is not
    a list and that Python takes for false ([null], [false], a zero, an
    empty string or object), undo returns [False] and the state it leaves,
    file system and journal, is the state it was given. *)
Theorem undo_without_completed_record (st : State W) :
  (forall h, journal st = JLoaded h ->
             Forall (fun x => rec_status x <> "completed") h) ->
  (forall v, journal st = JNotList v -> truthy v = false) ->
  undo_last_operation st = (Ok false, st).
Proof. apply undo_last_operation_none. Qed.


End UndoClaims.

(** ** Triples on the locals of a driver *)

Section Triples.
Context {L V : Type}.

Lemma lwp_ret {A} (a : A) (Q : A -> L -> Prop) (E : L -> Prop) (s : L * V) :
  Q a (fst s) -> lwp (ret a) Q E s.
Proof. intros HQ. exact HQ. Qed.

Lemma lwp_raise {A} (e : exn) (Q : A -> L -> Prop) (E : L -> Prop) (s : L * V) :
  E (fst s) -> lwp (raise e) Q E s.
Proof. intros HE. exact HE. Qed.

Lemma lwp_bind {A B} (m : M (L * V) A) (k : A -> M (L * V) B)
    (Q : B -> L -> Prop) (E : L -> Prop) (s : L * V) :
  lwp m (fun a l => forall v, lwp (k a) Q E (l, v)) E s ->
  lwp (bind m k) Q E s.
Proof.
  unfold lwp, bind. destruct (m s) as [[a|e] [l v]]; cbn; [|auto].
  intros Hk. apply Hk.
Qed.

Lemma lwp_try_catch {A} (m : M (L * V) A) (h : exn -> M (L * V) A)
    (Q : A -> L -> Prop) (E : L -> Prop) (s : L * V) :
  lwp m Q (fun l => forall e v, lwp (h e) Q E (l, v)) s ->
  lwp (try_catch m h) Q E s.
Proof.
  unfold lwp, try_catch. destruct (m s) as [[a|e] [l v]]; cbn; [auto|].
  intros Hh. apply Hh.
Qed.

Lemma lwp_update (f : L -> L) (Q : unit -> L -> Prop) (E : L -> Prop)
    (s : L * V) :
  Q tt (f (fst s)) -> lwp (update f) Q E s.
Proof. intros HQ. exact HQ. Qed.

Lemma lwp_conseq {A} (m : M (L * V) A) (Q Q' : A -> L -> Prop)
    (E E' : L -> Prop) (s : L * V) :
  lwp m Q E s -> (forall a l, Q a l -> Q' a l) -> (forall l, E l -> E' l) ->
  lwp m Q' E' s.
Proof.
  unfold lwp. destruct (m s) as [[a|e] [l v]]; cbn; auto.
Qed.

(** A loop keeps what each of its turns keeps. *)
Lemma lwp_for_each {A} (I : L -> Prop) (xs : list A)
    (body : A -> M (L * V) unit) (Q : unit -> L -> Prop) (E : L -> Prop)
    (s : L * V) :
  I (fst s) ->
  (forall x l v, I l -> lwp (body x) (fun _ l' => I l') E (l, v)) ->
  (forall l, I l -> Q tt l) ->
  lwp (for_each xs body) Q E s.
Proof.
  intros HI Hbody HQ. revert s HI.
  induction xs as [|x xs IH]; intros [l v] HI; cbn [for_each].
  - apply lwp_ret, HQ, HI.
  - apply lwp_bind. eapply lwp_conseq; [apply Hbody, HI | | auto].
    intros u l' HI' v'. apply IH, HI'.
Qed.

End Triples.

Section PlatformTriples.
Context {W : Type} {P : Platform W} {L : Type}.

(** A call into the platform leaves the locals as they are. *)
Lemma lwp_liftW {A} (m : M W A) (Q : A -> L -> Prop) (E : L -> Prop)
    (s : L * W) :
  (forall a, Q a (fst s)) -> E (fst s) -> lwp (liftW m) Q E s.
Proof.
  intros HQ HE. unfold lwp, liftW. destruct (m (snd s)) as [[a|e] w']; cbn; auto.
Qed.

Lemma lwp_draw (g : W -> string * W) (Q : string -> L -> Prop) (E : L -> Prop)
    (s : L * W) :
  (forall x, Q x (fst s)) -> lwp (draw g) Q E s.
Proof.
  intros HQ. unfold lwp, draw. destruct (g (snd s)) as [x w']; cbn; auto.
Qed.

Lemma lwp_read {A} (g : W -> A) (Q : A -> L -> Prop) (E : L -> Prop)
    (s : L * W) :
  (forall x, Q x (fst s)) -> lwp (read g) Q E s.
Proof. intros HQ. apply HQ. Qed.

(** The restore after a failed move raises, with the locals as they
    were. *)
Lemma lwp_restore_and_reraise {A} (temp_backup source_file : path) (e : exn)
    (Q : A -> L -> Prop) (E : L -> Prop) (s : L * W) :
  E (fst s) -> lwp (restore_and_reraise temp_backup source_file e) Q E s.
Proof.
  intros HE. unfold restore_and_reraise.
  apply lwp_bind, lwp_liftW; [|exact HE]. intros found v.
  apply lwp_bind. cbn [fst].
  destruct found.
  - apply lwp_try_catch, lwp_liftW.
    + intros [] v'. apply lwp_raise, HE.
    + intros e' v'. apply lwp_ret. intros v''. apply lwp_raise, HE.
  - apply lwp_ret. intros v'. apply lwp_raise, HE.
Qed.

End PlatformTriples.

(** One step of a proof of a triple, by the shape of the computation. *)
Ltac lwp_step :=
  lazymatch goal with
  | |- lwp (bind _ _) _ _ _ => apply lwp_bind
  | |- lwp (ret _) _ _ _ => apply lwp_ret
  | |- lwp (raise _) _ _ _ => apply lwp_raise
  | |- lwp (liftW _) _ _ _ => apply lwp_liftW
  | |- lwp (update _) _ _ _ => apply lwp_update
  | |- lwp (draw _) _ _ _ => apply lwp_draw
  | |- lwp (read _) _ _ _ => apply lwp_read
  | |- lwp (try_catch _ _) _ _ _ => apply lwp_try_catch
  | |- lwp (restore_and_reraise _ _ _) _ _ _ => apply lwp_restore_and_reraise
  | |- lwp (if ?b then _ else _) _ _ _ => destruct b
  | |- lwp (match ?x with _ => _ end) _ _ _ => destruct x
  | |- forall _, _ => let x := fresh "x" in intro x
  end; cbn [fst snd].

(** ** The path lists of the drivers *)

(** Goals on the lists after some appends. *)
Ltac solve_atoms :=
  repeat match goal with |- _ /\ _ => split end;
  first
    [ lia
    | assumption
    | reflexivity
    | apply Forall2_app;
      [assumption | repeat constructor; eexists; reflexivity]
    | constructor ].

Ltac solve_lists :=
  unfold aligned, ahead, backups_match, copied_count, renamed_count,
    copied_files_append, renamed_files_append, backup_paths_append,
    source_paths_append, set_success, set_failure, set_found_folders, backup_of,
    init_locals in *;
  cbn [copied_files renamed_files backup_paths source_paths operation_success
       error_message] in *;
  repeat match goal with
         | H : _ /\ _ |- _ => destruct H
         | H : _ \/ _ |- _ => destruct H
         end;
  rewrite ?length_app in *; cbn [List.length] in *; unfold path in *;
  first [ solve [solve_atoms] | left; solve [solve_atoms]
        | right; solve [solve_atoms] ].

Section DriverLists.
Context {W : Type} {P : Platform W}.

Lemma transfer_file_lists {R} (cut_mode : bool)
    (source_file dest_file resolved_path : path) (l : Locals R) (w : W) :
  aligned cut_mode copied_count l ->
  lwp (transfer_file cut_mode source_file dest_file resolved_path)
    (fun _ l' => aligned cut_mode copied_count l')
    (fun l' => aligned cut_mode copied_count l' \/ ahead cut_mode copied_count l')
    (l, w).
Proof.
  intros Hl. unfold transfer_file.
  destruct cut_mode; repeat lwp_step; solve_lists.
Qed.

Lemma search_match_lists (target : path) (cut_mode : bool)
    (conflict_mode file_name target_name root file : string)
    (l : Locals (string * string)) (w : W) :
  aligned cut_mode copied_count l ->
  lwp (search_match target cut_mode conflict_mode file_name target_name root
         file)
    (fun _ l' => aligned cut_mode copied_count l')
    (fun l' => aligned cut_mode copied_count l' \/ ahead cut_mode copied_count l')
    (l, w).
Proof.
  intros Hl. unfold search_match.
  repeat (lazymatch goal with
          | |- lwp (bind (transfer_file _ _ _ _) _) _ _ _ => fail
          | _ => lwp_step
          end); try solve_lists.
  apply lwp_bind. eapply lwp_conseq; [apply transfer_file_lists, Hl | | auto].
  intros ctl l' Hl' v'. repeat lwp_step; solve_lists.
Qed.

Lemma search_files_lists (target : path) (cut_mode : bool)
    (conflict_mode file_name target_name root : string) (files : list string)
    (l : Locals (string * string)) (w : W) :
  aligned cut_mode copied_count l ->
  lwp (search_files target cut_mode conflict_mode file_name target_name root
         files)
    (fun _ l' => aligned cut_mode copied_count l')
    (fun l' => aligned cut_mode copied_count l' \/ ahead cut_mode copied_count l')
    (l, w).
Proof.
  revert l w. induction files as [|file files IH]; intros l w Hl;
    cbn [search_files].
  - apply lwp_ret, Hl.
  - destruct (str_lower file =? str_lower file_name); [|apply IH, Hl].
    apply lwp_bind.
    eapply lwp_conseq; [apply search_match_lists, Hl | | auto].
    intros found l' Hl' v'. destruct found; [apply lwp_ret, Hl' | apply IH, Hl'].
Qed.

Lemma search_walk_lists (target : path) (cut_mode : bool)
    (conflict_mode file_name target_name : string)
    (walk : list (path * list string * list string))
    (l : Locals (string * string)) (w : W) :
  aligned cut_mode copied_count l ->
  lwp (search_walk target cut_mode conflict_mode file_name target_name walk)
    (fun _ l' => aligned cut_mode copied_count l')
    (fun l' => aligned cut_mode copied_count l' \/ ahead cut_mode copied_count l')
    (l, w).
Proof.
  revert l w. induction walk as [|[[root dirs] files] walk IH]; intros l w Hl;
    cbn [search_walk].
  - apply lwp_ret, Hl.
  - apply lwp_bind.
    eapply lwp_conseq; [apply search_files_lists, Hl | | auto].
    intros found l' Hl' v'. destruct found; [apply lwp_ret, Hl' | apply IH, Hl'].
Qed.

Lemma search_and_copy_files_try_lists (source target csv_file : path)
    (cut_mode : bool) (conflict_mode : string) (w : W) :
  lwp (search_and_copy_files_try source target csv_file cut_mode conflict_mode)
    (fun _ l' => aligned cut_mode copied_count l' /\ operation_success l' = true)
    (fun l' => aligned cut_mode copied_count l' \/ ahead cut_mode copied_count l')
    (@init_locals (string * string), w).
Proof.
  assert (Hinit : aligned cut_mode copied_count (@init_locals (string * string))).
  { destruct cut_mode; solve_lists. }
  unfold search_and_copy_files_try.
  repeat (lazymatch goal with
          | |- lwp (bind (for_each _ _) _) _ _ _ => fail
          | _ => lwp_step
          end); try solve [left; exact Hinit].
  all: apply lwp_bind;
    apply (lwp_for_each (aligned cut_mode copied_count)); [exact Hinit | |].
  all: try (intros l1 Hl1 v1; lwp_step; split; [solve_lists | reflexivity]).
  all: intros item l1 v1 Hl1; repeat lwp_step;
    (eapply lwp_conseq; [apply search_walk_lists, Hl1 | | auto]);
    intros found l2 Hl2 v2; repeat lwp_step; exact Hl2.
Qed.

Lemma rename_item_lists (conflict_mode : string) (data : list ManifestEntry)
    (processed_files : list path) (item : ManifestEntry)
    (l : Locals (string * string * path * path)) (w : W) :
  aligned true renamed_count l ->
  lwp (rename_item conflict_mode data processed_files item)
    (fun _ l' => aligned true renamed_count l')
    (fun l' => aligned true renamed_count l' \/ ahead true renamed_count l')
    (l, w).
Proof.
  intros Hl. unfold rename_item. cbv zeta. repeat lwp_step; solve_lists.
Qed.

Lemma rename_loop_lists (conflict_mode : string) (data items : list ManifestEntry)
    (processed_files : list path)
    (l : Locals (string * string * path * path)) (w : W) :
  aligned true renamed_count l ->
  lwp (rename_loop conflict_mode data processed_files items)
    (fun _ l' => aligned true renamed_count l')
    (fun l' => aligned true renamed_count l' \/ ahead true renamed_count l')
    (l, w).
Proof.
  revert processed_files l w.
  induction items as [|item items IH]; intros processed_files l w Hl;
    cbn [rename_loop].
  - apply lwp_ret, Hl.
  - apply lwp_bind.
    eapply lwp_conseq; [apply rename_item_lists, Hl | | auto].
    intros processed_files' l' Hl' v'. apply IH, Hl'.
Qed.

Lemma rename_files_in_place_try_lists (csv_file : path) (conflict_mode : string)
    (w : W) :
  lwp (rename_files_in_place_try csv_file conflict_mode)
    (fun _ l' => aligned true renamed_count l' /\ operation_success l' = true)
    (fun l' => aligned true renamed_count l' \/ ahead true renamed_count l')
    (@init_locals (string * string * path * path), w).
Proof.
  assert (Hinit : aligned true renamed_count
                    (@init_locals (string * string * path * path)))
    by solve_lists.
  unfold rename_files_in_place_try.
  repeat (lazymatch goal with
          | |- lwp (bind (rename_loop _ _ _ _) _) _ _ _ => fail
          | _ => lwp_step
          end); try solve [left; exact Hinit].
  all: apply lwp_bind;
    (eapply lwp_conseq; [apply rename_loop_lists, Hinit | | auto]);
    intros u l1 Hl1 v1; lwp_step; split; [solve_lists | reflexivity].
Qed.

Lemma extract_folder_lists (cut_mode : bool) (conflict_mode : string)
    (found : path * (string * string * path))
    (l : Locals (string * string)) (w : W) :
  aligned cut_mode copied_count l ->
  lwp (extract_folder cut_mode conflict_mode found)
    (fun _ l' => aligned cut_mode copied_count l')
    (fun l' => aligned cut_mode copied_count l' \/ ahead cut_mode copied_count l')
    (l, w).
Proof.
  intros Hl. unfold extract_folder.
  destruct found as [source_folder [[folder_name target_name] dest_path]].
  destruct cut_mode; repeat lwp_step; solve_lists.
Qed.

Lemma extract_entire_folder_try_lists (source target csv_file : path)
    (cut_mode : bool) (conflict_mode : string) (w : W) :
  lwp (extract_entire_folder_try source target csv_file cut_mode conflict_mode)
    (fun _ l' => aligned cut_mode copied_count l' /\ operation_success l' = true)
    (fun l' => aligned cut_mode copied_count l' \/ ahead cut_mode copied_count l')
    (@init_locals (string * string), w).
Proof.
  assert (Hinit : aligned cut_mode copied_count (@init_locals (string * string))).
  { destruct cut_mode; solve_lists. }
  unfold extract_entire_folder_try. cbv zeta.
  repeat (lazymatch goal with
          | |- lwp (bind (for_each _ _) _) _ _ _ => fail
          | _ => lwp_step
          end); try solve [left; exact Hinit].
  all: apply lwp_bind;
    apply (lwp_for_each (aligned cut_mode copied_count)); [exact Hinit | |].
  all: try (intros l1 Hl1 v1; lwp_step; split; [solve_lists | reflexivity]).
  all: intros found l1 v1 Hl1; apply extract_folder_lists, Hl1.
Qed.

Lemma csv_paths_item_lists (cut_mode : bool) (conflict_mode : string)
    (item : ManifestEntry) (l : Locals (string * string)) (w : W) :
  aligned cut_mode copied_count l ->
  lwp (csv_paths_item cut_mode conflict_mode item)
    (fun _ l' => aligned cut_mode copied_count l')
    (fun l' => aligned cut_mode copied_count l' \/ ahead cut_mode copied_count l')
    (l, w).
Proof.
  intros Hl. unfold csv_paths_item. cbv zeta.
  repeat (lazymatch goal with
          | |- lwp (bind (transfer_file _ _ _ _) _) _ _ _ => fail
          | _ => lwp_step
          end); try solve_lists.
  apply lwp_bind. eapply lwp_conseq; [apply transfer_file_lists, Hl | | auto].
  intros ctl l' Hl' v'. lwp_step. exact Hl'.
Qed.

Lemma copy_files_from_csv_paths_try_lists (csv_file : path) (cut_mode : bool)
    (conflict_mode : string) (w : W) :
  lwp (copy_files_from_csv_paths_try csv_file cut_mode conflict_mode)
    (fun _ l' => aligned cut_mode copied_count l' /\ operation_success l' = true)
    (fun l' => aligned cut_mode copied_count l' \/ ahead cut_mode copied_count l')
    (@init_locals (string * string), w).
Proof.
  assert (Hinit : aligned cut_mode copied_count (@init_locals (string * string))).
  { destruct cut_mode; solve_lists. }
  unfold copy_files_from_csv_paths_try.
  repeat (lazymatch goal with
          | |- lwp (bind (for_each _ _) _) _ _ _ => fail
          | _ => lwp_step
          end); try solve [left; exact Hinit].
  all: apply lwp_bind;
    apply (lwp_for_each (aligned cut_mode copied_count)); [exact Hinit | |].
  all: try (intros l1 Hl1 v1; lwp_step; split; [solve_lists | reflexivity]).
  all: intros item l1 v1 Hl1; apply csv_paths_item_lists, Hl1.
Qed.

End DriverLists.

(** ** The folders found by the walk *)

Section FoldersFound.
Context {W : Type} {P : Platform W}.

Lemma mem_In (p : path) (l : list path) : mem p l = true <-> In p l.
Proof.
  unfold mem. rewrite existsb_exists. split.
  - intros (q & Hq & Heq). apply String.eqb_eq in Heq. subst q. exact Hq.
  - intros Hp. exists p. split; [exact Hp | apply String.eqb_refl].
Qed.

Lemma dict_set_In {V} (key : path) (value : V) (d : list (path * V))
    (k : path) (v : V) :
  In (k, v) (dict_set key value d) -> (k = key /\ v = value) \/ In (k, v) d.
Proof.
  induction d as [|[k0 v0] d IH]; cbn [dict_set].
  - intros [Heq|[]]. injection Heq as <- <-. auto.
  - destruct (String.eqb k0 key) eqn:Hk.
    + apply String.eqb_eq in Hk. subst k0.
      intros [Heq|Hin]; [injection Heq as <- <-; auto | right; right; exact Hin].
    + intros [Heq|Hin]; [right; left; exact Heq|].
      destruct (IH Hin) as [?|?]; [auto | right; right; assumption].
Qed.

Lemma dict_set_keys {V} (key : path) (value : V) (d : list (path * V)) :
  map fst (dict_set key value d)
  = if mem key (map fst d) then map fst d else (map fst d ++ [key])%list.
Proof.
  unfold mem. induction d as [|[k0 v0] d IH]; cbn [dict_set]; [reflexivity|].
  cbn [map fst existsb]. rewrite (String.eqb_sym key k0).
  destruct (String.eqb k0 key) eqn:Hk; cbn [orb map fst]; [reflexivity|].
  rewrite IH. destruct (existsb (String.eqb key) (map fst d)); reflexivity.
Qed.

Lemma dict_set_NoDup {V} (key : path) (value : V) (d : list (path * V)) :
  List.NoDup (map fst d) -> List.NoDup (map fst (dict_set key value d)).
Proof.
  intros Hnd. rewrite dict_set_keys.
  destruct (mem key (map fst d)) eqn:Hmem; [exact Hnd|].
  apply NoDup_ListNoDup, NoDup_app. apply NoDup_ListNoDup in Hnd.
  split; [exact Hnd|]. split; [|apply NoDup_singleton].
  intros k Hk Hk'. apply list_elem_of_In in Hk, Hk'.
  destruct Hk' as [<-|[]]. apply mem_In in Hk. congruence.
Qed.

Lemma dict_set_key_In {V} (key : path) (value : V) (d : list (path * V))
    (k : path) :
  k = key \/ In k (map fst d) -> In k (map fst (dict_set key value d)).
Proof.
  rewrite dict_set_keys. destruct (mem key (map fst d)) eqn:Hmem.
  - intros [->|Hk]; [apply mem_In, Hmem | exact Hk].
  - intros [->|Hk]; apply in_or_app; [right; left; reflexivity | left; exact Hk].
Qed.

Lemma collect_dirs_found (target : path) (folder_targets : list (string * string))
    (root : path) (dirs : list string) (seen : path -> string -> Prop)
    (found : list (path * (string * string * path))) :
  folders_found target folder_targets seen found ->
  folders_found target folder_targets
    (fun r d => seen r d \/ (r = root /\ In d dirs))
    (collect_dirs target folder_targets root dirs found).
Proof.
  unfold collect_dirs.
  assert (Hgen : forall done found,
    folders_found target folder_targets
      (fun r d => seen r d \/ (r = root /\ In d done)) found ->
    folders_found target folder_targets
      (fun r d => seen r d \/ (r = root /\ In d (done ++ dirs)%list))
      (fold_left
         (fun found dir_name =>
            match match_folder folder_targets dir_name with
            | Some (folder_name, target_name) =>
                dict_set (OsPath.join root dir_name)
                  (folder_name, target_name, OsPath.join target target_name)
                  found
            | None => found
            end) dirs found)).
  { induction dirs as [|dir_name dirs IH]; intros done found0 Hinv.
    - rewrite app_nil_r. exact Hinv.
    - cbn [fold_left].
      replace (done ++ dir_name :: dirs)%list
        with ((done ++ [dir_name]) ++ dirs)%list
        by (rewrite <- app_assoc; reflexivity).
      apply IH. destruct Hinv as (Hnd & Hsound & Hcomplete).
      destruct (match_folder folder_targets dir_name)
        as [[folder_name target_name]|] eqn:Hmatch.
      + split; [apply dict_set_NoDup, Hnd|]. split.
        * intros sf fn tn dp Hin. apply dict_set_In in Hin as [[-> Heq]|Hin].
          -- injection Heq as -> -> ->. exists root, dir_name.
             split; [right; split; [reflexivity|]; apply in_or_app; right;
                     left; reflexivity|].
             auto.
          -- destruct (Hsound _ _ _ _ Hin) as (r & d & Hseen & Hrest).
             exists r, d. split; [|exact Hrest].
             destruct Hseen as [?|[-> Hd]]; [left; assumption|].
             right. split; [reflexivity|]. apply in_or_app. left. exact Hd.
        * intros r d Hseen Hm. apply dict_set_key_In.
          destruct Hseen as [Hseen|[-> Hd]].
          -- right. apply Hcomplete; [left; exact Hseen | exact Hm].
          -- apply in_app_or in Hd as [Hd|[<-|[]]].
             ++ right. apply Hcomplete; [right; auto | exact Hm].
             ++ left. reflexivity.
      + split; [exact Hnd|]. split.
        * intros sf fn tn dp Hin.
          destruct (Hsound _ _ _ _ Hin) as (r & d & Hseen & Hrest).
          exists r, d. split; [|exact Hrest].
          destruct Hseen as [?|[-> Hd]]; [left; assumption|].
          right. split; [reflexivity|]. apply in_or_app. left. exact Hd.
        * intros r d Hseen Hm.
          destruct Hseen as [Hseen|[-> Hd]].
          -- apply Hcomplete; [left; exact Hseen | exact Hm].
          -- apply in_app_or in Hd as [Hd|[<-|[]]].
             ++ apply Hcomplete; [right; auto | exact Hm].
             ++ congruence. }
  intros (Hnd & Hsound & Hcomplete). apply (Hgen [] found).
  split; [exact Hnd|]. split.
  - intros sf fn tn dp Hin.
    destruct (Hsound _ _ _ _ Hin) as (r & d & Hseen & Hrest).
    exists r, d. auto.
  - intros r d [Hseen|[_ []]] Hm. apply Hcomplete; assumption.
Qed.

Lemma folders_found_ext (target : path) (folder_targets : list (string * string))
    (seen seen' : path -> string -> Prop)
    (found : list (path * (string * string * path))) :
  (forall r d, seen r d <-> seen' r d) ->
  folders_found target folder_targets seen found ->
  folders_found target folder_targets seen' found.
Proof.
  intros Hext (Hnd & Hsound & Hcomplete). split; [exact Hnd|]. split.
  - intros sf fn tn dp Hin.
    destruct (Hsound _ _ _ _ Hin) as (r & d & Hseen & Hrest).
    exists r, d. split; [apply Hext, Hseen | exact Hrest].
  - intros r d Hseen Hm. apply Hcomplete; [apply Hext, Hseen | exact Hm].
Qed.

(** What [found_folders] holds after the walk. *)
Lemma collect_folders_found (target : path)
    (folder_targets : list (string * string))
    (walk : list (path * list string * list string)) :
  folders_found target folder_targets
    (fun r d => exists dirs files, In (r, dirs, files) walk /\ In d dirs)
    (collect_folders target folder_targets walk).
Proof.
  unfold collect_folders.
  assert (Hgen : forall done found,
    folders_found target folder_targets
      (fun r d => exists dirs files, In (r, dirs, files) done /\ In d dirs)
      found ->
    folders_found target folder_targets
      (fun r d => exists dirs files,
                    In (r, dirs, files) (done ++ walk)%list /\ In d dirs)
      (fold_left
         (fun found entry =>
            let '(root, dirs, _) := entry in
            collect_dirs target folder_targets root dirs found)
         walk found)).
  { induction walk as [|[[root dirs] files] walk IH]; intros done found Hinv.
    - rewrite app_nil_r. exact Hinv.
    - cbn [fold_left].
      replace (done ++ (root, dirs, files) :: walk)%list
        with ((done ++ [(root, dirs, files)]) ++ walk)%list
        by (rewrite <- app_assoc; reflexivity).
      apply IH.
      apply (collect_dirs_found target folder_targets root dirs) in Hinv.
      revert Hinv. apply folders_found_ext. intros r d. split.
      + intros [(ds & fs0 & Hin & Hd)|[-> Hd]].
        * exists ds, fs0. split; [apply in_or_app; left; exact Hin | exact Hd].
        * exists dirs, files. split; [|exact Hd].
          apply in_or_app. right. left. reflexivity.
      + intros (ds & fs0 & Hin & Hd). apply in_app_or in Hin as [Hin|[Heq|[]]].
        * left. exists ds, fs0. auto.
        * injection Heq as <- <- <-. right. auto. }
  apply (Hgen [] []).
  split; [constructor|]. split.
  - intros ? ? ? ? [].
  - intros r d (ds & fs0 & [] & _).
Qed.

End FoldersFound.

(** ** The pairs of the path lists *)

Section ResolverAnswers.
Context {W : Type} {P : Platform W}.

Lemma generate_copy_name_loop_answer (p : path) (fuel counter : nat) (w : W) :
  fst (generate_copy_name_loop p fuel counter w) = Ok None \/
  exists N, fst (generate_copy_name_loop p fuel counter w)
            = Ok (Some (copy_candidate p N)).
Proof.
  revert counter. induction fuel as [|fuel IH]; intros counter; simpl;
    [left; reflexivity|].
  unfold_monad. destruct (os_path_exists (copy_candidate p counter) w); simpl;
    [apply IH | right; exists counter; reflexivity].
Qed.

(** What [generate_copy_name] returns is a copy name of the path (or the
    path, should the probe end). *)
Lemma generate_copy_name_answer (p q : path) (w w' : W) :
  generate_copy_name p w = (Ok q, w') -> resolved_from p q.
Proof.
  unfold generate_copy_name.
  pose proof (generate_copy_name_loop_answer p (probe_bound p w) 1 w) as Hans.
  destruct (generate_copy_name_loop p (probe_bound p w) 1 w) as [[[r|]|e] w1];
    cbn [fst] in Hans; intros [= <- <-]; [|left; reflexivity..].
  destruct Hans as [Hnone|[N HN]]; [discriminate|].
  injection HN as ->. right. exists N. reflexivity.
Qed.

(** What [resolve_conflict] answers, when it does not answer [None]. *)
Lemma resolve_conflict_answer (source_path target_path : path)
    (conflict_mode : string) (is_folder : bool) (q : path) (w w' : W) :
  resolve_conflict source_path target_path conflict_mode is_folder w
    = (Ok (Some q), w') ->
  resolved_from target_path q.
Proof.
  rewrite resolve_conflict_unfold.
  destruct (generate_copy_name target_path w) as [[new_path|e] w1] eqn:Hgen.
  - apply generate_copy_name_answer in Hgen.
    repeat (match goal with |- context [if ?b then _ else _] => destruct b end);
      intros [= <- <-]; first [exact Hgen | left; reflexivity].
  - repeat (match goal with |- context [if ?b then _ else _] => destruct b end);
      intros [= <- <-]; left; reflexivity.
Qed.

End ResolverAnswers.

Section PairTriples.
Context {W : Type} {P : Platform W} {L : Type}.

(** A call into the platform, with what it returned. *)
Lemma lwp_liftW_res {A} (m : M W A) (Q : A -> L -> Prop) (E : L -> Prop)
    (s : L * W) :
  (forall a w', m (snd s) = (Ok a, w') -> Q a (fst s)) -> E (fst s) ->
  lwp (liftW m) Q E s.
Proof.
  intros HQ HE. unfold lwp, liftW.
  destruct (m (snd s)) as [[a|e] w'] eqn:Hm; cbn; eauto.
Qed.

(** A loop keeps what each of its turns keeps, on the items of the list. *)
Lemma lwp_for_each_In {A} (I : L -> Prop) (xs : list A)
    (body : A -> M (L * W) unit) (Q : unit -> L -> Prop) (E : L -> Prop)
    (s : L * W) :
  I (fst s) ->
  (forall x l v, In x xs -> I l -> lwp (body x) (fun _ l' => I l') E (l, v)) ->
  (forall l, I l -> Q tt l) ->
  lwp (for_each xs body) Q E s.
Proof.
  intros HI Hbody HQ. revert s HI.
  induction xs as [|x xs IH]; intros [l v] HI; cbn [for_each].
  - apply lwp_ret, HQ, HI.
  - apply lwp_bind. eapply lwp_conseq; [apply Hbody; [left; reflexivity|exact HI] | | auto].
    intros u l' HI' v'. apply IH; [|exact HI'].
    intros y l0 v0 Hy. apply Hbody. right. exact Hy.
Qed.

End PairTriples.

(** One step of a proof of a triple that keeps what [resolve_conflict]
    answered. *)
Ltac lwp_step_res :=
  lazymatch goal with
  | |- lwp (liftW (resolve_conflict _ _ _ _)) _ _ _ =>
      apply lwp_liftW_res;
      [ let a := fresh "resolved" in
        let w' := fresh "w" in
        let H := fresh "Hres" in
        intros a w' H; cbn [fst snd] in H |- *
      | cbn [fst snd] ]
  | _ => lwp_step
  end.

Ltac pairs_atoms :=
  first
    [ assumption
    | constructor
    | apply Forall2_app;
      [assumption | constructor; [solve [eauto] | constructor]]
    | eexists _, _; split; [reflexivity | assumption] ].

Ltac solve_pairs :=
  repeat match goal with
         | H : resolve_conflict _ _ _ _ _ = (Ok (Some _), _) |- _ =>
             apply resolve_conflict_answer in H
         end;
  unfold paired, paired_ahead, copied_files_append, renamed_files_append,
    backup_paths_append, source_paths_append, set_success, set_failure,
    set_found_folders, renamed_targets, init_locals in *;
  cbn [copied_files renamed_files backup_paths source_paths operation_success
       error_message found_folders] in *;
  rewrite ?map_app in *; cbn [map snd] in *;
  repeat match goal with
         | H : _ \/ _ |- _ => destruct H
         end;
  first [ solve [pairs_atoms] | left; solve [pairs_atoms]
        | right; solve [pairs_atoms] ].

Section DriverPairs.
Context {W : Type} {P : Platform W}.

Lemma transfer_file_pairs {R} (rel : path -> path -> Prop) (cut_mode : bool)
    (source_file dest_file resolved_path : path) (l : Locals R) (w : W) :
  rel source_file resolved_path ->
  paired rel copied_files l ->
  lwp (transfer_file cut_mode source_file dest_file resolved_path)
    (fun _ l' => paired rel copied_files l')
    (fun l' => paired rel copied_files l' \/ paired_ahead rel copied_files l')
    (l, w).
Proof.
  intros Hrel Hl. unfold transfer_file.
  destruct cut_mode; repeat lwp_step; solve_pairs.
Qed.

Lemma search_match_pairs (rel : path -> path -> Prop) (target : path)
    (cut_mode : bool) (conflict_mode file_name target_name root file : string)
    (l : Locals (string * string)) (w : W) :
  (forall resolved_path,
     resolved_from (OsPath.join target target_name) resolved_path ->
     rel (OsPath.join root file) resolved_path) ->
  paired rel copied_files l ->
  lwp (search_match target cut_mode conflict_mode file_name target_name root
         file)
    (fun _ l' => paired rel copied_files l')
    (fun l' => paired rel copied_files l' \/ paired_ahead rel copied_files l')
    (l, w).
Proof.
  intros Hrel Hl. unfold search_match.
  repeat (lazymatch goal with
          | |- lwp (bind (transfer_file _ _ _ _) _) _ _ _ => fail
          | _ => lwp_step_res
          end); try solve_pairs.
  apply lwp_bind.
  eapply lwp_conseq;
    [apply (transfer_file_pairs rel);
     [apply Hrel; eapply resolve_conflict_answer; eassumption | exact Hl]
    | | auto].
  intros ctl l' Hl' v'. repeat lwp_step; solve_pairs.
Qed.

Lemma search_files_pairs (rel : path -> path -> Prop) (target : path)
    (cut_mode : bool) (conflict_mode file_name target_name root : string)
    (files : list string) (l : Locals (string * string)) (w : W) :
  (forall file resolved_path,
     str_lower file = str_lower file_name ->
     resolved_from (OsPath.join target target_name) resolved_path ->
     rel (OsPath.join root file) resolved_path) ->
  paired rel copied_files l ->
  lwp (search_files target cut_mode conflict_mode file_name target_name root
         files)
    (fun _ l' => paired rel copied_files l')
    (fun l' => paired rel copied_files l' \/ paired_ahead rel copied_files l')
    (l, w).
Proof.
  intros Hrel. revert l w. induction files as [|file files IH]; intros l w Hl;
    cbn [search_files].
  - apply lwp_ret, Hl.
  - destruct (str_lower file =? str_lower file_name) eqn:Hname;
      [|apply IH, Hl].
    apply String.eqb_eq in Hname. apply lwp_bind.
    eapply lwp_conseq;
      [apply (search_match_pairs rel); [|exact Hl] | | auto].
    + intros resolved_path. apply Hrel, Hname.
    + intros found l' Hl' v'. destruct found; [apply lwp_ret, Hl' | apply IH, Hl'].
Qed.

Lemma search_walk_pairs (rel : path -> path -> Prop) (target : path)
    (cut_mode : bool) (conflict_mode file_name target_name : string)
    (walk : list (path * list string * list string))
    (l : Locals (string * string)) (w : W) :
  (forall root file resolved_path,
     str_lower file = str_lower file_name ->
     resolved_from (OsPath.join target target_name) resolved_path ->
     rel (OsPath.join root file) resolved_path) ->
  paired rel copied_files l ->
  lwp (search_walk target cut_mode conflict_mode file_name target_name walk)
    (fun _ l' => paired rel copied_files l')
    (fun l' => paired rel copied_files l' \/ paired_ahead rel copied_files l')
    (l, w).
Proof.
  intros Hrel. revert l w.
  induction walk as [|[[root dirs] files] walk IH]; intros l w Hl;
    cbn [search_walk].
  - apply lwp_ret, Hl.
  - apply lwp_bind.
    eapply lwp_conseq;
      [apply (search_files_pairs rel); [apply Hrel | exact Hl] | | auto].
    intros found l' Hl' v'. destruct found; [apply lwp_ret, Hl' | apply IH, Hl'].
Qed.

(** The loop of [search_and_copy_files] over the rows of the manifest. *)
Lemma search_loop_pairs (source target csv_file : path) (cut_mode : bool)
    (mode : option string) (conflict_mode : string)
    (data : list ManifestEntry) (l : Locals (string * string)) (w : W) :
  let rel :=
    transferred (SearchAndCopyFiles source target csv_file cut_mode mode) data in
  paired rel copied_files l ->
  lwp (for_each data
         (fun item =>
            walk <- read (os_walk source) ;;
            search_walk target cut_mode conflict_mode (source_name item)
              (target_name item) walk ;;;
            ret tt))
    (fun _ l' => paired rel copied_files l')
    (fun l' => paired rel copied_files l' \/ paired_ahead rel copied_files l')
    (l, w).
Proof.
  intros rel Hl.
  apply (lwp_for_each_In (paired rel copied_files)); [exact Hl | | auto].
  intros item l1 v1 Hitem Hl1. repeat lwp_step.
  eapply lwp_conseq; [apply (search_walk_pairs rel); [|exact Hl1] | | auto].
  - intros root file resolved_path Hname Hres. exists item, root, file. auto.
  - intros found l2 Hl2 v2. repeat lwp_step. exact Hl2.
Qed.

Lemma rename_item_pairs (source csv_file : path) (mode : option string)
    (conflict_mode : string) (data : list ManifestEntry)
    (processed_files : list path) (item : ManifestEntry)
    (l : Locals (string * string * path * path)) (w : W) :
  let rel := transferred (RenameFilesInPlace source csv_file mode) data in
  let targets := fun l => renamed_targets (renamed_files l) in
  In item data ->
  paired rel targets l ->
  lwp (rename_item conflict_mode data processed_files item)
    (fun _ l' => paired rel targets l')
    (fun l' => paired rel targets l' \/ paired_ahead rel targets l')
    (l, w).
Proof.
  intros rel targets Hitem Hl. subst targets. unfold rename_item. cbv zeta.
  assert (Hrel : forall resolved_path,
            resolved_from (str_strip (target_name item)) resolved_path ->
            rel (str_strip (source_name item)) resolved_path).
  { intros resolved_path Hres. exists item. auto. }
  repeat lwp_step_res; solve_pairs.
Qed.

Lemma rename_loop_pairs (source csv_file : path) (mode : option string)
    (conflict_mode : string) (data items : list ManifestEntry)
    (processed_files : list path)
    (l : Locals (string * string * path * path)) (w : W) :
  let rel := transferred (RenameFilesInPlace source csv_file mode) data in
  let targets := fun l => renamed_targets (renamed_files l) in
  (forall item, In item items -> In item data) ->
  paired rel targets l ->
  lwp (rename_loop conflict_mode data processed_files items)
    (fun _ l' => paired rel targets l')
    (fun l' => paired rel targets l' \/ paired_ahead rel targets l')
    (l, w).
Proof.
  intros rel targets. revert processed_files l w.
  induction items as [|item items IH]; intros processed_files l w Hin Hl;
    cbn [rename_loop].
  - apply lwp_ret, Hl.
  - apply lwp_bind.
    eapply lwp_conseq;
      [apply (rename_item_pairs source csv_file mode);
       [apply Hin; left; reflexivity | exact Hl] | | auto].
    intros processed_files' l' Hl' v'. apply IH; [|exact Hl'].
    intros x Hx. apply Hin. right. exact Hx.
Qed.

Lemma extract_folder_pairs (rel : path -> path -> Prop) (cut_mode : bool)
    (conflict_mode : string) (found : path * (string * string * path))
    (l : Locals (string * string)) (w : W) :
  (forall resolved_path,
     resolved_from (snd (snd found)) resolved_path ->
     rel (fst found) resolved_path) ->
  paired rel copied_files l ->
  lwp (extract_folder cut_mode conflict_mode found)
    (fun _ l' => paired rel copied_files l')
    (fun l' => paired rel copied_files l' \/ paired_ahead rel copied_files l')
    (l, w).
Proof.
  intros Hrel Hl. unfold extract_folder.
  destruct found as [source_folder [[folder_name target_name] dest_path]].
  cbn [fst snd] in Hrel.
  destruct cut_mode; repeat lwp_step_res; solve_pairs.
Qed.

Lemma csv_paths_item_pairs (csv_file : path) (mode : option string)
    (cut_mode : bool) (conflict_mode : string) (data : list ManifestEntry)
    (item : ManifestEntry) (l : Locals (string * string)) (w : W) :
  let rel := transferred (CopyFilesFromCsvPaths csv_file cut_mode mode) data in
  In item data ->
  paired rel copied_files l ->
  lwp (csv_paths_item cut_mode conflict_mode item)
    (fun _ l' => paired rel copied_files l')
    (fun l' => paired rel copied_files l' \/ paired_ahead rel copied_files l')
    (l, w).
Proof.
  intros rel Hitem Hl. unfold csv_paths_item. cbv zeta.
  repeat (lazymatch goal with
          | |- lwp (bind (transfer_file _ _ _ _) _) _ _ _ => fail
          | _ => lwp_step_res
          end); try solve_pairs.
  apply lwp_bind.
  eapply lwp_conseq;
    [apply (transfer_file_pairs rel);
     [exists item; split; [exact Hitem|]; split; [reflexivity|];
      eapply resolve_conflict_answer; eassumption
     | exact Hl]
    | | auto].
  intros ctl l' Hl' v'. lwp_step. exact Hl'.
Qed.

End DriverPairs.

Section TryPairs.
Context {W : Type} {P : Platform W}.

(** The first statements of a [try] block, which only read. *)
Lemma lwp_check {L A} (p : path) (e : exn) (k : M (L * W) A)
    (Q : A -> L -> Prop) (E : L -> Prop) (l : L) (w : W) :
  E l ->
  (os_path_exists p w = true -> lwp k Q E (l, w)) ->
  lwp (found <- liftW (path_exists p) ;;
       (if negb found then raise e else ret tt) ;;; k) Q E (l, w).
Proof.
  intros HE Hk. unfold lwp, bind at 1, liftW at 1, path_exists. cbn [fst snd].
  destruct (os_path_exists p w) eqn:Hp; cbn [negb].
  - unfold bind at 1, ret at 1. apply Hk. reflexivity.
  - unfold bind at 1, raise at 1. exact HE.
Qed.

Lemma lwp_read_manifest {L A} (csv_file : path)
    (k : string + list ManifestEntry -> M (L * W) A)
    (Q : A -> L -> Prop) (E : L -> Prop) (l : L) (w : W) :
  lwp (k (read_csv_with_encoding_detection csv_file w)) Q E (l, w) ->
  lwp (csv_result <- read (read_csv_with_encoding_detection csv_file) ;;
       k csv_result) Q E (l, w).
Proof. intros Hk. exact Hk. Qed.

Lemma lwp_make_target {L A} (target : path) (k : M (L * W) A)
    (Q : A -> L -> Prop) (E : L -> Prop) (l : L) (w : W) :
  E l ->
  lwp k Q E
    (l, if os_path_exists target w then w else snd (os_makedirs target w)) ->
  lwp (found <- liftW (path_exists target) ;;
       (if negb found then liftW (os_makedirs target) else ret tt) ;;; k)
    Q E (l, w).
Proof.
  intros HE Hk. unfold lwp, bind at 1, liftW at 1, path_exists. cbn [fst snd].
  destruct (os_path_exists target w) eqn:Hp; cbn [negb].
  - unfold bind at 1, ret at 1. exact Hk.
  - unfold bind at 1, liftW at 1. cbn [fst snd].
    destruct (os_makedirs target w) as [[[]|e] w1]; cbn [snd] in Hk;
      [exact Hk | exact HE].
Qed.

Lemma search_and_copy_files_try_pairs (source target csv_file : path)
    (cut_mode : bool) (mode : option string) (w0 : W) :
  let c := SearchAndCopyFiles source target csv_file cut_mode mode in
  let rel := transferred c (manifest_data c w0) in
  lwp (search_and_copy_files_try source target csv_file cut_mode
         (conflict_mode_or_default mode))
    (fun _ l' => paired rel copied_files l')
    (fun l' => paired rel copied_files l' \/ paired_ahead rel copied_files l')
    (@init_locals (string * string), w0).
Proof.
  intros c rel.
  assert (Hinit : paired rel copied_files (@init_locals (string * string)))
    by constructor.
  unfold search_and_copy_files_try.
  apply lwp_check; [left; exact Hinit|]. intros _.
  apply lwp_make_target; [left; exact Hinit|].
  apply lwp_check; [left; exact Hinit|]. intros _.
  apply lwp_read_manifest.
  assert (Hdata : manifest_data c w0
                  = match read_csv_with_encoding_detection csv_file
                            (if os_path_exists target w0 then w0
                             else snd (os_makedirs target w0)) with
                    | inr data => data
                    | inl _ => []
                    end) by reflexivity.
  destruct (read_csv_with_encoding_detection csv_file
              (if os_path_exists target w0 then w0
               else snd (os_makedirs target w0))) as [error|data].
  - apply lwp_raise. left. exact Hinit.
  - subst rel. rewrite Hdata in *. repeat lwp_step; [|left; exact Hinit].
    eapply lwp_conseq;
      [apply (search_loop_pairs source target csv_file cut_mode mode), Hinit
      | | auto].
    intros u l1 Hl1 v1. lwp_step. exact Hl1.
Qed.

Lemma rename_files_in_place_try_pairs (source csv_file : path)
    (mode : option string) (w0 : W) :
  let c := RenameFilesInPlace source csv_file mode in
  let rel := transferred c (manifest_data c w0) in
  let targets := fun l => renamed_targets (renamed_files l) in
  lwp (rename_files_in_place_try csv_file (conflict_mode_or_default mode))
    (fun _ l' => paired rel targets l')
    (fun l' => paired rel targets l' \/ paired_ahead rel targets l')
    (@init_locals (string * string * path * path), w0).
Proof.
  intros c rel targets.
  assert (Hinit : paired rel targets
                    (@init_locals (string * string * path * path)))
    by constructor.
  unfold rename_files_in_place_try.
  apply lwp_check; [left; exact Hinit|]. intros _.
  apply lwp_read_manifest.
  assert (Hdata : manifest_data c w0
                  = match read_csv_with_encoding_detection csv_file w0 with
                    | inr data => data
                    | inl _ => []
                    end) by reflexivity.
  destruct (read_csv_with_encoding_detection csv_file w0) as [error|data].
  - apply lwp_raise. left. exact Hinit.
  - subst rel. rewrite Hdata in *. repeat lwp_step; [|left; exact Hinit].
    eapply lwp_conseq;
      [apply (rename_loop_pairs source csv_file mode); [auto | exact Hinit]
      | | auto].
    intros u l1 Hl1 v1. lwp_step. exact Hl1.
Qed.

(** The folders found carry a row that matches their name, and the
    destination that row asks for. *)
Lemma found_folder_row (target : path) (data : list ManifestEntry)
    (walk : list (path * list string * list string))
    (found : path * (string * string * path)) :
  In found
     (collect_folders target
        (map (fun item => (source_name item, target_name item)) data) walk) ->
  exists (item : ManifestEntry) (root dir_name : string),
    In item data /\
    str_lower dir_name = str_lower (source_name item) /\
    fst found = OsPath.join root dir_name /\
    snd (snd found) = OsPath.join target (target_name item).
Proof.
  destruct found as [source_folder [[fn tn] dest_path]].
  intros Hin.
  destruct (collect_folders_found target
              (map (fun item => (source_name item, target_name item)) data)
              walk) as (_ & Hsound & _).
  destruct (Hsound _ _ _ _ Hin) as (root & dir_name & _ & -> & Hmatch & ->).
  unfold match_folder in Hmatch. apply find_some in Hmatch as [Hrow Hname].
  apply in_map_iff in Hrow as (item & [= <- <-] & Hitem).
  apply String.eqb_eq in Hname. cbn [fst] in Hname.
  exists item, root, dir_name. auto.
Qed.

Lemma extract_entire_folder_try_pairs (source target csv_file : path)
    (cut_mode : bool) (mode : option string) (w0 : W) :
  let c := ExtractEntireFolder source target csv_file cut_mode mode in
  let rel := transferred c (manifest_data c w0) in
  lwp (extract_entire_folder_try source target csv_file cut_mode
         (conflict_mode_or_default mode))
    (fun _ l' => paired rel copied_files l')
    (fun l' => paired rel copied_files l' \/ paired_ahead rel copied_files l')
    (@init_locals (string * string), w0).
Proof.
  intros c rel.
  assert (Hinit : paired rel copied_files (@init_locals (string * string)))
    by constructor.
  unfold extract_entire_folder_try.
  apply lwp_check; [left; exact Hinit|]. intros _.
  apply lwp_make_target; [left; exact Hinit|].
  apply lwp_check; [left; exact Hinit|]. intros _.
  apply lwp_read_manifest.
  assert (Hdata : manifest_data c w0
                  = match read_csv_with_encoding_detection csv_file
                            (if os_path_exists target w0 then w0
                             else snd (os_makedirs target w0)) with
                    | inr data => data
                    | inl _ => []
                    end) by reflexivity.
  destruct (read_csv_with_encoding_detection csv_file
              (if os_path_exists target w0 then w0
               else snd (os_makedirs target w0))) as [error|data].
  - apply lwp_raise. left. exact Hinit.
  - subst rel. rewrite Hdata in *. cbv zeta.
    repeat (lazymatch goal with
            | |- lwp (bind (for_each _ _) _) _ _ _ => fail
            | _ => lwp_step
            end); [|left; exact Hinit].
    apply lwp_bind.
    apply (lwp_for_each_In (paired (transferred c data) copied_files));
      [exact Hinit | |].
    + intros found l1 v1 Hfound Hl1.
      apply extract_folder_pairs; [|exact Hl1].
      intros resolved_path Hres.
      destruct (found_folder_row target data _ found Hfound)
        as (item & root & dir_name & Hitem & Hname & Hsrc & Hdest).
      rewrite Hdest in Hres. exists item, root, dir_name. auto.
    + intros l1 Hl1 v1. lwp_step. exact Hl1.
Qed.

Lemma copy_files_from_csv_paths_try_pairs (csv_file : path)
    (cut_mode : bool) (mode : option string) (w0 : W) :
  let c := CopyFilesFromCsvPaths csv_file cut_mode mode in
  let rel := transferred c (manifest_data c w0) in
  lwp (copy_files_from_csv_paths_try csv_file cut_mode
         (conflict_mode_or_default mode))
    (fun _ l' => paired rel copied_files l')
    (fun l' => paired rel copied_files l' \/ paired_ahead rel copied_files l')
    (@init_locals (string * string), w0).
Proof.
  intros c rel.
  assert (Hinit : paired rel copied_files (@init_locals (string * string)))
    by constructor.
  unfold copy_files_from_csv_paths_try.
  apply lwp_check; [left; exact Hinit|]. intros _.
  apply lwp_read_manifest.
  assert (Hdata : manifest_data c w0
                  = match read_csv_with_encoding_detection csv_file w0 with
                    | inr data => data
                    | inl _ => []
                    end) by reflexivity.
  destruct (read_csv_with_encoding_detection csv_file w0) as [error|data].
  - apply lwp_raise. left. exact Hinit.
  - subst rel. rewrite Hdata in *.
    repeat (lazymatch goal with
            | |- lwp (bind (for_each _ _) _) _ _ _ => fail
            | _ => lwp_step
            end); [|left; exact Hinit].
    apply lwp_bind.
    apply (lwp_for_each_In (paired (transferred c data) copied_files));
      [exact Hinit | |].
    + intros item l1 v1 Hitem Hl1.
      apply (csv_paths_item_pairs csv_file mode); assumption.
    + intros l1 Hl1 v1. lwp_step. exact Hl1.
Qed.

End TryPairs.

(** ** C2 and C5: the record a batch leaves *)

Section BatchRecord.
Context {W : Type} {P : Platform W}.

(** The frame of a driver, as one step: the body, the note of a failure,
    the save. *)
Lemma run_batch_unfold {R A} (body : M (Locals R * W) unit)
    (save : Locals R -> M (State W) string) (result : Locals R -> A)
    (l0 : Locals R) (st : State W) :
  run_batch body save result (l0, st) =
  let '(r, (l, w')) := body (l0, fs st) in
  let lf := match r with Ok _ => l | Raise e => set_failure e l end in
  match save lf {| fs := w'; journal := journal st |} with
  | (Ok _, st2) => (Ok (result lf), (lf, st2))
  | (Raise e, st2) => (Raise e, (lf, st2))
  end.
Proof.
  unfold run_batch, try_finally, try_catch, bind, get, ret, on_fs, on_state,
    update. cbn [fst snd].
  destruct (body (l0, fs st)) as [[[]|e] [l w']]; cbn [fst snd];
    match goal with |- context [save ?x ?y] =>
      destruct (save x y) as [[i|e'] st2] end; reflexivity.
Qed.

(** [save_operation_history] on a journal it can append to. *)
Lemma save_operation_history_appends (operation_type : string)
    (sources targets : list path) (backups : option (list path))
    (operation_id : string) (success : bool) (message : option string)
    (st : State W) :
  appendable (journal st) ->
  save_operation_history operation_type sources targets backups
    (Some operation_id) success message st
  = (Ok operation_id,
     {| fs := snd (datetime_now (fs st));
        journal :=
          JLoaded
            (loaded_history (journal st) ++
             [{| rec_id := operation_id;
                 rec_type := operation_type;
                 rec_source_paths := sources;
                 rec_target_paths := targets;
                 rec_backup_paths :=
                   match backups with Some b => b | None => [] end;
                 rec_timestamp := fst (datetime_now (fs st));
                 rec_status := if success then "completed" else "failed";
                 rec_success := success;
                 rec_error_message := message;
                 rec_undo_timestamp := None |}]) |}).
Proof.
  intros Happ. unfold save_operation_history.
  destruct (datetime_now (fs st)) as [now w2].
  destruct (journal st) as [| |h|v]; [reflexivity.. | destruct Happ].
Qed.

(** [save_operation_history] on a journal that holds no list: the record
    is built, [history.append] raises, and the file is not written. *)
Lemma save_operation_history_not_list (operation_type : string)
    (sources targets : list path) (backups : option (list path))
    (operation_id : string) (success : bool) (message : option string)
    (w : W) (v : NonList) :
  save_operation_history operation_type sources targets backups
    (Some operation_id) success message {| fs := w; journal := JNotList v |}
  = (Raise ("'" ++ type_name v ++ "' object has no attribute 'append'"),
     {| fs := snd (datetime_now w); journal := JNotList v |}).
Proof.
  unfold save_operation_history. cbn [fs journal].
  destruct (datetime_now w) as [now w2]. reflexivity.
Qed.

(** The record of a batch whose body keeps the lists aligned: it is the
    one record appended; its status tells how the body ended; its lists
    are aligned when the body ended well and at most one source ahead
    otherwise; its targets are, index by index, those of its sources. *)
Lemma run_batch_record {R A} (takes_backups : bool) (count : Locals R -> nat)
    (rel : path -> path -> Prop)
    (targets : Locals R -> list path) (body : M (Locals R * W) unit)
    (result : Locals R -> A) (operation_type operation_id : string) (w0 : W)
    (j : JournalFile) :
  appendable j ->
  (forall l, List.length (targets l) = count l) ->
  (forall e l, targets (set_failure e l) = targets l) ->
  lwp body
    (fun _ l' => aligned takes_backups count l' /\ operation_success l' = true)
    (fun l' => aligned takes_backups count l' \/ ahead takes_backups count l')
    (init_locals, w0) ->
  lwp body
    (fun _ l' => paired rel targets l')
    (fun l' => paired rel targets l' \/ paired_ahead rel targets l')
    (init_locals, w0) ->
  exists (record : OperationRecord) (l : Locals R) (w' : W),
    run_batch body
      (fun l =>
         save_operation_history operation_type (source_paths l)
           (targets l)
           (if takes_backups then Some (backup_paths l) else None)
           (Some operation_id) (operation_success l)
           (error_message l))
      result (init_locals, {| fs := w0; journal := j |})
    = (Ok (result l),
       (l, {| fs := w'; journal := JLoaded (loaded_history j ++ [record]) |})) /\
    rec_type record = operation_type /\
    rec_source_paths record = source_paths l /\
    rec_target_paths record = targets l /\
    match fst (body (init_locals, w0)) with
    | Ok _ => rec_status record = "completed" /\ rec_success record = true
    | Raise e =>
        rec_status record = "failed" /\ rec_success record = false /\
        rec_error_message record = Some e
    end /\
    List.length (rec_target_paths record) <= List.length (rec_source_paths record)
      <= S (List.length (rec_target_paths record)) /\
    (if takes_backups
     then Forall2 backup_of (rec_source_paths record) (rec_backup_paths record)
     else rec_backup_paths record = []) /\
    (rec_status record = "completed" ->
     List.length (rec_source_paths record)
     = List.length (rec_target_paths record)) /\
    Forall2 rel
      (take (List.length (rec_target_paths record)) (rec_source_paths record))
      (rec_target_paths record).
Proof.
  intros Happ Hcount Hfail Hbody Hpairs. rewrite run_batch_unfold.
  cbn [fs journal]. unfold lwp in Hbody, Hpairs.
  destruct (body (init_locals, w0)) as [[[]|e] [l w']]; cbn [fst snd] in *;
    rewrite save_operation_history_appends by exact Happ;
    cbn [fs journal]; eexists _, _, _; (split; [reflexivity|]);
    cbn [rec_type rec_status rec_success rec_error_message rec_source_paths
         rec_target_paths rec_backup_paths set_failure source_paths
         backup_paths operation_success error_message];
    rewrite ?Hfail, ?Hcount.
  - destruct Hbody as [[Hlen Hbk] ->]. unfold backups_match in Hbk.
    unfold paired in Hpairs.
    repeat split; try lia; try (destruct takes_backups;
      first [assumption | reflexivity]).
    rewrite <- Hcount, take_ge by (rewrite <- Hcount in Hlen; lia).
    exact Hpairs.
  - assert (Hbk : backups_match takes_backups l)
      by (destruct Hbody as [[_ Hbk]|[_ Hbk]]; exact Hbk).
    unfold backups_match in Hbk.
    repeat split;
      try (destruct Hbody as [[Hlen _]|[Hlen _]]; lia);
      try discriminate;
      try (destruct takes_backups; first [assumption | reflexivity]).
    rewrite <- Hcount.
    destruct Hpairs as [Hp|(ss & s & Hss & Hp)].
    + unfold paired in Hp. rewrite take_ge; [exact Hp|].
      rewrite (Forall2_length _ _ _ Hp). lia.
    + rewrite Hss, take_app_length'; [exact Hp|].
      symmetry. exact (Forall2_length _ _ _ Hp).
Qed.

(** The record of a call of any of the four drivers. *)
Lemma run_call_record (c : BatchCall) (st : State W) :
  appendable (journal st) ->
  exists record : OperationRecord,
    journal (run_call c st) = JLoaded (loaded_history (journal st) ++ [record]) /\
    rec_type record = call_type c /\
    match try_outcome c (snd (uuid4 (fs st))) with
    | Ok _ => rec_status record = "completed" /\ rec_success record = true
    | Raise e =>
        rec_status record = "failed" /\ rec_success record = false /\
        rec_error_message record = Some e
    end /\
    List.length (rec_target_paths record) <= List.length (rec_source_paths record)
      <= S (List.length (rec_target_paths record)) /\
    (rec_type record = CUT \/ rec_type record = RENAME ->
     Forall2 backup_of (rec_source_paths record) (rec_backup_paths record)) /\
    (rec_type record = COPY -> rec_backup_paths record = []) /\
    (rec_status record = "completed" ->
     List.length (rec_source_paths record)
     = List.length (rec_target_paths record)) /\
    Forall2 (transferred c (manifest_data c (snd (uuid4 (fs st)))))
      (take (List.length (rec_target_paths record)) (rec_source_paths record))
      (rec_target_paths record).
Proof.
  intros Happ.
  destruct c as [source target csv_file cut_mode conflict_mode
                | source csv_file conflict_mode
                | source target csv_file cut_mode conflict_mode
                | csv_file cut_mode conflict_mode];
    cbn [run_call try_outcome call_type].
  - unfold search_and_copy_files.
    destruct (uuid4 (fs st)) as [operation_id w0]. cbn [snd].
    destruct (run_batch_record cut_mode copied_count _ copied_files
                (search_and_copy_files_try source target csv_file cut_mode
                   (conflict_mode_or_default conflict_mode))
                copied_files (if cut_mode then CUT else COPY) operation_id w0
                (journal st) Happ (fun l => eq_refl) (fun e l => eq_refl)
                (search_and_copy_files_try_lists _ _ _ _ _ _)
                (search_and_copy_files_try_pairs _ _ _ _ _ _))
      as (record & l & w' & -> & Hty & _ & _ & Hst & Hlen & Hbk & Hok & Hpairs).
    exists record. cbn [snd journal]. split; [reflexivity|].
    split; [exact Hty|]. split; [exact Hst|]. split; [exact Hlen|].
    rewrite Hty. destruct cut_mode; repeat split; auto;
      try (intros [Hc|Hc]; discriminate Hc); try discriminate.
  - unfold rename_files_in_place.
    destruct (uuid4 (fs st)) as [operation_id w0]. cbn [snd].
    destruct (run_batch_record true renamed_count _
                (fun l => renamed_targets (renamed_files l))
                (rename_files_in_place_try csv_file
                   (conflict_mode_or_default conflict_mode))
                renamed_files RENAME operation_id w0
                (journal st) Happ
                (fun l => length_map snd (renamed_files l))
                (fun e l => eq_refl)
                (rename_files_in_place_try_lists _ _ _)
                (rename_files_in_place_try_pairs source _ _ _))
      as (record & l & w' & -> & Hty & _ & _ & Hst & Hlen & Hbk & Hok & Hpairs).
    exists record. cbn [snd journal]. split; [reflexivity|].
    split; [exact Hty|]. split; [exact Hst|]. split; [exact Hlen|].
    rewrite Hty. repeat split; auto; discriminate.
  - unfold extract_entire_folder.
    destruct (uuid4 (fs st)) as [operation_id w0]. cbn [snd].
    destruct (run_batch_record cut_mode copied_count _ copied_files
                (extract_entire_folder_try source target csv_file cut_mode
                   (conflict_mode_or_default conflict_mode))
                copied_files (if cut_mode then CUT else COPY) operation_id w0
                (journal st) Happ (fun l => eq_refl) (fun e l => eq_refl)
                (extract_entire_folder_try_lists _ _ _ _ _ _)
                (extract_entire_folder_try_pairs _ _ _ _ _ _))
      as (record & l & w' & -> & Hty & _ & _ & Hst & Hlen & Hbk & Hok & Hpairs).
    exists record. split; [destruct (found_folders l); reflexivity|].
    split; [exact Hty|]. split; [exact Hst|]. split; [exact Hlen|].
    rewrite Hty. destruct cut_mode; repeat split; auto;
      try (intros [Hc|Hc]; discriminate Hc); try discriminate.
  - unfold copy_files_from_csv_paths.
    destruct (uuid4 (fs st)) as [operation_id w0]. cbn [snd].
    destruct (run_batch_record cut_mode copied_count _ copied_files
                (copy_files_from_csv_paths_try csv_file cut_mode
                   (conflict_mode_or_default conflict_mode))
                copied_files (if cut_mode then CUT else COPY) operation_id w0
                (journal st) Happ (fun l => eq_refl) (fun e l => eq_refl)
                (copy_files_from_csv_paths_try_lists _ _ _ _)
                (copy_files_from_csv_paths_try_pairs _ _ _ _))
      as (record & l & w' & -> & Hty & _ & _ & Hst & Hlen & Hbk & Hok & Hpairs).
    exists record. cbn [snd journal]. split; [reflexivity|].
    split; [exact Hty|]. split; [exact Hst|]. split; [exact Hlen|].
    rewrite Hty. destruct cut_mode; repeat split; auto;
      try (intros [Hc|Hc]; discriminate Hc); try discriminate.
Qed.

(** A call on a journal that holds no list: the [try] block runs, the
    record is built, [history.append] raises in the [finally] clause, and
    the journal file is left as it was. *)
Lemma run_call_not_list (c : BatchCall) (w : W) (v : NonList) :
  journal (run_call c {| fs := w; journal := JNotList v |}) = JNotList v.
Proof.
  destruct c as [source target csv_file cut_mode conflict_mode
                | source csv_file conflict_mode
                | source target csv_file cut_mode conflict_mode
                | csv_file cut_mode conflict_mode];
    cbn [run_call];
    unfold search_and_copy_files, rename_files_in_place,
      extract_entire_folder, copy_files_from_csv_paths; cbn [fs journal];
    destruct (uuid4 w) as [operation_id w0];
    rewrite run_batch_unfold; cbn [fs journal];
    match goal with |- context [?body (init_locals, w0)] =>
      destruct (body (init_locals, w0)) as [r [l w1]] end;
    rewrite save_operation_history_not_list; reflexivity.
Qed.



End BatchRecord.

(** ** The theorems on the platform in memory *)

(** C8 at the conflict of [dst/a.txt] under ["skip"]. *)
Lemma resolve_conflict_reads_only_witness :
  snd (resolve_conflict "src/a.txt" "dst/a.txt" "skip" false Sample.world0)
  = Sample.world0.
Proof.
  exact (proj1 (@resolve_conflict_reads_only MemFS.world MemFS.platform
                  MemFSFacts.finite_probe "src/a.txt" "dst/a.txt" "skip" false
                  Sample.world0)).
Defined.

(** C9 at the conflict of the file [dst/a.txt]. *)
Lemma resolve_conflict_merge_on_file_witness :
  resolve_conflict "src/a.txt" "dst/a.txt" "merge" false Sample.world0
  = resolve_conflict "src/a.txt" "dst/a.txt" "copy" false Sample.world0.
Proof.
  exact (proj1 (@resolve_conflict_merge_on_file MemFS.world MemFS.platform
                  MemFSFacts.finite_probe "src/a.txt" "dst/a.txt"
                  Sample.world0 eq_refl)).
Defined.

(** C6 at the merge of [src] into [dst], which both hold [a.txt]: the
    merge copies [src/a.txt] to a copy name of [dst/a.txt], and goes on
    with [b.txt]. *)
Lemma merge_folders_conflicts_and_failures_witness :
  exists N : nat,
    1 <= N /\
    os_path_exists (copy_candidate "dst/a.txt" N) Sample.world0 = false /\
    merge_folders 3 "src" "dst" Sample.world0
    = match shutil_copy2 "src/a.txt" (copy_candidate "dst/a.txt" N)
              Sample.world0 with
      | (Ok _, w2) =>
          for_each ["b.txt"] (merge_item (merge_folders 2) "src" "dst") w2
      | (Raise e, w2) => (Raise e, w2)
      end.
Proof.
  destruct (proj1 (proj2 (proj2 (proj2 (proj2 (proj2
              (@merge_folders_conflicts_and_failures MemFS.world
                 MemFS.platform MemFSFacts.finite_probe 2 "src" "dst"))))))
              Sample.world0 Sample.world0 [] ["b.txt"] "a.txt"
              eq_refl eq_refl eq_refl eq_refl)
    as (N & HN & Hfree & _ & Hmerge).
  exists N. split; [exact HN|]. split; [exact Hfree | exact Hmerge].
Defined.

(** The same merge, run: [dst] holds the copy of [a.txt] under its first
    copy name, beside the [a.txt] it had, and [b.txt]. *)
Lemma merge_folders_makes_the_copy :
  let w := snd (merge_folders 3 "src" "dst" Sample.world0) in
  fst (merge_folders 3 "src" "dst" Sample.world0) = Ok tt /\
  os_path_isfile (copy_candidate "dst/a.txt" 1) w = true /\
  os_path_isfile "dst/a.txt" w = true /\
  os_path_isfile "dst/b.txt" w = true /\
  os_path_isfile "src/a.txt" w = true.
Proof. cbv zeta. repeat split; vm_compute; reflexivity. Qed.

(** C3 at a journal with two completed copies and a failed one after
    them: the second copy is found. *)
Lemma undo_acts_on_newest_completed_witness :
  last_completed [Sample.record_a; Sample.record_b; Sample.record_failed]
  = Some (1, Sample.record_b).
Proof.
  refine (proj1 (@undo_acts_on_newest_completed MemFS.world MemFS.platform
                   [Sample.record_a] [Sample.record_failed] Sample.record_b
                   Sample.world_copied eq_refl _)).
  repeat constructor. discriminate.
Defined.

(** C4 at the undo of the copy of [b.txt]: one step, which succeeds. *)
Lemma undo_marks_record_undone_witness :
  undo_last_operation
    {| fs := Sample.world_copied;
       journal := JLoaded [Sample.record_a; Sample.record_b] |}
  = (Ok true,
     {| fs := snd (datetime_now (snd (undo_paths Sample.record_b
                                        Sample.world_copied)));
        journal :=
          JLoaded
            [Sample.record_a;
             mark_undone
               (fst (datetime_now (snd (undo_paths Sample.record_b
                                          Sample.world_copied))))
               Sample.record_b] |}).
Proof.
  refine (proj1 (@undo_marks_record_undone MemFS.world MemFS.platform
                   [Sample.record_a] [] Sample.record_b Sample.world_copied
                   (snd (undo_paths Sample.record_b Sample.world_copied)) 1
                   eq_refl _ _)).
  - constructor.
  - vm_compute. reflexivity.
Defined.

(** C4 as stated fails.  The copy recorded by [record_gone] is completed
    and its target is gone: undo finds the record, no step succeeds, undo
    returns [False] and the journal is as it was, the record still
    ["completed"]; the next undo finds it again. *)
Lemma undo_without_success_keeps_status :
  let st := {| fs := Sample.world_copied;
               journal := JLoaded [Sample.record_gone] |} in
  last_completed [Sample.record_gone] = Some (0, Sample.record_gone) /\
  undo_paths Sample.record_gone Sample.world_copied
    = (Ok (Some 0), Sample.world_copied) /\
  undo_last_operation st = (Ok false, st) /\
  rec_status Sample.record_gone = "completed" /\
  last_completed (loaded_history (journal (snd (undo_last_operation st))))
    = Some (0, Sample.record_gone).
Proof. cbv zeta. repeat split; vm_compute; reflexivity. Qed.

(** C10 at a journal that holds a failed record only. *)
Lemma undo_without_completed_record_witness :
  undo_last_operation
    {| fs := Sample.world0; journal := JLoaded [Sample.record_failed] |}
  = (Ok false,
     {| fs := Sample.world0; journal := JLoaded [Sample.record_failed] |}).
Proof.
  apply (@undo_without_completed_record MemFS.world MemFS.platform).
  - intros h [= <-]. repeat constructor. discriminate.
  - intros v [=].
Defined.

(** C10 as stated fails.  A journal file that holds the object
    [{"a": 1}] is not a journal of this program, and [json.load] reads it:
    the scan iterates over its keys, the string ["a"] has no [get], and the
    exception leaves undo, which has no [try] around the scan.  Nothing is
    changed, and nothing is returned. *)
Lemma undo_on_object_journal_raises :
  let st := {| fs := Sample.world0;
               journal := JNotList (NlObject [("a", JsInt 1)]) |} in
  undo_last_operation st = (Raise "'str' object has no attribute 'get'", st) /\
  fst (undo_last_operation st) <> Ok false.
Proof. cbv zeta. split; [reflexivity | discriminate]. Qed.






(** * Further properties of the code *)

(** ** The resolver, policy by policy *)

Section ResolverPolicies.
Context {W : Type} {P : Platform W}.

(** X1.  When the target does not exist, [resolve_conflict] returns the
    target path itself, whatever the policy string and the kind, and
    leaves the world as it is. *)
Theorem resolve_conflict_without_conflict (source_path target_path : path)
    (conflict_mode : string) (is_folder : bool) (w : W) :
  os_path_exists target_path w = false ->
  resolve_conflict source_path target_path conflict_mode is_folder w
    = (Ok (Some target_path), w).
Proof. intros Hfree. rewrite resolve_conflict_unfold, Hfree. reflexivity. Qed.

(** X2.  When the target exists: ["skip"] answers [None]; ["overwrite"]
    answers the target; ["merge"] on a folder answers the target.  None of
    the three looks for a copy name, and the world is left as it is. *)
Theorem resolve_conflict_fixed_policies (source_path target_path : path)
    (is_folder : bool) (w : W) :
  os_path_exists target_path w = true ->
  resolve_conflict source_path target_path "skip" is_folder w = (Ok None, w) /\
  resolve_conflict source_path target_path "overwrite" is_folder w
    = (Ok (Some target_path), w) /\
  resolve_conflict source_path target_path "merge" true w
    = (Ok (Some target_path), w).
Proof.
  intros Hex. rewrite !resolve_conflict_unfold, Hex. repeat split; reflexivity.
Qed.

(** X3.  A policy string that is none of ["skip"], ["overwrite"], ["copy"]
    and ["merge"] is resolved as ["copy"] is, on files and on folders, in
    every world. *)
Theorem resolve_conflict_unknown_policy (source_path target_path : path)
    (conflict_mode : string) (is_folder : bool) (w : W) :
  conflict_mode <> "skip" -> conflict_mode <> "overwrite" ->
  conflict_mode <> "copy" -> conflict_mode <> "merge" ->
  resolve_conflict source_path target_path conflict_mode is_folder w
    = resolve_conflict source_path target_path "copy" is_folder w.
Proof.
  intros Hs Ho Hc Hm. rewrite !resolve_conflict_unfold.
  apply String.eqb_neq in Hs, Ho, Hc, Hm. rewrite Hs, Ho, Hc, Hm.
  reflexivity.
Qed.

End ResolverPolicies.

(** ** Pruning the journal *)

Section PruneFacts.
Context {W : Type} {P : Platform W}.

Lemma last_entries_app {A} (old kept : list A) :
  kept <> [] -> last_entries (List.length kept) (old ++ kept) = kept.
Proof.
  intros Hne. unfold last_entries.
  destruct (List.length kept) as [|n] eqn:Hlen;
    [destruct kept; [congruence | discriminate]|].
  rewrite length_app, Hlen.
  replace (List.length old + S n - S n) with (List.length old) by lia.
  apply drop_app_length.
Qed.

(** X4.  [cleanup_old_history] leaves the state as it is when the journal
    file is missing, does not parse, or holds no more than [max_entries]
    records; also when it holds a value that is not a list, unless that is
    a string of more than [max_entries] characters. *)
Theorem cleanup_old_history_within_cap (max_entries : nat) (st : State W) :
  (forall h, journal st = JLoaded h -> List.length h <= max_entries) ->
  (forall s, journal st = JNotList (NlString s) ->
             PyStr.code_points s <= max_entries) ->
  cleanup_old_history max_entries st = (Ok tt, st).
Proof.
  intros Hcap Hstr. unfold cleanup_old_history.
  destruct (journal st) as [| |h|v] eqn:Hj; [reflexivity | reflexivity | |].
  - specialize (Hcap h eq_refl). apply Nat.ltb_ge in Hcap. rewrite Hcap.
    reflexivity.
  - destruct v as [| | | |s|]; try reflexivity.
    specialize (Hstr s eq_refl). apply Nat.ltb_ge in Hstr. rewrite Hstr.
    reflexivity.
Qed.

(** X5.  When the journal holds more than [max_entries] records, and
    [max_entries] is not zero, [cleanup_old_history] keeps the newest
    [max_entries] records, in their order, drops the older ones, and does
    not touch the file system. *)
Theorem cleanup_old_history_keeps_newest (old kept : list OperationRecord)
    (w : W) :
  old <> [] -> kept <> [] ->
  cleanup_old_history (List.length kept)
    {| fs := w; journal := JLoaded (old ++ kept) |}
  = (Ok tt, {| fs := w; journal := JLoaded kept |}).
Proof.
  intros Hold Hkept. unfold cleanup_old_history. cbn [journal fs].
  assert (Hlt : Nat.ltb (List.length kept) (List.length (old ++ kept)) = true).
  { apply Nat.ltb_lt. rewrite length_app. destruct old; [congruence|].
    cbn. lia. }
  rewrite Hlt, (last_entries_app old kept Hkept). reflexivity.
Qed.

(** X6.  With [max_entries = 0] nothing is dropped: [history[-0:]] is the
    whole list, so [cleanup_old_history 0] leaves every journal as it
    is. *)
Theorem cleanup_old_history_zero_keeps_all (st : State W) :
  journal (snd (cleanup_old_history 0 st)) = journal st /\
  fs (snd (cleanup_old_history 0 st)) = fs st.
Proof.
  unfold cleanup_old_history.
  destruct (journal st) as [| |h|v] eqn:Hj; cbn [snd]; auto.
  - destruct (Nat.ltb 0 (List.length h)); cbn [snd fs journal last_entries];
      auto.
  - destruct v as [| | | |s|]; cbn [snd]; auto.
    destruct (Nat.ltb 0 (PyStr.code_points s));
      cbn [snd fs journal PyStr.last_code_points]; auto.
Qed.

(** X7.  Pruning keeps the undo target when it survives: if the newest
    completed record [r] is among the records kept, it is what the scan of
    undo finds before the pruning and after it (at its new place). *)
Theorem cleanup_old_history_keeps_undo_target
    (old before after : list OperationRecord) (r : OperationRecord) (w : W) :
  old <> [] ->
  rec_status r = "completed" ->
  Forall (fun x => rec_status x <> "completed") after ->
  let kept := (before ++ r :: after)%list in
  let st := {| fs := w; journal := JLoaded (old ++ kept) |} in
  last_completed (old ++ kept)
    = Some (List.length old + List.length before, r) /\
  last_completed
    (loaded_history (journal (snd (cleanup_old_history (List.length kept) st))))
    = Some (List.length before, r).
Proof.
  intros Hold Hr Hafter kept st. split.
  - unfold kept. rewrite app_assoc, <- length_app.
    apply last_completed_app; assumption.
  - unfold st.
    assert (Hkept : kept <> []) by (unfold kept; destruct before; discriminate).
    pose proof (last_entries_app old kept Hkept) as Hlast.
    unfold cleanup_old_history. cbn [journal fs].
    assert (Hlt : Nat.ltb (List.length kept) (List.length (old ++ kept)) = true).
    { apply Nat.ltb_lt. rewrite length_app. destruct old; [congruence|].
      cbn. lia. }
    rewrite Hlt, Hlast. cbn [snd journal loaded_history].
    apply last_completed_app; assumption.
Qed.

End PruneFacts.

(** ** Cleaning the backup area *)

Section BackupCleanup.
Context {W : Type} {P : Platform W}.

(** The loop of [cleanup_backup_files] is the deletion, in the order of
    the listing, of the entries that are not recent backups. *)
Lemma cleanup_loop_filter (recent : list path) (items : list string) (w : W) :
  for_each items (cleanup_item recent) w
  = for_each
      (List.filter (fun q => negb (mem q recent))
         (map (OsPath.join temp_backup_dir) items))
      delete_path w.
Proof.
  revert w. induction items as [|item items IH]; intros w; [reflexivity|].
  cbn [for_each map List.filter]. unfold cleanup_item at 1.
  destruct (negb (mem (OsPath.join temp_backup_dir item) recent)).
  - cbn [for_each]. unfold bind.
    destruct (delete_path (OsPath.join temp_backup_dir item) w) as [[[]|e] w'];
      [apply IH | reflexivity].
  - unfold bind, ret. apply IH.
Qed.

(** X8.  [cleanup_backup_files(keep_recent=True)], when [.temp_backup]
    exists and can be listed: what it does to the file system is to
    delete, in listing order and up to the first deletion that raises, the
    entries [.temp_backup/<item>] that are not backup paths of the newest
    completed record of the journal; no backup path of that record is
    given to [os.remove] or [shutil.rmtree]; the exception of a failed
    deletion is swallowed, and the journal is not written. *)
Theorem cleanup_backup_files_spares_recent (st : State W) (items : list string) :
  os_path_exists temp_backup_dir (fs st) = true ->
  os_listdir temp_backup_dir (fs st) = Ok items ->
  let stale :=
    List.filter (fun q => negb (mem q (recent_backups (journal st))))
      (map (OsPath.join temp_backup_dir) items) in
  cleanup_backup_files true st
    = (Ok tt,
       {| fs := snd (for_each stale delete_path (fs st));
          journal := journal st |}) /\
  Forall (fun q => ~ In q (recent_backups (journal st))) stale.
Proof.
  intros Hdir Hlist stale. split.
  - unfold cleanup_backup_files. rewrite Hdir. cbn [negb].
    unfold try_catch, bind, listdir, ret. rewrite Hlist.
    rewrite cleanup_loop_filter. fold stale.
    destruct (for_each stale delete_path (fs st)) as [[[]|e] w']; reflexivity.
  - apply Forall_forall. intros q Hq. apply list_elem_of_In in Hq.
    apply filter_In in Hq as [_ Hq]. apply negb_true_iff in Hq.
    intros Hin. apply mem_In in Hin. congruence.
Qed.

End BackupCleanup.

(** ** Undo that finds nothing to restore *)

Section UndoEdges.
Context {W : Type} {P : Platform W}.

(** A turn whose backup is missing does nothing and is not counted. *)
Lemma undo_restore_loop_missing (op : OperationRecord)
    (pairs : list (path * path)) (i n : nat) (w : W) :
  Forall (fun pair => os_path_exists (fst pair) w = false) pairs ->
  undo_restore_loop op i pairs n w = (Ok n, w).
Proof.
  revert i. induction pairs as [|[bp tp] pairs IH]; intros i Hall; cbn.
  - reflexivity.
  - inversion Hall as [|? ? Hbp Hrest]; subst. cbn [fst] in Hbp.
    assert (Hitem : undo_restore_item op i bp tp w = (Ok false, w)).
    { unfold undo_restore_item, try_catch, path_exists. unfold bind, ret.
      rewrite Hbp. reflexivity. }
    unfold bind. rewrite Hitem. apply IH, Hrest.
Qed.

(** Undo of a completed record whose steps count none and leave the world
    as it is: the answer is [False] and the state is the one given. *)
Lemma undo_last_operation_idle (older newer : list OperationRecord)
    (r : OperationRecord) (w : W) :
  rec_status r = "completed" ->
  Forall (fun x => rec_status x <> "completed") newer ->
  undo_paths r w = (Ok (Some 0), w) ->
  undo_last_operation {| fs := w; journal := JLoaded (older ++ r :: newer) |}
  = (Ok false, {| fs := w; journal := JLoaded (older ++ r :: newer) |}).
Proof.
  intros Hr Hnewer Hpaths.
  destruct (undo_last_operation_found older newer r w Hr Hnewer)
    as (n & w1 & Hpaths' & Hundo).
  rewrite Hpaths in Hpaths'. injection Hpaths' as <- <-. exact Hundo.
Qed.

Lemma undo_paths_no_targets (r : OperationRecord) (w : W) :
  rec_type r = CUT \/ rec_type r = COPY \/ rec_type r = RENAME ->
  rec_target_paths r = [] ->
  undo_paths r w = (Ok (Some 0), w).
Proof.
  intros Hty Hnone. unfold undo_paths. rewrite Hnone, combine_nil.
  destruct Hty as [-> | [-> | ->]]; reflexivity.
Qed.

(** X9.  A completed record of a known type with no target path (a batch
    that matched or transferred nothing) cannot be undone: undo finds it,
    counts no success, returns [False] and leaves file system and journal
    as they are.  The record stays ["completed"], so every later undo
    finds it again and the completed records before it are not reached. *)
Theorem undo_of_empty_record_is_stuck (older newer : list OperationRecord)
    (r : OperationRecord) (w : W) :
  rec_status r = "completed" ->
  Forall (fun x => rec_status x <> "completed") newer ->
  rec_type r = CUT \/ rec_type r = COPY \/ rec_type r = RENAME ->
  rec_target_paths r = [] ->
  let st := {| fs := w; journal := JLoaded (older ++ r :: newer) |} in
  undo_last_operation st = (Ok false, st) /\
  undo_last_operation (snd (undo_last_operation st)) = (Ok false, st).
Proof.
  intros Hr Hnewer Hty Hnone st.
  assert (Hidle : undo_last_operation st = (Ok false, st)).
  { apply undo_last_operation_idle; [assumption | assumption |].
    apply undo_paths_no_targets; assumption. }
  rewrite Hidle. split; [reflexivity | exact Hidle].
Qed.

(** X10.  A completed cut or rename record none of whose backup paths
    exists any more (the backup area was cleaned) cannot be undone: no
    step is counted, undo returns [False], nothing is moved or deleted and
    the journal is not rewritten. *)
Theorem undo_without_backups_fails (older newer : list OperationRecord)
    (r : OperationRecord) (w : W) :
  rec_status r = "completed" ->
  Forall (fun x => rec_status x <> "completed") newer ->
  rec_type r = CUT \/ rec_type r = RENAME ->
  Forall (fun b => os_path_exists b w = false) (rec_backup_paths r) ->
  undo_last_operation {| fs := w; journal := JLoaded (older ++ r :: newer) |}
  = (Ok false, {| fs := w; journal := JLoaded (older ++ r :: newer) |}).
Proof.
  intros Hr Hnewer Hty Hgone.
  apply undo_last_operation_idle; [assumption | assumption |].
  assert (Hpairs : Forall (fun pair => os_path_exists (fst pair) w = false)
                     (combine (rec_backup_paths r) (rec_target_paths r))).
  { apply Forall_forall. intros [bp tp] Hin. apply list_elem_of_In in Hin.
    apply in_combine_l in Hin. rewrite Forall_forall in Hgone.
    apply Hgone, list_elem_of_In, Hin. }
  pose proof (undo_restore_loop_missing r _ 0 0 w Hpairs) as Hloop.
  unfold undo_paths. destruct Hty as [Hty|Hty]; rewrite Hty.
  - rewrite String.eqb_refl. unfold bind, ret. rewrite Hloop. reflexivity.
  - change (RENAME =? CUT) with false. change (RENAME =? COPY) with false.
    rewrite String.eqb_refl. cbv iota. unfold bind, ret. rewrite Hloop.
    reflexivity.
Qed.

(** X11.  A completed record whose type is none of the three known ones
    takes no branch: undo calls nothing on the file system, marks the
    record ["undone"] with the time of the clock, and returns [True]. *)
Theorem undo_of_unknown_type (older newer : list OperationRecord)
    (r : OperationRecord) (w : W) :
  rec_status r = "completed" ->
  Forall (fun x => rec_status x <> "completed") newer ->
  rec_type r <> CUT -> rec_type r <> COPY -> rec_type r <> RENAME ->
  undo_last_operation {| fs := w; journal := JLoaded (older ++ r :: newer) |}
  = (Ok true,
     {| fs := snd (datetime_now w);
        journal :=
          JLoaded (older ++ mark_undone (fst (datetime_now w)) r :: newer) |}).
Proof.
  intros Hr Hnewer Hcut Hcopy Hren.
  destruct (undo_last_operation_found older newer r w Hr Hnewer)
    as (n & w1 & Hpaths & Hundo).
  unfold undo_paths in Hpaths.
  apply String.eqb_neq in Hcut, Hcopy, Hren.
  rewrite Hcut, Hcopy, Hren in Hpaths. injection Hpaths as <- <-.
  exact Hundo.
Qed.

(** X12.  Undo right after a batch that completed without transferring
    anything: whichever driver ran, undo returns [False] and leaves the
    state the batch left, file system and journal. *)
Theorem undo_after_empty_batch (c : BatchCall) (st : State W)
    (h : list OperationRecord) (record : OperationRecord) :
  journal (run_call c st) = JLoaded (h ++ [record]) ->
  rec_status record = "completed" ->
  rec_target_paths record = [] ->
  undo_last_operation (run_call c st) = (Ok false, run_call c st).
Proof.
  intros Hj Hst Hnone.
  assert (Happ : appendable (journal st)).
  { destruct st as [w [| | |v]]; cbn [journal appendable]; auto.
    rewrite run_call_not_list in Hj. discriminate. }
  destruct (run_call_record c st Happ) as (record' & Hj' & Hty & _).
  rewrite Hj in Hj'. injection Hj' as Hj'.
  apply app_inj_tail in Hj' as [_ <-].
  destruct (run_call c st) as [w j]. cbn [journal] in Hj. subst j.
  apply undo_last_operation_idle; [exact Hst | constructor |].
  apply undo_paths_no_targets; [|exact Hnone]. rewrite Hty.
  destruct c as [? ? ? [] ?| |? ? ? [] ?|? [] ?]; cbn; auto.
Qed.

End UndoEdges.

(** ** The drivers: what they return, and what they pass over *)

Section DriverEdges.
Context {W : Type} {P : Platform W}.

(** The frame of a driver on a journal it can append to: it returns
    normally, with the result read off the locals the record was saved
    from. *)
Lemma run_batch_returns {R A} (targets : Locals R -> list path)
    (body : M (Locals R * W) unit) (result : Locals R -> A)
    (backups : Locals R -> option (list path))
    (operation_type operation_id : string) (w0 : W) (j : JournalFile) :
  appendable j ->
  exists (l : Locals R) (record : OperationRecord) (w' : W),
    run_batch body
      (fun l =>
         save_operation_history operation_type (source_paths l) (targets l)
           (backups l) (Some operation_id) (operation_success l)
           (error_message l))
      result (init_locals, {| fs := w0; journal := j |})
    = (Ok (result l),
       (l, {| fs := w'; journal := JLoaded (loaded_history j ++ [record]) |})) /\
    l = match body (init_locals, w0) with
        | (Ok _, (l', _)) => l'
        | (Raise e, (l', _)) => set_failure e l'
        end /\
    rec_source_paths record = source_paths l /\
    rec_target_paths record = targets l /\
    rec_status record
    = (if operation_success l then "completed" else "failed").
Proof.
  intros Happ. rewrite run_batch_unfold. cbn [fs journal].
  destruct (body (init_locals, w0)) as [[[]|e] [l w1]];
    rewrite save_operation_history_appends by exact Happ;
    eexists _, _, _; (split; [reflexivity|]); auto.
Qed.

(** The [try] block of [extract_entire_folder] ends with [found_folders]
    assigned; when it raises before the assignment, no path was
    recorded. *)
Lemma extract_folder_found (cut_mode : bool) (conflict_mode : string)
    (found : path * (string * string * path))
    (l : Locals (string * string)) (w : W) :
  found_folders l <> None ->
  lwp (extract_folder cut_mode conflict_mode found)
    (fun _ l' => found_folders l' <> None)
    (fun l' => found_folders l' <> None)
    (l, w).
Proof.
  intros Hl. unfold extract_folder.
  destruct found as [source_folder [[fn tn] dest_path]].
  destruct cut_mode; repeat lwp_step; exact Hl.
Qed.

Lemma extract_entire_folder_try_found (source target csv_file : path)
    (cut_mode : bool) (conflict_mode : string) (w : W) :
  lwp (extract_entire_folder_try source target csv_file cut_mode conflict_mode)
    (fun _ l' => found_folders l' <> None)
    (fun l' => found_folders l' = None ->
               source_paths l' = [] /\ copied_files l' = [])
    (@init_locals (string * string), w).
Proof.
  unfold extract_entire_folder_try. cbv zeta.
  repeat (lazymatch goal with
          | |- lwp (bind (for_each _ _) _) _ _ _ => fail
          | _ => lwp_step
          end); try solve [split; reflexivity].
  all: apply lwp_bind;
    apply (lwp_for_each (fun l => @found_folders (string * string) l <> None));
    [discriminate | |].
  all: try (intros l1 Hl1 v1; lwp_step; exact Hl1).
  all: intros found l1 v1 Hl1;
    (eapply lwp_conseq; [apply extract_folder_found, Hl1 | auto |]);
    intros l2 Hl2 Hnone; contradiction.
Qed.

(** X13.  On a journal it can append to, a batch driver catches whatever
    its [try] block raises and writes its record.
    [search_and_copy_files], [rename_files_in_place] and
    [copy_files_from_csv_paths] then return the paths transferred before
    the failure: the [target_paths] of the record (for
    [rename_files_in_place], the target components of what it returns).
    [extract_entire_folder] does so too, unless its [try] block failed
    before [found_folders] was assigned: then it raises
    [UnboundLocalError] after the record is written, a failed record
    without paths; when its record is completed it returns. *)
Theorem drivers_return_recorded_targets (st : State W) :
  appendable (journal st) ->
  (forall source target csv_file cut_mode conflict_mode,
     exists record,
       journal (snd (search_and_copy_files source target csv_file cut_mode
                       conflict_mode st))
         = JLoaded (loaded_history (journal st) ++ [record]) /\
       fst (search_and_copy_files source target csv_file cut_mode
              conflict_mode st)
         = Ok (rec_target_paths record)) /\
  (forall source csv_file conflict_mode,
     exists record renamed,
       journal (snd (rename_files_in_place source csv_file conflict_mode st))
         = JLoaded (loaded_history (journal st) ++ [record]) /\
       fst (rename_files_in_place source csv_file conflict_mode st)
         = Ok renamed /\
       map snd renamed = rec_target_paths record) /\
  (forall source target csv_file cut_mode conflict_mode,
     exists record,
       journal (snd (extract_entire_folder source target csv_file cut_mode
                       conflict_mode st))
         = JLoaded (loaded_history (journal st) ++ [record]) /\
       match fst (extract_entire_folder source target csv_file cut_mode
                    conflict_mode st) with
       | Ok copied_folders => copied_folders = rec_target_paths record
       | Raise e =>
           e = "cannot access local variable 'found_folders' where it is"
               ++ " not associated with a value" /\
           rec_status record = "failed" /\
           rec_source_paths record = [] /\
           rec_target_paths record = []
       end /\
       (rec_status record = "completed" ->
        fst (extract_entire_folder source target csv_file cut_mode
               conflict_mode st)
        = Ok (rec_target_paths record))) /\
  (forall csv_file cut_mode conflict_mode,
     exists record,
       journal (snd (copy_files_from_csv_paths csv_file cut_mode
                       conflict_mode st))
         = JLoaded (loaded_history (journal st) ++ [record]) /\
       fst (copy_files_from_csv_paths csv_file cut_mode conflict_mode st)
         = Ok (rec_target_paths record)).
Proof.
  intros Happ. repeat split.
  - intros source target csv_file cut_mode conflict_mode.
    unfold search_and_copy_files.
    destruct (uuid4 (fs st)) as [operation_id w0].
    destruct (run_batch_returns copied_files
                (search_and_copy_files_try source target csv_file cut_mode
                   (conflict_mode_or_default conflict_mode))
                copied_files
                (fun l => if cut_mode then Some (backup_paths l) else None)
                (if cut_mode then CUT else COPY) operation_id w0 (journal st)
                Happ)
      as (l & record & w' & -> & _ & _ & Hrec & _).
    exists record. cbn [fst snd journal]. rewrite Hrec. auto.
  - intros source csv_file conflict_mode. unfold rename_files_in_place.
    destruct (uuid4 (fs st)) as [operation_id w0].
    destruct (run_batch_returns
                (fun l => renamed_targets (renamed_files l))
                (rename_files_in_place_try csv_file
                   (conflict_mode_or_default conflict_mode))
                renamed_files (fun l => Some (backup_paths l))
                RENAME operation_id w0 (journal st) Happ)
      as (l & record & w' & -> & _ & _ & Hrec & _).
    exists record, (renamed_files l). cbn [fst snd journal]. rewrite Hrec. auto.
  - intros source target csv_file cut_mode conflict_mode.
    unfold extract_entire_folder.
    destruct (uuid4 (fs st)) as [operation_id w0].
    destruct (run_batch_returns copied_files
                (extract_entire_folder_try source target csv_file cut_mode
                   (conflict_mode_or_default conflict_mode))
                copied_files
                (fun l => if cut_mode then Some (backup_paths l) else None)
                (if cut_mode then CUT else COPY) operation_id w0 (journal st)
                Happ)
      as (l & record & w' & -> & Hl & Hsrc & Hrec & Hst).
    pose proof (extract_entire_folder_try_found source target csv_file cut_mode
                  (conflict_mode_or_default conflict_mode) w0) as Hfound.
    unfold lwp in Hfound.
    destruct (extract_entire_folder_try source target csv_file cut_mode
                (conflict_mode_or_default conflict_mode) (init_locals, w0))
      as [[[]|e] [l' w1]]; cbn [fst snd] in Hfound; subst l.
    + destruct (found_folders l') as [found|] eqn:Hff; [|contradiction].
      exists record. cbn [fst snd journal]. rewrite Hrec. auto.
    + cbn [found_folders set_failure] in *.
      destruct (found_folders l') as [found|] eqn:Hff.
      * exists record. cbn [fst snd journal]. rewrite Hrec. auto.
      * destruct (Hfound eq_refl) as [Hs Hc].
        exists record. cbn [fst snd journal].
        rewrite Hsrc, Hrec, Hst.
        cbn [set_failure source_paths copied_files operation_success].
        rewrite Hs, Hc. repeat split; discriminate.
  - intros csv_file cut_mode conflict_mode.
    unfold copy_files_from_csv_paths.
    destruct (uuid4 (fs st)) as [operation_id w0].
    destruct (run_batch_returns copied_files
                (copy_files_from_csv_paths_try csv_file cut_mode
                   (conflict_mode_or_default conflict_mode))
                copied_files
                (fun l => if cut_mode then Some (backup_paths l) else None)
                (if cut_mode then CUT else COPY) operation_id w0 (journal st)
                Happ)
      as (l & record & w' & -> & _ & _ & Hrec & _).
    exists record. cbn [fst snd journal]. rewrite Hrec. auto.
Qed.

(** With the source directory missing the [try] block raises at its first
    check, before it reads or creates anything. *)
Lemma missing_source_raises (source target csv_file : path) (cut_mode : bool)
    (conflict_mode : string) (w : W) :
  os_path_exists source w = false ->
  search_and_copy_files_try source target csv_file cut_mode conflict_mode
    (init_locals, w)
    = (Raise ("源目录不存在: " ++ source), (init_locals, w)) /\
  extract_entire_folder_try source target csv_file cut_mode conflict_mode
    (init_locals, w)
    = (Raise ("源目录不存在: " ++ source), (init_locals, w)).
Proof.
  intros Hmissing.
  unfold search_and_copy_files_try, extract_entire_folder_try.
  split.
  - unfold bind at 1. unfold liftW at 1, path_exists at 1. cbn [fst snd].
    rewrite Hmissing. cbn [negb]. unfold bind at 1. reflexivity.
  - unfold bind at 1. unfold liftW at 1, path_exists at 1. cbn [fst snd].
    rewrite Hmissing. cbn [negb]. unfold bind at 1. reflexivity.
Qed.

(** X14.  [search_and_copy_files] and [extract_entire_folder] on a source
    directory that does not exist, and a journal they can append to:
    nothing is created, read or moved (the world only passes [uuid4] and
    the clock), and the record appended is a failed one with empty path
    lists and the message of the [FileNotFoundError].
    [search_and_copy_files] then returns the empty list;
    [extract_entire_folder] raises [UnboundLocalError], its
    [found_folders] never assigned. *)
Theorem missing_source_fails_the_batch (source target csv_file : path)
    (cut_mode : bool) (conflict_mode : option string) (st : State W) :
  appendable (journal st) ->
  os_path_exists source (snd (uuid4 (fs st))) = false ->
  let w0 := snd (uuid4 (fs st)) in
  let record :=
    {| rec_id := fst (uuid4 (fs st));
       rec_type := if cut_mode then CUT else COPY;
       rec_source_paths := [];
       rec_target_paths := [];
       rec_backup_paths := [];
       rec_timestamp := fst (datetime_now w0);
       rec_status := "failed";
       rec_success := false;
       rec_error_message := Some ("源目录不存在: " ++ source);
       rec_undo_timestamp := None |} in
  let st' :=
    {| fs := snd (datetime_now w0);
       journal := JLoaded (loaded_history (journal st) ++ [record]) |} in
  search_and_copy_files source target csv_file cut_mode conflict_mode st
    = (Ok [], st') /\
  extract_entire_folder source target csv_file cut_mode conflict_mode st
    = (Raise ("cannot access local variable 'found_folders' where it is"
              ++ " not associated with a value"),
       st').
Proof.
  intros Happ Hmissing w0 record st'. subst w0 record st'.
  unfold search_and_copy_files, extract_entire_folder.
  destruct (uuid4 (fs st)) as [operation_id w0]. cbn [fst snd] in *.
  rewrite !run_batch_unfold. cbn [fs journal].
  destruct (missing_source_raises source target csv_file cut_mode
              (conflict_mode_or_default conflict_mode) w0 Hmissing)
    as [-> ->].
  rewrite !save_operation_history_appends by exact Happ.
  cbn [fs journal set_failure source_paths copied_files backup_paths
       operation_success error_message found_folders init_locals].
  destruct cut_mode; split; reflexivity.
Qed.

End DriverEdges.

(** ** Rows of the manifest that are passed over, and the folders found *)

Section ManifestEdges.
Context {W : Type} {P : Platform W}.

Lemma source_path_counts_In (data : list ManifestEntry) (item : ManifestEntry) :
  In item data ->
  In (str_strip (target_name item))
     (source_path_counts data (str_strip (source_name item))).
Proof.
  intros Hin. unfold source_path_counts. apply in_map_iff. exists item.
  split; [reflexivity|]. apply list_elem_of_In, list_elem_of_filter.
  split; [|apply list_elem_of_In, Hin]. rewrite String.eqb_refl. exact I.
Qed.

(** Two rows with the same source and different targets make the test of
    [rename_files_in_place] for a conflicting source true. *)
Lemma conflicting_rows_counted (data : list ManifestEntry)
    (item other : ManifestEntry) :
  In item data -> In other data ->
  str_strip (source_name other) = str_strip (source_name item) ->
  str_strip (target_name other) <> str_strip (target_name item) ->
  let target_paths := source_path_counts data (str_strip (source_name item)) in
  Nat.ltb 1 (List.length target_paths) &&
  Nat.ltb 1 (List.length (nodup string_dec target_paths)) = true.
Proof.
  intros Hitem Hother Hsrc Hdiff target_paths.
  pose proof (source_path_counts_In data item Hitem) as H1.
  pose proof (source_path_counts_In data other Hother) as H2.
  rewrite Hsrc in H2. fold target_paths in H1, H2.
  assert (Hnd : List.NoDup [str_strip (target_name other);
                            str_strip (target_name item)]).
  { constructor; [|constructor; [intros []|constructor]].
    intros [Heq|[]]. congruence. }
  assert (Hlen : 2 <= List.length (nodup string_dec target_paths)).
  { apply (List.NoDup_incl_length Hnd). intros t [<-|[<-|[]]];
      apply nodup_In; assumption. }
  assert (Hlen' : 2 <= List.length target_paths).
  { apply (List.NoDup_incl_length Hnd). intros t [<-|[<-|[]]]; assumption. }
  apply andb_true_iff. split; apply Nat.ltb_lt; lia.
Qed.

(** X15.  [rename_files_in_place] passes over a source path that the
    manifest lists with two different targets: on rows of such sources the
    loop renames nothing, makes no directory and no backup, touches no
    list, and does not fail. *)
Theorem rename_skips_conflicting_rows (conflict_mode : string)
    (data items : list ManifestEntry) (processed_files : list path)
    (s : Locals (string * string * path * path) * W) :
  Forall (fun item =>
            In item data /\
            exists other,
              In other data /\
              str_strip (source_name other) = str_strip (source_name item) /\
              str_strip (target_name other) <> str_strip (target_name item))
         items ->
  rename_loop conflict_mode data processed_files items s = (Ok tt, s).
Proof.
  intros Hall. revert processed_files.
  induction Hall as [|item items (Hitem & other & Hother & Hsrc & Hdiff) _ IH];
    intros processed_files; [reflexivity|].
  cbn [rename_loop]. unfold bind at 1.
  assert (Hturn : exists processed_files',
             rename_item conflict_mode data processed_files item s
             = (Ok processed_files', s)).
  { unfold rename_item.
    destruct (mem (str_strip (source_name item)) processed_files);
      [eexists; reflexivity|].
    rewrite (conflicting_rows_counted data item other Hitem Hother Hsrc Hdiff).
    eexists; reflexivity. }
  destruct Hturn as [processed_files' ->]. apply IH.
Qed.

(** X16.  The folders [extract_entire_folder] finds: [found_folders] has
    one entry for each path [root/dir_name] of the walk whose [dir_name]
    matches a manifest row, and no key twice (a folder is extracted once,
    however many rows match it); every entry carries the row that matched
    its [dir_name] and the destination [target/target_name]. *)
Theorem collect_folders_finds_each_match_once (target : path)
    (folder_targets : list (string * string))
    (walk : list (path * list string * list string)) :
  let found := collect_folders target folder_targets walk in
  List.NoDup (map fst found) /\
  (forall source_folder folder_name target_name dest_path,
     In (source_folder, (folder_name, target_name, dest_path)) found ->
     exists root dirs files dir_name,
       In (root, dirs, files) walk /\ In dir_name dirs /\
       source_folder = OsPath.join root dir_name /\
       match_folder folder_targets dir_name = Some (folder_name, target_name) /\
       dest_path = OsPath.join target target_name) /\
  (forall root dirs files dir_name,
     In (root, dirs, files) walk -> In dir_name dirs ->
     match_folder folder_targets dir_name <> None ->
     In (OsPath.join root dir_name) (map fst found)).
Proof.
  cbv zeta.
  destruct (collect_folders_found target folder_targets walk)
    as (Hnd & Hsound & Hcomplete).
  split; [exact Hnd|]. split.
  - intros sf fn tn dp Hin.
    destruct (Hsound _ _ _ _ Hin) as (r & d & (ds & fs0 & Hw & Hd) & Hrest).
    exists r, ds, fs0, d. auto.
  - intros root dirs files dir_name Hw Hd Hm. apply Hcomplete; [|exact Hm].
    exists dirs, files. auto.
Qed.

End ManifestEdges.

(** ** Reading the rows of the manifest *)

Section ManifestRows.
Context {W : Type} {P : Platform W}.

(** With two columns or more expected, every non-empty row gives an
    entry. *)
Lemma read_csv_row_enough (expected_columns i : nat) (first : string)
    (rest : list string) :
  2 <= expected_columns ->
  read_csv_row expected_columns i (first :: rest)
  = Ok {| source_name := str_strip first;
          target_name := match rest with
                         | [] => str_strip first
                         | second :: _ => str_strip second
                         end;
          row_number := i |}.
Proof.
  intros Hcols. unfold read_csv_row. destruct rest as [|second rest].
  - assert (Hlt : Nat.ltb (List.length [first]) expected_columns = true)
      by (apply Nat.ltb_lt; cbn; lia).
    rewrite Hlt. reflexivity.
  - destruct (Nat.ltb (List.length (first :: second :: rest)) expected_columns);
      reflexivity.
Qed.

Lemma read_csv_rows_from_enough (expected_columns : nat)
    (rows : list (list string)) (i : nat) :
  2 <= expected_columns ->
  exists data,
    read_csv_rows_from expected_columns i rows = Ok data /\
    (forall e, In e data ->
       exists first rest,
         i <= row_number e /\
         rows !! (row_number e - i) = Some (first :: rest) /\
         source_name e = str_strip first /\
         target_name e = match rest with
                         | [] => str_strip first
                         | second :: _ => str_strip second
                         end) /\
    (forall k first rest,
       rows !! k = Some (first :: rest) ->
       exists e, In e data /\ row_number e = i + k) /\
    (forall a b e1 e2,
       data !! a = Some e1 -> data !! b = Some e2 -> a < b ->
       row_number e1 < row_number e2).
Proof.
  intros Hcols. revert i.
  induction rows as [|row rows IH]; intros i.
  - exists []. split; [reflexivity|]. split; [intros e []|].
    split; [intros k first rest Hk; discriminate|].
    intros a b e1 e2 Ha; discriminate.
  - destruct (IH (S i)) as (data & Hdata & Hsound & Hcomplete & Hsorted).
    cbn [read_csv_rows_from]. destruct row as [|first rest].
    + exists data. split; [exact Hdata|]. split; [|split; [|exact Hsorted]].
      * intros e He. destruct (Hsound e He) as (f & r & Hle & Hrow & Hrest).
        exists f, r. split; [lia|]. split; [|exact Hrest].
        replace (row_number e - i) with (S (row_number e - S i)) by lia.
        exact Hrow.
      * intros [|k] f r Hk; [discriminate|].
        destruct (Hcomplete k f r Hk) as (e & He & Hn).
        exists e. split; [exact He | lia].
    + rewrite (read_csv_row_enough expected_columns i first rest Hcols), Hdata.
      eexists. split; [reflexivity|]. split; [|split].
      * intros e [<-|He].
        -- exists first, rest. cbn [row_number source_name target_name].
           rewrite Nat.sub_diag. auto.
        -- destruct (Hsound e He) as (f & r & Hle & Hrow & Hrest).
           exists f, r. split; [lia|]. split; [|exact Hrest].
           replace (row_number e - i) with (S (row_number e - S i)) by lia.
           exact Hrow.
      * intros [|k] f r Hk.
        -- injection Hk as <- <-. eexists. split; [left; reflexivity|].
           cbn [row_number]. lia.
        -- destruct (Hcomplete k f r Hk) as (e & He & Hn).
           exists e. split; [right; exact He | lia].
      * intros [|a] [|b] e1 e2 Ha Hb Hab; try lia; simpl in Ha, Hb.
        -- injection Ha as <-. cbn [row_number].
           apply list_elem_of_lookup_2, list_elem_of_In in Hb.
           destruct (Hsound e2 Hb) as (f & r & Hle & _). lia.
        -- apply (Hsorted a b e1 e2 Ha Hb). lia.
Qed.

(** X17.  With [expected_columns >= 2] (every caller passes 2) the row
    loop of [read_csv_with_encoding_detection] does not fail.  Its data
    has one entry for each non-empty row and none else, in the order of
    the file; [row_number] is the row's position in the file counted from
    1, blank rows included; both names are stripped, and a row of one
    field has its source name as target name. *)
Theorem read_csv_rows_enough_columns (expected_columns : nat)
    (rows : list (list string)) :
  2 <= expected_columns ->
  exists data,
    read_csv_rows expected_columns rows = inr data /\
    (forall e, In e data ->
       exists first rest,
         1 <= row_number e /\
         rows !! (row_number e - 1) = Some (first :: rest) /\
         source_name e = str_strip first /\
         target_name e = match rest with
                         | [] => str_strip first
                         | second :: _ => str_strip second
                         end) /\
    (forall k first rest,
       rows !! k = Some (first :: rest) ->
       exists e, In e data /\ row_number e = S k) /\
    (forall a b e1 e2,
       data !! a = Some e1 -> data !! b = Some e2 -> a < b ->
       row_number e1 < row_number e2).
Proof.
  intros Hcols.
  destruct (read_csv_rows_from_enough expected_columns rows 1 Hcols)
    as (data & Hdata & Hrest).
  exists data. unfold read_csv_rows. rewrite Hdata. split; [reflexivity|].
  exact Hrest.
Qed.

(** The only exception of the row loop is the [IndexError] of [row[1]]. *)
Lemma read_csv_row_raises (expected_columns i : nat) (row : list string)
    (e : exn) :
  read_csv_row expected_columns i row = Raise e ->
  e = "list index out of range".
Proof.
  unfold read_csv_row. destruct row as [|first rest]; [congruence|].
  destruct (Nat.ltb (List.length (first :: rest)) expected_columns).
  - destruct (Nat.eqb (List.length (first :: rest)) 1); [discriminate|].
    destruct ((first :: rest) !! 1); discriminate.
  - destruct ((first :: rest) !! 1); [discriminate | congruence].
Qed.

Lemma read_csv_rows_from_one_field (expected_columns : nat)
    (rows : list (list string)) (first : string) (i : nat) :
  expected_columns <= 1 ->
  In [first] rows ->
  read_csv_rows_from expected_columns i rows
  = Raise "list index out of range".
Proof.
  intros Hcols. revert i.
  induction rows as [|row rows IH]; intros i Hin; [destruct Hin|].
  cbn [read_csv_rows_from]. destruct row as [|f r].
  - destruct Hin as [Heq|Hin]; [discriminate | apply IH, Hin].
  - destruct (read_csv_row expected_columns i (f :: r)) as [entry|e] eqn:Hrow.
    + destruct Hin as [Heq|Hin].
      * injection Heq as -> ->. unfold read_csv_row in Hrow.
        assert (Hlt : Nat.ltb (List.length [first]) expected_columns = false)
          by (apply Nat.ltb_ge; cbn; lia).
        rewrite Hlt in Hrow. discriminate.
      * rewrite (IH (S i) Hin). reflexivity.
    + apply read_csv_row_raises in Hrow. congruence.
Qed.

(** X18.  With [expected_columns] 0 or 1 a row of one field is not
    accepted: [row[1]] raises, and the whole read fails with the message
    of the [IndexError], whatever the other rows are. *)
Theorem read_csv_rows_one_column_fails (expected_columns : nat)
    (rows : list (list string)) (first : string) :
  expected_columns <= 1 ->
  In [first] rows ->
  read_csv_rows expected_columns rows
  = inl "读取文件时发生错误: list index out of range".
Proof.
  intros Hcols Hin. unfold read_csv_rows.
  rewrite (read_csv_rows_from_one_field expected_columns rows first 1 Hcols Hin).
  reflexivity.
Qed.

(** ** The prompt for the conflict mode *)

(** X19.  What [select_conflict_mode] returns is a key of
    [CONFLICT_MODES]: it has read the lines up to the first one that,
    stripped and lowered, is empty (the default mode is returned) or is a
    key (that key is returned); the lines before it were none of these,
    and the lines after it are left unread. *)
Theorem select_conflict_mode_returns_key (lines rest : list string)
    (mode : string) :
  select_conflict_mode lines = (Ok mode, rest) ->
  In mode (map fst CONFLICT_MODES) /\
  exists skipped line,
    lines = (skipped ++ line :: rest)%list /\
    Forall (fun l => str_lower (str_strip l) <> "" /\
                     ~ In (str_lower (str_strip l)) (map fst CONFLICT_MODES))
           skipped /\
    ((str_lower (str_strip line) = "" /\ mode = DEFAULT_CONFLICT_MODE) \/
     (str_lower (str_strip line) <> "" /\ mode = str_lower (str_strip line))).
Proof.
  induction lines as [|l lines IH]; cbn [select_conflict_mode];
    [discriminate|].
  destruct (String.eqb (str_lower (str_strip l)) "") eqn:Hempty.
  - intros Heq. injection Heq as <- <-. split; [cbn; auto|].
    exists [], l. split; [reflexivity|]. split; [constructor|].
    left. split; [apply String.eqb_eq, Hempty | reflexivity].
  - destruct (existsb (String.eqb (str_lower (str_strip l)))
                (map fst CONFLICT_MODES)) eqn:Hkey.
    + intros Heq. injection Heq as <- <-. split; [apply mem_In, Hkey|].
      exists [], l. split; [reflexivity|]. split; [constructor|].
      right. split; [apply String.eqb_neq, Hempty | reflexivity].
    + intros Heq. destruct (IH Heq) as (Hmode & skipped & line & -> & Hsk & Hl).
      split; [exact Hmode|]. exists (l :: skipped), line.
      split; [reflexivity|]. split; [|exact Hl]. constructor; [|exact Hsk].
      split; [apply String.eqb_neq, Hempty|].
      intros Hin. apply mem_In in Hin. unfold mem in Hin. congruence.
Qed.

(** X20.  [select_conflict_mode] has no way out but an accepted line:
    when every line left is neither empty nor a key, it reads them all and
    ends with the [EOFError] of [input]. *)
Theorem select_conflict_mode_exhausts_input (lines : list string) :
  Forall (fun l => str_lower (str_strip l) <> "" /\
                   ~ In (str_lower (str_strip l)) (map fst CONFLICT_MODES))
         lines ->
  select_conflict_mode lines = (Raise "EOF when reading a line", []).
Proof.
  induction 1 as [|l lines [Hempty Hkey] _ IH]; cbn [select_conflict_mode];
    [reflexivity|].
  apply String.eqb_neq in Hempty. rewrite Hempty.
  destruct (existsb (String.eqb (str_lower (str_strip l)))
              (map fst CONFLICT_MODES)) eqn:Hmem; [|exact IH].
  exfalso. apply Hkey, mem_In, Hmem.
Qed.

End ManifestRows.

(** ** Batches on a manifest that is missing, unreadable or empty *)

Section ManifestFailures.
Context {W : Type} {P : Platform W}.

(** The [try] blocks that start with the manifest raise before anything
    else when it cannot be had. *)
Lemma bad_manifest_raises (csv_file : path) (cut_mode : bool)
    (conflict_mode message : string) (w : W) :
  (os_path_exists csv_file w = false /\
   message = "CSV文件不存在: " ++ csv_file) \/
  (os_path_exists csv_file w = true /\
   exists error,
     read_csv_with_encoding_detection csv_file w = inl error /\
     message = "读取CSV文件失败: " ++ error) ->
  rename_files_in_place_try csv_file conflict_mode (init_locals, w)
    = (Raise message, (init_locals, w)) /\
  copy_files_from_csv_paths_try csv_file cut_mode conflict_mode (init_locals, w)
    = (Raise message, (init_locals, w)).
Proof.
  unfold rename_files_in_place_try, copy_files_from_csv_paths_try.
  intros [[Hmissing ->]|[Hfound (error & Hread & ->)]].
  - split.
    + unfold bind at 1. unfold liftW at 1, path_exists at 1. cbn [fst snd].
      rewrite Hmissing. cbn [negb]. unfold bind at 1. reflexivity.
    + unfold bind at 1. unfold liftW at 1, path_exists at 1. cbn [fst snd].
      rewrite Hmissing. cbn [negb]. unfold bind at 1. reflexivity.
  - split.
    + unfold bind at 1. unfold liftW at 1, path_exists at 1. cbn [fst snd].
      rewrite Hfound. cbn [negb]. unfold bind at 1. unfold ret at 1.
      unfold bind at 1. unfold read at 1. cbn [fst snd]. rewrite Hread.
      reflexivity.
    + unfold bind at 1. unfold liftW at 1, path_exists at 1. cbn [fst snd].
      rewrite Hfound. cbn [negb]. unfold bind at 1. unfold ret at 1.
      unfold bind at 1. unfold read at 1. cbn [fst snd]. rewrite Hread.
      reflexivity.
Qed.

(** X21.  [rename_files_in_place] and [copy_files_from_csv_paths] on a
    manifest that does not exist, or that
    [read_csv_with_encoding_detection] cannot read, and a journal they can
    append to: no directory is made and no file touched, the empty list is
    returned, and the record appended is a failed one with empty path
    lists and the message of the exception. *)
Theorem bad_manifest_fails_the_batch (source csv_file : path)
    (cut_mode : bool) (conflict_mode : option string) (message : string)
    (st : State W) :
  appendable (journal st) ->
  (os_path_exists csv_file (snd (uuid4 (fs st))) = false /\
   message = "CSV文件不存在: " ++ csv_file) \/
  (os_path_exists csv_file (snd (uuid4 (fs st))) = true /\
   exists error,
     read_csv_with_encoding_detection csv_file (snd (uuid4 (fs st)))
       = inl error /\
     message = "读取CSV文件失败: " ++ error) ->
  let w0 := snd (uuid4 (fs st)) in
  let record operation_type :=
    {| rec_id := fst (uuid4 (fs st));
       rec_type := operation_type;
       rec_source_paths := [];
       rec_target_paths := [];
       rec_backup_paths := [];
       rec_timestamp := fst (datetime_now w0);
       rec_status := "failed";
       rec_success := false;
       rec_error_message := Some message;
       rec_undo_timestamp := None |} in
  let st' operation_type :=
    {| fs := snd (datetime_now w0);
       journal :=
         JLoaded (loaded_history (journal st) ++ [record operation_type]) |} in
  rename_files_in_place source csv_file conflict_mode st
    = (Ok [], st' RENAME) /\
  copy_files_from_csv_paths csv_file cut_mode conflict_mode st
    = (Ok [], st' (if cut_mode then CUT else COPY)).
Proof.
  intros Happ Hbad w0 record st'. subst w0 record st'.
  unfold rename_files_in_place, copy_files_from_csv_paths.
  destruct (uuid4 (fs st)) as [operation_id w0]. cbn [fst snd] in *.
  rewrite !run_batch_unfold. cbn [fs journal].
  destruct (bad_manifest_raises csv_file cut_mode
              (conflict_mode_or_default conflict_mode) message w0 Hbad)
    as [-> ->].
  rewrite !save_operation_history_appends by exact Happ.
  cbn [fs journal set_failure source_paths copied_files renamed_files
       backup_paths operation_success error_message init_locals].
  destruct cut_mode; split; reflexivity.
Qed.

(** With no row in the manifest the [try] blocks only make the backup
    directory. *)
Lemma empty_manifest_succeeds (csv_file : path) (cut_mode : bool)
    (conflict_mode : string) (w w1 : W) :
  os_path_exists csv_file w = true ->
  read_csv_with_encoding_detection csv_file w = inr [] ->
  os_makedirs temp_backup_dir w = (Ok tt, w1) ->
  rename_files_in_place_try csv_file conflict_mode (init_locals, w)
    = (Ok tt, (set_success init_locals, w1)) /\
  copy_files_from_csv_paths_try csv_file cut_mode conflict_mode (init_locals, w)
    = (Ok tt, (set_success init_locals, w1)).
Proof.
  intros Hfound Hread Hmk.
  unfold rename_files_in_place_try, copy_files_from_csv_paths_try.
  split.
  - unfold bind at 1. unfold liftW at 1, path_exists at 1. cbn [fst snd].
    rewrite Hfound. cbn [negb]. unfold bind at 1. unfold ret at 1.
    unfold bind at 1. unfold read at 1. cbn [fst snd]. rewrite Hread.
    unfold bind at 1. unfold liftW at 1. cbn [fst snd]. rewrite Hmk.
    reflexivity.
  - unfold bind at 1. unfold liftW at 1, path_exists at 1. cbn [fst snd].
    rewrite Hfound. cbn [negb]. unfold bind at 1. unfold ret at 1.
    unfold bind at 1. unfold read at 1. cbn [fst snd]. rewrite Hread.
    unfold bind at 1. unfold liftW at 1. cbn [fst snd]. rewrite Hmk.
    reflexivity.
Qed.

(** X22.  [rename_files_in_place] and [copy_files_from_csv_paths] on a
    manifest without rows, and a journal they can append to: the batch
    succeeds, and the record it appends is a completed one with no path.  That record is then the one undo
    finds: undo returns [False] and changes nothing, so the completed
    batches before it can no longer be undone. *)
Theorem empty_manifest_blocks_undo (source csv_file : path)
    (cut_mode : bool) (conflict_mode : option string) (st : State W) (w1 : W) :
  appendable (journal st) ->
  os_path_exists csv_file (snd (uuid4 (fs st))) = true ->
  read_csv_with_encoding_detection csv_file (snd (uuid4 (fs st))) = inr [] ->
  os_makedirs temp_backup_dir (snd (uuid4 (fs st))) = (Ok tt, w1) ->
  let record operation_type :=
    {| rec_id := fst (uuid4 (fs st));
       rec_type := operation_type;
       rec_source_paths := [];
       rec_target_paths := [];
       rec_backup_paths := [];
       rec_timestamp := fst (datetime_now w1);
       rec_status := "completed";
       rec_success := true;
       rec_error_message := None;
       rec_undo_timestamp := None |} in
  let st' operation_type :=
    {| fs := snd (datetime_now w1);
       journal :=
         JLoaded (loaded_history (journal st) ++ [record operation_type]) |} in
  rename_files_in_place source csv_file conflict_mode st
    = (Ok [], st' RENAME) /\
  copy_files_from_csv_paths csv_file cut_mode conflict_mode st
    = (Ok [], st' (if cut_mode then CUT else COPY)) /\
  undo_last_operation (st' RENAME) = (Ok false, st' RENAME) /\
  undo_last_operation (st' (if cut_mode then CUT else COPY))
    = (Ok false, st' (if cut_mode then CUT else COPY)).
Proof.
  intros Happ Hfound Hread Hmk record st'.
  assert (Hundo : forall operation_type,
            operation_type = CUT \/ operation_type = COPY \/
            operation_type = RENAME ->
            undo_last_operation (st' operation_type)
            = (Ok false, st' operation_type)).
  { intros operation_type Hty. unfold st'.
    apply undo_last_operation_idle; [reflexivity | constructor |].
    apply undo_paths_no_targets; [exact Hty | reflexivity]. }
  split; [|split; [|split; [apply Hundo; auto
                           |apply Hundo; destruct cut_mode; auto]]];
    clear Hundo; subst record st'.
  - unfold rename_files_in_place.
    destruct (uuid4 (fs st)) as [operation_id w0]. cbn [fst snd] in *.
    rewrite run_batch_unfold. cbn [fs journal].
    destruct (empty_manifest_succeeds csv_file cut_mode
                (conflict_mode_or_default conflict_mode) w0 w1 Hfound Hread Hmk)
      as [-> _].
    rewrite save_operation_history_appends by exact Happ.
    reflexivity.
  - unfold copy_files_from_csv_paths.
    destruct (uuid4 (fs st)) as [operation_id w0]. cbn [fst snd] in *.
    rewrite run_batch_unfold. cbn [fs journal].
    destruct (empty_manifest_succeeds csv_file cut_mode
                (conflict_mode_or_default conflict_mode) w0 w1 Hfound Hread Hmk)
      as [_ ->].
    rewrite save_operation_history_appends by exact Happ.
    destruct cut_mode; reflexivity.
Qed.

End ManifestFailures.

(** ** Undo of a copy whose targets are gone *)

Section UndoCopyEdges.
Context {W : Type} {P : Platform W}.

Lemma undo_delete_loop_missing (targets : list path) (n : nat) (w : W) :
  Forall (fun t => os_path_exists t w = false) targets ->
  undo_delete_loop targets n w = (Ok n, w).
Proof.
  induction 1 as [|t targets Ht _ IH]; cbn [undo_delete_loop];
    [reflexivity|].
  assert (Hitem : undo_delete_item t w = (Ok false, w)).
  { unfold undo_delete_item, try_catch, path_exists. unfold bind, ret.
    rewrite Ht. reflexivity. }
  unfold bind. rewrite Hitem. exact IH.
Qed.

(** X23.  A completed copy record none of whose target paths exists any
    more cannot be undone: undo deletes nothing, returns [False], and the
    record stays ["completed"] in a journal that is not rewritten. *)
Theorem undo_of_copy_without_targets_fails (older newer : list OperationRecord)
    (r : OperationRecord) (w : W) :
  rec_status r = "completed" ->
  Forall (fun x => rec_status x <> "completed") newer ->
  rec_type r = COPY ->
  Forall (fun t => os_path_exists t w = false) (rec_target_paths r) ->
  undo_last_operation {| fs := w; journal := JLoaded (older ++ r :: newer) |}
  = (Ok false, {| fs := w; journal := JLoaded (older ++ r :: newer) |}).
Proof.
  intros Hr Hnewer Hty Hgone.
  apply undo_last_operation_idle; [assumption | assumption |].
  pose proof (undo_delete_loop_missing (rec_target_paths r) 0 w Hgone) as Hloop.
  unfold undo_paths. rewrite Hty.
  change (COPY =? CUT) with false. rewrite String.eqb_refl. cbv iota.
  unfold bind, ret. rewrite Hloop. reflexivity.
Qed.

End UndoCopyEdges.

(** ** What the resolver never answers *)

Section ResolverSafety.
Context {W : Type} {P : Platform W} {FP : FiniteProbe W}.

(** X24.  On a platform with finite directories [resolve_conflict]
    answers a path that exists only when it answers the target itself
    under ["overwrite"], or under ["merge"] for a folder; under every other
    policy string the path it answers is free.  It answers [None] only
    under ["skip"], and only when the target exists. *)
Theorem resolve_conflict_answers_free_path (source_path target_path : path)
    (conflict_mode : string) (is_folder : bool) (w w' : W)
    (answer : option path) :
  resolve_conflict source_path target_path conflict_mode is_folder w
    = (Ok answer, w') ->
  match answer with
  | None => conflict_mode = "skip" /\ os_path_exists target_path w = true
  | Some resolved_path =>
      os_path_exists resolved_path w = true ->
      resolved_path = target_path /\
      (conflict_mode = "overwrite" \/
       (conflict_mode = "merge" /\ is_folder = true))
  end.
Proof.
  rewrite resolve_conflict_unfold.
  destruct (os_path_exists target_path w) eqn:Hex.
  - destruct (conflict_mode =? "skip") eqn:Hskip.
    { intros [= <- <-]. split; [apply String.eqb_eq, Hskip | reflexivity]. }
    destruct (conflict_mode =? "overwrite") eqn:Hover.
    { intros [= <- <-]. intros _. split; [reflexivity|].
      left. apply String.eqb_eq, Hover. }
    destruct ((conflict_mode =? "copy")
              || negb ((conflict_mode =? "merge") && is_folder)) eqn:Hcopy.
    + destruct (generate_copy_name_total target_path w)
        as (N & _ & -> & Hfree & _).
      intros [= <- <-]. intros Hocc. congruence.
    + intros [= <- <-]. intros _. split; [reflexivity|]. right.
      apply orb_false_iff in Hcopy as [_ Hmerge].
      apply negb_false_iff, andb_true_iff in Hmerge as [Hm Hf].
      split; [apply String.eqb_eq, Hm | exact Hf].
  - intros [= <- <-]. intros Hocc. congruence.
Qed.

End ResolverSafety.

(** ** The further properties on the platform in memory *)

(** X1 at [dst/b.txt], which [world0] does not hold. *)
Lemma resolve_conflict_without_conflict_witness :
  resolve_conflict "src/b.txt" "dst/b.txt" "skip" false Sample.world0
  = (Ok (Some "dst/b.txt"), Sample.world0).
Proof.
  exact (@resolve_conflict_without_conflict MemFS.world MemFS.platform
           "src/b.txt" "dst/b.txt" "skip" false Sample.world0 eq_refl).
Defined.

(** X2 at the conflict of [dst/a.txt]. *)
Lemma resolve_conflict_fixed_policies_witness :
  resolve_conflict "src/a.txt" "dst/a.txt" "skip" false Sample.world0
  = (Ok None, Sample.world0).
Proof.
  exact (proj1 (@resolve_conflict_fixed_policies MemFS.world MemFS.platform
                  "src/a.txt" "dst/a.txt" false Sample.world0 eq_refl)).
Defined.

(** X3 at the policy string ["rename"]. *)
Lemma resolve_conflict_unknown_policy_witness :
  resolve_conflict "src/a.txt" "dst/a.txt" "rename" false Sample.world0
  = resolve_conflict "src/a.txt" "dst/a.txt" "copy" false Sample.world0.
Proof.
  apply (@resolve_conflict_unknown_policy MemFS.world MemFS.platform);
    discriminate.
Defined.

(** X4 at a journal of two records and a cap of five. *)
Lemma cleanup_old_history_within_cap_witness :
  cleanup_old_history 5
    {| fs := Sample.world0;
       journal := JLoaded [Sample.record_a; Sample.record_b] |}
  = (Ok tt,
     {| fs := Sample.world0;
        journal := JLoaded [Sample.record_a; Sample.record_b] |}).
Proof.
  apply (@cleanup_old_history_within_cap MemFS.world).
  - intros h [= <-]. cbn. lia.
  - intros s [=].
Defined.

(** X5 at a journal of three records and a cap of two. *)
Lemma cleanup_old_history_keeps_newest_witness :
  cleanup_old_history 2
    {| fs := Sample.world0;
       journal :=
         JLoaded [Sample.record_a; Sample.record_b; Sample.record_failed] |}
  = (Ok tt,
     {| fs := Sample.world0;
        journal := JLoaded [Sample.record_b; Sample.record_failed] |}).
Proof.
  apply (@cleanup_old_history_keeps_newest MemFS.world
           [Sample.record_a] [Sample.record_b; Sample.record_failed]
           Sample.world0); discriminate.
Defined.

(** X7 at a journal of four records pruned to its last three. *)
Lemma cleanup_old_history_keeps_undo_target_witness :
  last_completed
    (loaded_history
       (journal
          (snd (cleanup_old_history 3
                  {| fs := Sample.world0;
                     journal :=
                       JLoaded [Sample.record_failed; Sample.record_a;
                                Sample.record_b; Sample.record_failed] |}))))
  = Some (1, Sample.record_b).
Proof.
  refine (proj2 (@cleanup_old_history_keeps_undo_target MemFS.world
                   [Sample.record_failed] [Sample.record_a]
                   [Sample.record_failed] Sample.record_b Sample.world0
                   _ eq_refl _)).
  - discriminate.
  - repeat constructor. discriminate.
Defined.

(** X8 at a backup area with the backup of an older cut and the backup of
    the newest one: the older backup is deleted, the newest is kept. *)
Lemma cleanup_backup_files_spares_recent_witness :
  cleanup_backup_files true
    {| fs := Cases.world_backups; journal := JLoaded [Cases.cut_record] |}
  = (Ok tt,
     {| fs := snd (for_each [".temp_backup/backup_a.txt_0"] delete_path
                     Cases.world_backups);
        journal := JLoaded [Cases.cut_record] |}).
Proof.
  exact (proj1 (@cleanup_backup_files_spares_recent MemFS.world MemFS.platform
                  {| fs := Cases.world_backups;
                     journal := JLoaded [Cases.cut_record] |}
                  ["backup_a.txt_0"; "backup_b.txt_1"] eq_refl eq_refl)).
Defined.

(** X9 at a completed copy record without paths, with an older completed
    copy before it. *)
Lemma undo_of_empty_record_is_stuck_witness :
  let st := {| fs := Sample.world_copied;
               journal := JLoaded [Sample.record_b; Cases.empty_record COPY] |} in
  undo_last_operation st = (Ok false, st).
Proof.
  cbv zeta.
  refine (proj1 (@undo_of_empty_record_is_stuck MemFS.world MemFS.platform
                   [Sample.record_b] [] (Cases.empty_record COPY)
                   Sample.world_copied eq_refl _ _ eq_refl)).
  - constructor.
  - right. left. reflexivity.
Defined.

(** X10 at the record of a cut whose backup is not in the world. *)
Lemma undo_without_backups_fails_witness :
  undo_last_operation
    {| fs := Sample.world_copied; journal := JLoaded [Cases.cut_record] |}
  = (Ok false,
     {| fs := Sample.world_copied; journal := JLoaded [Cases.cut_record] |}).
Proof.
  refine (@undo_without_backups_fails MemFS.world MemFS.platform
            [] [] Cases.cut_record Sample.world_copied eq_refl _ _ _).
  - constructor.
  - left. reflexivity.
  - repeat constructor.
Defined.

(** X11 at a record of type ["move"]. *)
Lemma undo_of_unknown_type_witness :
  fst (undo_last_operation
         {| fs := Sample.world_copied;
            journal := JLoaded [Cases.empty_record "move"] |})
  = Ok true.
Proof.
  refine (f_equal fst
            (@undo_of_unknown_type MemFS.world MemFS.platform
               [] [] (Cases.empty_record "move") Sample.world_copied
               eq_refl _ _ _ _)).
  - constructor.
  - discriminate.
  - discriminate.
  - discriminate.
Defined.

(** X12 at a search for [b.txt] in a source that does not hold it. *)
Lemma undo_after_empty_batch_witness :
  let st := run_call (SearchAndCopyFiles "src" "dst" "m.csv" false None)
              {| fs := Cases.world_no_match; journal := JMissing |} in
  undo_last_operation st = (Ok false, st).
Proof.
  cbv zeta.
  eapply (@undo_after_empty_batch MemFS.world MemFS.platform
            (SearchAndCopyFiles "src" "dst" "m.csv" false None)
            {| fs := Cases.world_no_match; journal := JMissing |} []).
  - vm_compute. reflexivity.
  - reflexivity.
  - reflexivity.
Defined.

(** X13 at a journal with one record. *)
Lemma drivers_return_recorded_targets_witness :
  exists record,
    journal (snd (search_and_copy_files "src" "dst" "m.csv" false None
                    {| fs := Sample.world0;
                       journal := JLoaded [Sample.record_a] |}))
      = JLoaded [Sample.record_a; record] /\
    fst (search_and_copy_files "src" "dst" "m.csv" false None
           {| fs := Sample.world0; journal := JLoaded [Sample.record_a] |})
      = Ok (rec_target_paths record).
Proof.
  exact (proj1 (@drivers_return_recorded_targets MemFS.world MemFS.platform
                  {| fs := Sample.world0;
                     journal := JLoaded [Sample.record_a] |} I)
           "src" "dst" "m.csv" false None).
Defined.

(** X14 at a source directory [nosuch]. *)
Lemma missing_source_fails_the_batch_witness :
  fst (search_and_copy_files "nosuch" "dst" "m.csv" false None
         {| fs := Sample.world0; journal := JMissing |})
  = Ok [] /\
  fst (extract_entire_folder "nosuch" "dst" "m.csv" false None
         {| fs := Sample.world0; journal := JMissing |})
  = Raise ("cannot access local variable 'found_folders' where it is"
           ++ " not associated with a value").
Proof.
  pose proof (@missing_source_fails_the_batch MemFS.world MemFS.platform
                "nosuch" "dst" "m.csv" false None
                {| fs := Sample.world0; journal := JMissing |} I eq_refl)
    as [Hsearch Hextract].
  split; [exact (f_equal fst Hsearch) | exact (f_equal fst Hextract)].
Defined.

(** X15 at a manifest that gives [src/a.txt] two new names. *)
Lemma rename_skips_conflicting_rows_witness :
  rename_loop "copy" Cases.manifest_twice [] Cases.manifest_twice
    (init_locals, Sample.world0)
  = (Ok tt, (init_locals, Sample.world0)).
Proof.
  apply (@rename_skips_conflicting_rows MemFS.world MemFS.platform).
  constructor; [|constructor; [|constructor]].
  - split; [left; reflexivity|]. eexists.
    split; [right; left; reflexivity|]. split; [reflexivity | discriminate].
  - split; [right; left; reflexivity|]. eexists.
    split; [left; reflexivity|]. split; [reflexivity | discriminate].
Defined.

(** X17 at three rows, the second of them blank. *)
Lemma read_csv_rows_enough_columns_witness :
  exists data,
    read_csv_rows (W := MemFS.world) 2 [["a"; "b"]; []; [" c "]] = inr data.
Proof.
  destruct (@read_csv_rows_enough_columns MemFS.world MemFS.platform 2
              [["a"; "b"]; []; [" c "]] (le_n 2)) as (data & Hdata & _).
  exists data. exact Hdata.
Defined.

(** X18 at one expected column and a row of one field. *)
Lemma read_csv_rows_one_column_fails_witness :
  read_csv_rows (W := MemFS.world) 1 [["a"; "b"]; ["c"]]
  = inl "读取文件时发生错误: list index out of range".
Proof.
  apply (@read_csv_rows_one_column_fails MemFS.world MemFS.platform 1
           [["a"; "b"]; ["c"]] "c" (le_n 1)).
  right. left. reflexivity.
Defined.

(** X19 at an invalid line followed by [ Skip ]. *)
Lemma select_conflict_mode_returns_key_witness :
  In "skip" (map fst CONFLICT_MODES).
Proof.
  exact (proj1 (@select_conflict_mode_returns_key MemFS.world MemFS.platform
                  ["bogus"; " Skip "; "copy"] ["copy"] "skip" eq_refl)).
Defined.

(** X20 at two lines that name no mode. *)
Lemma select_conflict_mode_exhausts_input_witness :
  select_conflict_mode (W := MemFS.world) ["bogus"; "x"]
  = (Raise "EOF when reading a line", []).
Proof.
  apply (@select_conflict_mode_exhausts_input MemFS.world MemFS.platform).
  repeat constructor; try discriminate;
    intros Hin; vm_compute in Hin; intuition discriminate.
Defined.

(** X21 at a manifest [nosuch.csv]. *)
Lemma bad_manifest_fails_the_batch_witness :
  fst (rename_files_in_place "src" "nosuch.csv" None
         {| fs := Sample.world0; journal := JMissing |})
  = Ok [].
Proof.
  refine (f_equal fst
            (proj1 (@bad_manifest_fails_the_batch MemFS.world MemFS.platform
                      "src" "nosuch.csv" false None
                      ("CSV文件不存在: " ++ "nosuch.csv")
                      {| fs := Sample.world0; journal := JMissing |} I _))).
  left. split; reflexivity.
Defined.

(** X22 at the manifest [e.csv], which has no row. *)
Lemma empty_manifest_blocks_undo_witness :
  let st := snd (rename_files_in_place "src" "e.csv" None
                   {| fs := Cases.world_empty_manifest; journal := JMissing |}) in
  undo_last_operation st = (Ok false, st).
Proof.
  cbv zeta.
  pose proof (@empty_manifest_blocks_undo MemFS.world MemFS.platform
                "src" "e.csv" false None
                {| fs := Cases.world_empty_manifest; journal := JMissing |}
                (snd (os_makedirs temp_backup_dir
                        (snd (uuid4 Cases.world_empty_manifest))))
                I eq_refl eq_refl eq_refl) as (Hrename & _ & Hundo & _).
  rewrite Hrename. exact Hundo.
Defined.

(** X23 at the copy recorded by [record_gone], whose target is gone. *)
Lemma undo_of_copy_without_targets_fails_witness :
  undo_last_operation
    {| fs := Sample.world_copied; journal := JLoaded [Sample.record_gone] |}
  = (Ok false,
     {| fs := Sample.world_copied; journal := JLoaded [Sample.record_gone] |}).
Proof.
  refine (@undo_of_copy_without_targets_fails MemFS.world MemFS.platform
            [] [] Sample.record_gone Sample.world_copied eq_refl _ eq_refl _).
  - constructor.
  - repeat constructor.
Defined.

(** X24 at the conflict of [dst/a.txt] under ["overwrite"]. *)
Lemma resolve_conflict_answers_free_path_witness :
  "dst/a.txt" = "dst/a.txt" /\
  ("overwrite" = "overwrite" \/ ("overwrite" = "merge" /\ false = true)).
Proof.
  exact (@resolve_conflict_answers_free_path MemFS.world MemFS.platform
           MemFSFacts.finite_probe "src/a.txt" "dst/a.txt" "overwrite" false
           Sample.world0 Sample.world0 (Some "dst/a.txt") eq_refl eq_refl).
Defined.
